(** * Draw-pool batching and the light view: a shallow embedding

    The development follows [src/framework/graphics/drawpool.cpp] and
    [src/client/lightview.cpp].  Objects reached through [shared_ptr] live in
    an explicit store and are named by their index there; dereferencing a
    null pointer is undefined behaviour in the source and is the failure
    [None] of the option monad here.  What the two files call in their
    collaborators (painter, frame buffers, textures, the pool classes, whose
    headers are not part of the sources) is either a parameter of the model
    or a definition marked as modelled from the specification. *)

From Stdlib Require Import ZArith Bool Lia.
From stdpp Require Import base option list.

Local Open Scope Z_scope.

(** ** Sequences *)

(** [back()] of a [std::list] or [std::vector], together with the elements
    before it; [None] when the container is empty. *)
Fixpoint split_last {A : Type} (l : list A) : option (list A * A) :=
  match l with
  | [] => None
  | x :: l' =>
      match split_last l' with
      | None => Some ([], x)
      | Some (front, y) => Some (x :: front, y)
      end
  end.

(** ** Geometry (framework/math) *)

Module Geometry.

(** Modelled from the spec: the point class is declared in a header that is
    not among the sources; a point is a pair of integer coordinates and the
    default-constructed point is the null point. *)
Record Point := mkPoint { px : Z; py : Z }.

Definition Point_default : Point := mkPoint 0 0.

(** Modelled from the spec: [isNull] of the point class (not among the
    sources): both coordinates are zero. *)
Definition Point_isNull (p : Point) : bool := (px p =? 0) && (py p =? 0).

(** Modelled from the spec: [operator==] of the point class (not among the
    sources). *)
Definition Point_eqb (a b : Point) : bool := (px a =? px b) && (py a =? py b).

(** [Point - scalar], used by the light view. *)
Definition Point_sub (p : Point) (d : Z) : Point := mkPoint (px p - d) (py p - d).

Record Size := mkSize { wd : Z; ht : Z }.

Definition Size_eqb (a b : Size) : bool := (wd a =? wd b) && (ht a =? ht b).

(** Modelled from the spec: the rectangle class is declared in a header that
    is not among the sources; a rectangle is kept as its two corners, it is
    empty when a corner pair is inverted, and two rectangles are equal when
    all four coordinates are. *)
Record Rect := mkRect { x1 : Z; y1 : Z; x2 : Z; y2 : Z }.

Definition Rect_default : Rect := mkRect 0 0 (-1) (-1).

(** [Rect(topLeft, size)] *)
Definition Rect_make (p : Point) (sz : Size) : Rect :=
  mkRect (px p) (py p) (px p + wd sz - 1) (py p + ht sz - 1).

(** Modelled from the spec: [isEmpty] of the rectangle class (not among the
    sources): a rectangle of zero area. *)
Definition Rect_isEmpty (r : Rect) : bool := (x2 r <? x1 r) || (y2 r <? y1 r).

Definition Rect_size (r : Rect) : Size := mkSize (x2 r - x1 r + 1) (y2 r - y1 r + 1).

(** Modelled from the spec: [operator==] of the rectangle class (not among
    the sources). *)
Definition Rect_eqb (a b : Rect) : bool :=
  (x1 a =? x1 b) && (y1 a =? y1 b) && (x2 a =? x2 b) && (y2 a =? y2 b).

End Geometry.

Export Geometry.

(** ** Textures and the painter *)

(** Modelled from the spec: a texture is reached through a pointer and
    exposes [getSize], [isEmpty], [isOpaque] and [canSuperimposed]; two
    texture pointers are equal when they name the same object. *)
Record Texture := mkTexture {
  tex_id : nat;
  tex_size : Size;
  tex_isEmpty : bool;
  tex_isOpaque : bool;
  tex_canSuperimposed : bool
}.

(** [TexturePtr]: [None] is [nullptr]. *)
Definition TexturePtr := option Texture.

Definition TexturePtr_eqb (a b : TexturePtr) : bool :=
  match a, b with
  | None, None => true
  | Some t, Some u => Nat.eqb (tex_id t) (tex_id u)
  | _, _ => false
  end.

Module Painter.

Inductive DrawMode := DrawMode_None | Triangles | TriangleStrip.

Inductive CompositionMode := CompositionMode_Normal | CompositionMode_Light.

(** The fields of [Painter::PainterState] other than the texture (colour,
    opacity, composition mode, clip rectangle, shader, ...) and the
    comparison [operator==] makes of them are a parameter: the painter's
    header is not among the sources. *)
Class PainterModel := {
  PainterRest : Type;
  rest_eqb : PainterRest -> PainterRest -> bool;
  rest_default : PainterRest
}.

Record PainterState `{PainterModel} := mkPainterState {
  rest : PainterRest;
  texture : TexturePtr
}.

Definition PainterState_eqb `{PainterModel} (a b : PainterState) : bool :=
  rest_eqb (rest a) (rest b) && TexturePtr_eqb (texture a) (texture b).

Definition PainterState_default `{PainterModel} : PainterState :=
  mkPainterState _ rest_default None.

(** [currentState.texture = texture] *)
Definition setTexture `{PainterModel} (st : PainterState) (t : TexturePtr) : PainterState :=
  mkPainterState _ (rest st) t.

End Painter.

Export Painter.

(** ** Coordinate buffers *)

(** A [CoordsBuffer] is append-only within a frame; it is kept as the
    sequence of primitives appended to it. *)
Inductive CoordsOp :=
| addBoudingRect (dest : Rect) (innerLineWidth : Z)
| addRect (dest : Rect)
| addTriangle (a b c : Point)
| addRectSrc (dest src : Rect)
| addQuad (dest src : Rect)
| addUpsideDownRect (dest src : Rect)
| addUpsideDownQuad (dest src : Rect).

Definition CoordsBuffer := list CoordsOp.

(** ** Pools *)

Module Pool.

Inductive DrawMethodType :=
| DRAW_FILL_COORDS
| DRAW_TEXTURE_COORDS
| DRAW_TEXTURED_RECT
| DRAW_UPSIDEDOWN_TEXTURED_RECT
| DRAW_REPEATED_TEXTURED_RECT
| DRAW_REPEATED_FILLED_RECT
| DRAW_FILLED_RECT
| DRAW_FILLED_TRIANGLE
| DRAW_BOUNDING_RECT.

Record DrawMethod := mkDrawMethod {
  type : DrawMethodType;
  rects : Rect * Rect;
  points : Point * Point * Point;
  dest : Point;
  intValue : Z
}.

(** [Pool::DrawMethod method{ t }]: every other member default-constructed. *)
Definition DrawMethod_init (t : DrawMethodType) : DrawMethod :=
  mkDrawMethod t (Rect_default, Rect_default)
    (Point_default, Point_default, Point_default) Point_default 0.

(** Closures ([std::function<void()>]) are named, not executed. *)
Definition ActionId := nat.

Record DrawObject `{PainterModel} := mkDrawObject {
  state : PainterState;
  coordsBuffer : option CoordsBuffer;
  drawMode : DrawMode;
  drawMethods : list DrawMethod;
  action : option ActionId
}.

(** Modelled from the spec: the frame buffer class is not among the sources;
    a render target can be drawable or not, has blending on or off and a
    composition mode. *)
Record FrameBuffer := mkFrameBuffer {
  fb_id : nat;
  fb_isDrawable : bool;
  fb_blend : bool;
  fb_compositionMode : CompositionMode
}.

(** Modelled from the spec: [disableBlend] and [setCompositionMode] of the
    frame buffer class (not among the sources) set the field they name. *)
Definition disableBlend (fb : FrameBuffer) : FrameBuffer :=
  mkFrameBuffer (fb_id fb) (fb_isDrawable fb) false (fb_compositionMode fb).

Definition setCompositionMode (m : CompositionMode) (fb : FrameBuffer) : FrameBuffer :=
  mkFrameBuffer (fb_id fb) (fb_isDrawable fb) (fb_blend fb) m.

(** Modelled from the spec: the members [PoolFramed] adds to [Pool]: the
    render target, the committed and the running content hash
    ([m_status.first], [m_status.second]), the rectangles used to composite
    the target and the two optional hooks. *)
Record PoolFramed := mkPoolFramed {
  m_framebuffer : FrameBuffer;
  m_status : Z * Z;
  m_dest : Rect;
  m_src : Rect;
  m_beforeDraw : option ActionId;
  m_afterDraw : option ActionId
}.

(** A pool object; [m_framed] holds the derived-class part when the dynamic
    type is [PoolFramed]. *)
Record Pool `{PainterModel} := mkPool {
  m_objects : list DrawObject;
  m_framed : option PoolFramed
}.

(** Modelled from the spec: [isFramed] of the pool class (not among the
    sources) tells whether the pool is a [PoolFramed]. *)
Definition isFramed `{PainterModel} (p : Pool) : bool :=
  match m_framed p with Some _ => true | None => false end.

(** Modelled from the spec: [hasModification] of [PoolFramed] (not among
    the sources) tells whether the running hash differs from the committed
    one. *)
Definition hasModification (pf : PoolFramed) : bool :=
  negb (fst (m_status pf) =? snd (m_status pf)).

Definition setFramebuffer (fb : FrameBuffer) (pf : PoolFramed) : PoolFramed :=
  mkPoolFramed fb (m_status pf) (m_dest pf) (m_src pf) (m_beforeDraw pf) (m_afterDraw pf).

Definition setStatus (st : Z * Z) (pf : PoolFramed) : PoolFramed :=
  mkPoolFramed (m_framebuffer pf) st (m_dest pf) (m_src pf)
    (m_beforeDraw pf) (m_afterDraw pf).

(** Modelled from the spec: [updateStatus] of [PoolFramed] (not among the
    sources) commits the running hash. *)
Definition updateStatus (pf : PoolFramed) : PoolFramed :=
  setStatus (snd (m_status pf), snd (m_status pf)) pf.

(** Modelled from the spec: [resetCurrentStatus] of [PoolFramed] (not among
    the sources) restarts the running hash. *)
Definition resetCurrentStatus (pf : PoolFramed) : PoolFramed :=
  setStatus (fst (m_status pf), 0) pf.

Definition setObjects `{PainterModel} (objs : list DrawObject) (p : Pool) : Pool :=
  mkPool _ objs (m_framed p).

End Pool.

Export Pool.

(** ** The pool registry ([DrawPool]) *)

(** Modelled from the spec: the enumeration of pool types is declared in a
    header that is not among the sources; the members are the ones the
    specification names, [MAP] first. *)
Inductive PoolType := MAP | LIGHT | UI | FOREGROUND.

(** The pool types in the order of the array [m_pools] ([0 .. LAST-1]). *)
Definition PoolType_all : list PoolType := [MAP; LIGHT; UI; FOREGROUND].

Definition PoolType_eqb (a b : PoolType) : bool :=
  match a, b with
  | MAP, MAP | LIGHT, LIGHT | UI, UI | FOREGROUND, FOREGROUND => true
  | _, _ => false
  end.

(** [PoolPtr]: the index of a pool object in the store, [None] for
    [nullptr]. *)
Definition PoolPtr := option nat.

Definition ThreadId := nat.

(** What the registry asks of its collaborators, in the order asked. *)
Inductive Call `{PainterModel} :=
| Join (pool : nat)
| SaveAndResetState
| RestoreSavedState
| ExecuteState (st : PainterState)
| SetTexture (t : TexturePtr)
| DrawCoords (coords : CoordsBuffer) (mode : DrawMode)
| FbBind (fb : nat)
| FbRelease (fb : nat)
| FbDraw (fb : nat) (dst src : Rect)
| BeforeDraw (hook : ActionId)
| AfterDraw (hook : ActionId)
| RunAction (a : ActionId).

(** The collaborators whose code is not among the sources: how a call
    changes the state [g_painter->getCurrentState()] returns, the hash a
    [PoolFramed] folds a texture and a method into, the vertex hash of a
    coordinate buffer, and the members of the object
    [std::make_shared<PoolFramed>()] yields. *)
Class Collaborators `{PainterModel} := {
  painterEffect : Call -> PainterState -> PainterState;
  hashFold : Z -> TexturePtr -> DrawMethod -> Z;
  getVertexHash : CoordsBuffer -> Z;
  newPoolFramed : PoolFramed
}.

Module DrawPool.

Section Registry.
Context `{Collaborators}.

Record World := mkWorld {
  heap : list Pool;
  m_pools : PoolType -> PoolPtr;
  m_currentPool : PoolPtr;
  T_CURRENT_POOL : ThreadId -> PoolPtr;
  m_multiThread : bool;
  m_coordsbuffer : CoordsBuffer;
  g_painter : PainterState;
  calls : list Call
}.

Definition setHeap (h : list Pool) (s : World) : World :=
  mkWorld h (m_pools s) (m_currentPool s) (T_CURRENT_POOL s) (m_multiThread s)
    (m_coordsbuffer s) (g_painter s) (calls s).

Definition setPools (f : PoolType -> PoolPtr) (s : World) : World :=
  mkWorld (heap s) f (m_currentPool s) (T_CURRENT_POOL s) (m_multiThread s)
    (m_coordsbuffer s) (g_painter s) (calls s).

Definition setCurrentPool (p : PoolPtr) (s : World) : World :=
  mkWorld (heap s) (m_pools s) p (T_CURRENT_POOL s) (m_multiThread s)
    (m_coordsbuffer s) (g_painter s) (calls s).

Definition setThreadPool (tid : ThreadId) (p : PoolPtr) (s : World) : World :=
  mkWorld (heap s) (m_pools s) (m_currentPool s)
    (fun t => if Nat.eqb t tid then p else T_CURRENT_POOL s t) (m_multiThread s)
    (m_coordsbuffer s) (g_painter s) (calls s).

Definition setCoordsbuffer (c : CoordsBuffer) (s : World) : World :=
  mkWorld (heap s) (m_pools s) (m_currentPool s) (T_CURRENT_POOL s) (m_multiThread s)
    c (g_painter s) (calls s).

(** A call to a collaborator: recorded, and the painter reacts to it. *)
Definition emit (c : Call) (s : World) : World :=
  mkWorld (heap s) (m_pools s) (m_currentPool s) (T_CURRENT_POOL s) (m_multiThread s)
    (m_coordsbuffer s) (painterEffect c (g_painter s)) (calls s ++ [c]).

Definition emitOpt (mk : ActionId -> Call) (h : option ActionId) (s : World) : World :=
  match h with Some a => emit (mk a) s | None => s end.

(** [*ptr = pool] for a pointer known to be valid. *)
Definition store (a : nat) (pool : Pool) (s : World) : World :=
  setHeap (<[a := pool]> (heap s)) s.

(** Modelled from the spec: [multiThreadEnabled] (declared in the class,
    not among the sources) reads the flag set at startup. *)
Definition multiThreadEnabled (s : World) : bool := m_multiThread s.

Definition isOnThread (tid : ThreadId) (s : World) : bool :=
  match T_CURRENT_POOL s tid with Some _ => true | None => false end.

Definition getCurrentPool (tid : ThreadId) (s : World) : PoolPtr :=
  if m_multiThread s then T_CURRENT_POOL s tid else m_currentPool s.

Definition terminate (tid : ThreadId) (s : World) : World :=
  setPools (fun _ => None) (setCurrentPool None (setThreadPool tid None s)).

Definition createPool (type : PoolType) (s : World) : nat * World :=
  let a := length (heap s) in
  (a, setPools (fun t => if PoolType_eqb t type then Some a else m_pools s t)
        (setHeap (heap s ++ [mkPool _ [] None]) s)).

(** [fb] is the object [g_framebuffers.createFrameBuffer(true)] returns.
    The new pool is the object [std::make_shared<PoolFramed>()] yields,
    [newPoolFramed], with [m_framebuffer] assigned; its list of objects is
    empty, as that of the pool of [createPool]. *)
Definition createPoolF (type : PoolType) (fb : FrameBuffer) (s : World) : nat * World :=
  let fb' :=
    if PoolType_eqb type MAP then disableBlend fb
    else if PoolType_eqb type MAP then setCompositionMode CompositionMode_Light fb
    else fb in
  let pool := mkPool _ [] (Some (setFramebuffer fb' newPoolFramed)) in
  let a := length (heap s) in
  (a, setPools (fun t => if PoolType_eqb t type then Some a else m_pools s t)
        (setHeap (heap s ++ [pool]) s)).

(** Modelled from the spec: [PoolFramed::updateHash] folds the texture and
    the method into the running hash. *)
Definition updateHash (texture : TexturePtr) (method : DrawMethod) (pf : PoolFramed) : PoolFramed :=
  setStatus (fst (m_status pf), hashFold (snd (m_status pf)) texture method) pf.

(** [if(getCurrentPool()->isFramed()) poolFramed()->updateHash(texture, method)] *)
Definition updateHashIfFramed (texture : TexturePtr) (method : DrawMethod) (pool : Pool) : Pool :=
  match m_framed pool with
  | Some pf => mkPool _ (m_objects pool) (Some (updateHash texture method pf))
  | None => pool
  end.

Definition newObject (st : PainterState) (cb : option CoordsBuffer) (mode : DrawMode)
    (method : DrawMethod) : DrawObject :=
  mkDrawObject _ st cb mode [method] None.

Definition push_back (method : DrawMethod) (obj : DrawObject) : DrawObject :=
  mkDrawObject _ (state obj) (coordsBuffer obj) (drawMode obj)
    (drawMethods obj ++ [method]) (action obj).

Definition setDrawMethods (ms : list DrawMethod) (obj : DrawObject) : DrawObject :=
  mkDrawObject _ (state obj) (coordsBuffer obj) (drawMode obj) ms (action obj).

Definition setDrawMode (mode : DrawMode) (obj : DrawObject) : DrawObject :=
  mkDrawObject _ (state obj) (coordsBuffer obj) mode (drawMethods obj) (action obj).

(** [std::find_if] followed by [push_back] on the object found. *)
Fixpoint appendToFirst (p : DrawObject -> bool) (method : DrawMethod)
    (objs : list DrawObject) : option (list DrawObject) :=
  match objs with
  | [] => None
  | o :: os =>
      if p o then Some (push_back method o :: os)
      else cons o <$> appendToFirst p method os
  end.

Definition addRepeated (tid : ThreadId) (texture : TexturePtr) (method : DrawMethod)
    (drawMode : DrawMode) (s : World) : option World :=
  let currentState := setTexture (g_painter s) texture in
  a ← getCurrentPool tid s;
  pool ← heap s !! a;
  match appendToFirst (fun o => PainterState_eqb (state o) currentState) method (m_objects pool) with
  | Some objs => Some (store a (setObjects objs pool) s)
  | None =>
      Some (store a (setObjects (m_objects pool ++ [newObject currentState None drawMode method]) pool) s)
  end.

(** The condition under which [add] erases a method of the last object:
    [prevMtd.dest == method.dest && (sameState && prevMtd.rects.second ==
    method.rects.second || texture->isOpaque() &&
    prevObj->state.texture->canSuperimposed())], with the short-circuit
    order of evaluation. *)
Definition occludes (sameState : bool) (texture : TexturePtr) (prevObj : DrawObject)
    (method prevMtd : DrawMethod) : option bool :=
  if Point_eqb (dest prevMtd) (dest method) then
    if sameState && Rect_eqb (snd (rects prevMtd)) (snd (rects method)) then Some true
    else
      t ← texture;
      if tex_isOpaque t then
        pt ← Painter.texture (state prevObj); Some (tex_canSuperimposed pt)
      else Some false
  else Some false.

(** The same condition as a boolean, for two textures that are not null. *)
Definition occludesWith (sameState : bool) (t pt : Texture) (method prevMtd : DrawMethod)
    : bool :=
  Point_eqb (dest prevMtd) (dest method)
  && (sameState && Rect_eqb (snd (rects prevMtd)) (snd (rects method))
      || tex_isOpaque t && tex_canSuperimposed pt).

(** The loop over [prevObj->drawMethods]: erase the first method the test
    accepts and leave the loop. *)
Fixpoint eraseOccluded (test : DrawMethod -> option bool) (ms : list DrawMethod)
    : option (list DrawMethod) :=
  match ms with
  | [] => Some []
  | m :: rest =>
      match test m with
      | None => None
      | Some true => Some rest
      | Some false => cons m <$> eraseOccluded test rest
      end
  end.

Definition add (tid : ThreadId) (texture : TexturePtr) (method : DrawMethod)
    (drawMode : DrawMode) (s : World) : option World :=
  let currentState := setTexture (g_painter s) texture in
  a ← getCurrentPool tid s;
  pool0 ← heap s !! a;
  let pool := updateHashIfFramed texture method pool0 in
  objs ← match split_last (m_objects pool) with
         | Some (front, prevObj) =>
             let sameState := PainterState_eqb (state prevObj) currentState in
             let hasDest := negb (Point_isNull (dest method)) in
             kept ← (if hasDest
                     then eraseOccluded (occludes sameState texture prevObj method)
                            (drawMethods prevObj)
                     else Some (drawMethods prevObj));
             if sameState then
               Some (front ++ [push_back method (setDrawMode Triangles (setDrawMethods kept prevObj))])
             else
               Some (front ++ [setDrawMethods kept prevObj]
                       ++ [newObject currentState None drawMode method])
         | None => Some [newObject currentState None drawMode method]
         end;
  Some (store a (setObjects objs pool) s).

(** The lambda [addCoords] of [drawObject]: the geometry of every method of
    the object, appended to [coords]. *)
Definition addCoords (obj : DrawObject) (coords : CoordsBuffer) : CoordsBuffer :=
  fold_left
    (fun c method =>
       match type method with
       | DRAW_BOUNDING_RECT =>
           c ++ [addBoudingRect (fst (rects method)) (intValue method)]
       | DRAW_FILLED_RECT | DRAW_REPEATED_FILLED_RECT =>
           c ++ [addRect (fst (rects method))]
       | DRAW_FILLED_TRIANGLE =>
           let '(p0, p1, p2) := points method in c ++ [addTriangle p0 p1 p2]
       | DRAW_TEXTURED_RECT | DRAW_REPEATED_TEXTURED_RECT =>
           match drawMode obj with
           | Triangles => c ++ [addRectSrc (fst (rects method)) (snd (rects method))]
           | _ => c ++ [addQuad (fst (rects method)) (snd (rects method))]
           end
       | DRAW_UPSIDEDOWN_TEXTURED_RECT =>
           match drawMode obj with
           | Triangles => c ++ [addUpsideDownRect (fst (rects method)) (snd (rects method))]
           | _ => c ++ [addUpsideDownQuad (fst (rects method)) (snd (rects method))]
           end
       | DRAW_FILL_COORDS | DRAW_TEXTURE_COORDS => c
       end)
    (drawMethods obj) coords.

Definition setCoordsBufferOf (cb : option CoordsBuffer) (obj : DrawObject) : DrawObject :=
  mkDrawObject _ (state obj) cb (drawMode obj) (drawMethods obj) (action obj).

(** [drawObject]: on a population thread the geometry is cached in the
    object and nothing is drawn; otherwise the object is replayed. *)
Definition drawObject (tid : ThreadId) (obj : DrawObject) (s : World) : DrawObject * World :=
  if isOnThread tid s then
    match coordsBuffer obj with
    | None => (setCoordsBufferOf (Some (addCoords obj [])) obj, s)
    | Some _ => (obj, s)
    end
  else
    match action obj with
    | Some a => (obj, emit (RunAction a) s)
    | None =>
        match drawMethods obj with
        | [] => (obj, s)
        | _ :: _ =>
            let s1 := emit (SetTexture (texture (state obj))) (emit (ExecuteState (state obj)) s) in
            match coordsBuffer obj with
            | Some cb => (obj, emit (DrawCoords cb (drawMode obj)) s1)
            | None =>
                let coords := addCoords obj (m_coordsbuffer s1) in
                (obj, setCoordsbuffer [] (emit (DrawCoords coords (drawMode obj)) s1))
            end
        end
    end.

(** The loop calling [drawObject] on every object of a list, in order. *)
Fixpoint drawObjects (tid : ThreadId) (objs : list DrawObject) (s : World)
    : list DrawObject * World :=
  match objs with
  | [] => ([], s)
  | o :: os =>
      let '(o', s1) := drawObject tid o s in
      let '(os', s2) := drawObjects tid os s1 in
      (o' :: os', s2)
  end.

(** [for(const auto& pool : m_pools) body(pool)] *)
Fixpoint forEachPool (body : PoolPtr -> World -> option World) (types : list PoolType)
    (s : World) : option World :=
  match types with
  | [] => Some s
  | t :: ts => s' ← body (m_pools s t) s; forEachPool body ts s'
  end.

(** [pool->join()] *)
Definition join (ptr : PoolPtr) (s : World) : option World :=
  a ← ptr; _ ← heap s !! a; Some (emit (Join a) s).

(** [pool->m_objects.clear()] for a pointer known to be valid. *)
Definition clearObjects (a : nat) (s : World) : World :=
  match heap s !! a with
  | Some pool => store a (setObjects [] pool) s
  | None => s
  end.

(** The body of the second loop of [draw]. *)
Definition drawPool (tid : ThreadId) (ptr : PoolPtr) (s : World) : option World :=
  a ← ptr;
  pool ← heap s !! a;
  let s1 :=
    match m_framed pool with
    | Some pf =>
        let frameBuffer := m_framebuffer pf in
        if fb_isDrawable frameBuffer then
          let s := emit SaveAndResetState s in
          let s :=
            if hasModification pf then
              let s := store a (mkPool _ (m_objects pool) (Some (updateStatus pf))) s in
              let s := emit (FbBind (fb_id frameBuffer)) s in
              let '(objs, s) := drawObjects tid (m_objects pool) s in
              let s := store a (mkPool _ objs (Some (updateStatus pf))) s in
              emit (FbRelease (fb_id frameBuffer)) s
            else s in
          let s := emitOpt BeforeDraw (m_beforeDraw pf) s in
          let s := emit (FbDraw (fb_id frameBuffer) (m_dest pf) (m_src pf)) s in
          let s := emitOpt AfterDraw (m_afterDraw pf) s in
          emit RestoreSavedState s
        else s
    | None =>
        let '(objs, s) := drawObjects tid (m_objects pool) s in
        clearObjects a (store a (setObjects objs pool) s)
    end in
  Some (clearObjects a s1).

Definition draw (tid : ThreadId) (s : World) : option World :=
  s1 ← (if multiThreadEnabled s then forEachPool join PoolType_all s else Some s);
  forEachPool (drawPool tid) PoolType_all s1.

(** A run of [add] calls with one texture and one topology. *)
Fixpoint addAll (tid : ThreadId) (texture : TexturePtr) (drawMode : DrawMode)
    (methods : list DrawMethod) (s : World) : option World :=
  match methods with
  | [] => Some s
  | m :: ms => s' ← add tid texture m drawMode s; addAll tid texture drawMode ms s'
  end.

(** The default arguments of [add] and [addRepeated] and of the last
    parameter of [addTexturedRect] come from the class declaration, which is
    not among the sources. *)
Definition drawMode_default : DrawMode := Triangles.

Definition originalDest_default : Point := Point_default.

Definition offThread (tid : ThreadId) (s : World) : bool :=
  multiThreadEnabled s && negb (isOnThread tid s).

Definition addFillCoords (tid : ThreadId) (coordsBuffer : CoordsBuffer) (s : World)
    : option World :=
  if offThread tid s then Some s else
  let method :=
    mkDrawMethod DRAW_FILL_COORDS (Rect_default, Rect_default)
      (Point_default, Point_default, Point_default) Point_default
      (getVertexHash coordsBuffer) in
  let action := newObject (g_painter s) (Some coordsBuffer) Triangles method in
  a ← getCurrentPool tid s;
  pool ← heap s !! a;
  let pool := updateHashIfFramed None method pool in
  Some (store a (setObjects (m_objects pool ++ [action]) pool) s).

Definition addTextureCoords (tid : ThreadId) (coordsBuffer : CoordsBuffer)
    (texture : TexturePtr) (drawMode : DrawMode) (s : World) : option World :=
  if offThread tid s then Some s else
  if match texture with Some t => tex_isEmpty t | None => false end then Some s else
  let method :=
    mkDrawMethod DRAW_TEXTURE_COORDS (Rect_default, Rect_default)
      (Point_default, Point_default, Point_default) Point_default
      (getVertexHash coordsBuffer) in
  let currentState := setTexture (g_painter s) texture in
  let action := newObject currentState (Some coordsBuffer) drawMode method in
  a ← getCurrentPool tid s;
  pool ← heap s !! a;
  let pool := updateHashIfFramed texture method pool in
  Some (store a (setObjects (m_objects pool ++ [action]) pool) s).

Definition withRects (dst src : Rect) (m : DrawMethod) : DrawMethod :=
  mkDrawMethod (type m) (dst, src) (points m) (dest m) (intValue m).

Definition withDest (d : Point) (m : DrawMethod) : DrawMethod :=
  mkDrawMethod (type m) (rects m) (points m) d (intValue m).

Definition withPoints (a b c : Point) (m : DrawMethod) : DrawMethod :=
  mkDrawMethod (type m) (rects m) (a, b, c) (dest m) (intValue m).

Definition withIntValue (v : Z) (m : DrawMethod) : DrawMethod :=
  mkDrawMethod (type m) (rects m) (points m) (dest m) v.

(** [addTexturedRect(dest, texture, src, originalDest)] *)
Definition addTexturedRect (tid : ThreadId) (dst : Rect) (texture : TexturePtr) (src : Rect)
    (originalDest : Point) (s : World) : option World :=
  if offThread tid s then Some s else
  if Rect_isEmpty dst then Some s else
  if Rect_isEmpty src then Some s else
  t ← texture;
  if tex_isEmpty t then Some s else
  let method := withDest originalDest (withRects dst src (DrawMethod_init DRAW_TEXTURED_RECT)) in
  add tid texture method TriangleStrip s.

(** [addTexturedRect(dest, texture)] *)
Definition addTexturedRect_whole (tid : ThreadId) (dst : Rect) (texture : TexturePtr)
    (s : World) : option World :=
  t ← texture;
  addTexturedRect tid dst texture (Rect_make Point_default (tex_size t))
    originalDest_default s.

Definition addUpsideDownTexturedRect (tid : ThreadId) (dst : Rect) (texture : TexturePtr)
    (src : Rect) (s : World) : option World :=
  if offThread tid s then Some s else
  if Rect_isEmpty dst then Some s else
  if Rect_isEmpty src then Some s else
  t ← texture;
  if tex_isEmpty t then Some s else
  let method := withRects dst src (DrawMethod_init DRAW_UPSIDEDOWN_TEXTURED_RECT) in
  add tid texture method TriangleStrip s.

(** [addRepeatedTexturedRect(dest, texture, src)] *)
Definition addRepeatedTexturedRect (tid : ThreadId) (dst : Rect) (texture : TexturePtr)
    (src : Rect) (s : World) : option World :=
  if offThread tid s then Some s else
  if Rect_isEmpty dst then Some s else
  if Rect_isEmpty src then Some s else
  t ← texture;
  if tex_isEmpty t then Some s else
  let method := withRects dst src (DrawMethod_init DRAW_REPEATED_TEXTURED_RECT) in
  addRepeated tid texture method drawMode_default s.

(** [addRepeatedTexturedRect(dest, texture)] *)
Definition addRepeatedTexturedRect_whole (tid : ThreadId) (dst : Rect) (texture : TexturePtr)
    (s : World) : option World :=
  if offThread tid s then Some s else
  t ← texture;
  addRepeatedTexturedRect tid dst texture (Rect_make Point_default (tex_size t)) s.

Definition addRepeatedFilledRect (tid : ThreadId) (dst : Rect) (s : World) : option World :=
  if offThread tid s then Some s else
  if Rect_isEmpty dst then Some s else
  let method := withRects dst Rect_default (DrawMethod_init DRAW_REPEATED_FILLED_RECT) in
  addRepeated tid None method drawMode_default s.

Definition addFilledRect (tid : ThreadId) (dst : Rect) (s : World) : option World :=
  if offThread tid s then Some s else
  if Rect_isEmpty dst then Some s else
  let method := withRects dst Rect_default (DrawMethod_init DRAW_FILLED_RECT) in
  add tid None method drawMode_default s.

Definition addFilledTriangle (tid : ThreadId) (a b c : Point) (s : World) : option World :=
  if offThread tid s then Some s else
  if Point_eqb a b || Point_eqb a c || Point_eqb b c then Some s else
  let method := withPoints a b c (DrawMethod_init DRAW_FILLED_TRIANGLE) in
  add tid None method drawMode_default s.

Definition addBoundingRect (tid : ThreadId) (dst : Rect) (innerLineWidth : Z) (s : World)
    : option World :=
  if offThread tid s then Some s else
  if Rect_isEmpty dst || (innerLineWidth =? 0) then Some s else
  let method :=
    withIntValue innerLineWidth
      (withRects dst Rect_default (DrawMethod_init DRAW_BOUNDING_RECT)) in
  add tid None method drawMode_default s.

Definition addAction (tid : ThreadId) (action : ActionId) (s : World) : option World :=
  if offThread tid s then Some s else
  a ← getCurrentPool tid s;
  pool ← heap s !! a;
  Some (store a
          (setObjects
             (m_objects pool
                ++ [mkDrawObject _ PainterState_default None DrawMode_None [] (Some action)])
             pool) s).

(** The closure [link] stores in [pool->m_action], with its captured
    [pool]; [f] is the function that populates the pool.  The first branch
    is the closure's [if(!pool) return;]: [link] below never builds the
    closure with a null pool. *)
Definition linkAction (tid : ThreadId) (pool : PoolPtr) (f : World -> option World)
    (s : World) : option World :=
  let s := if m_multiThread s then setThreadPool tid pool s else setCurrentPool pool s in
  match pool with
  | None => Some s
  | Some a =>
      p ← heap s !! a;
      s ← (if isFramed p then
             cur ← getCurrentPool tid s;
             cp ← heap s !! cur;
             pf ← m_framed cp;
             Some (store cur (mkPool _ (m_objects cp) (Some (resetCurrentStatus pf))) s)
           else Some s);
      s ← f s;
      p ← heap s !! a;
      let '(objs, s) := drawObjects tid (m_objects p) s in
      Some (setThreadPool tid None (setCurrentPool None (store a (setObjects objs p) s)))
  end.

(** [link] reads through [pool] ([pool->m_objects], [pool->m_action])
    before the closure exists: a null pool is a null dereference.  The
    closure it assigns to [pool->m_action] is returned instead of being kept
    in the store; it is run later, by the thread given to it, on the registry
    as it is then. *)
Definition link (pool : PoolPtr) (f : World -> option World) (s : World)
    : option (ThreadId -> World -> option World) :=
  a ← pool;
  _ ← heap s !! a;
  Some (fun tid => linkAction tid pool f).

(** What replaying one object asks of the painter on the thread that owns
    the registry, with the scratch buffer [m_coordsbuffer] empty. *)
Definition replayOf (obj : DrawObject) : list Call :=
  match action obj with
  | Some a => [RunAction a]
  | None =>
      match drawMethods obj with
      | [] => []
      | _ :: _ =>
          [ ExecuteState (state obj);
            SetTexture (texture (state obj));
            DrawCoords
              (match coordsBuffer obj with Some cb => cb | None => addCoords obj [] end)
              (drawMode obj) ]
      end
  end.

Definition hookCalls (mk : ActionId -> Call) (h : option ActionId) : list Call :=
  match h with Some a => [mk a] | None => [] end.

Definition emitAll (cs : list Call) (s : World) : World :=
  fold_left (fun s c => emit c s) cs s.

(** The objects of the pool at [a] after a call that may have failed. *)
Definition objectsAt (a : nat) (r : option World) : option (list DrawObject) :=
  s ← r; pool ← heap s !! a; Some (m_objects pool).

(** The framed part of the pool at [a] after a call that may have failed. *)
Definition framedAt (a : nat) (r : option World) : option PoolFramed :=
  s ← r; pool ← heap s !! a; m_framed pool.

End Registry.

End DrawPool.

(** ** The light view *)

Module LightView.

(** The floating-point computations of [LightView::draw] and the colour
    class are a parameter: [light.intensity / 6.f], [std::min<float>],
    [Color::from8bit], and the conversions to [int] of [m_tileSize * 1.8]
    and [m_tileSize * 3.3]. *)
Class FloatModel := {
  float : Type;
  Color : Type;
  Color_from8bit : Z -> float -> Color;
  fmin : float -> float -> float;
  intensityOver6 : Z -> float;
  tileTimes1_8 : Z -> Z;
  tileTimes3_3 : Z -> Z
}.

Definition to_uint16 (x : Z) : Z := x mod 65536.

Definition to_uint8 (x : Z) : Z := x mod 256.

(** Modelled from the spec: [Light] carries an 8-bit colour and an 8-bit
    intensity. *)
Record Light := mkLight { light_intensity : Z; light_color : Z }.

Definition Light_wf (l : Light) : Prop :=
  0 <= light_intensity l < 256 /\ 0 <= light_color l < 256.

Inductive LightTexture := LightTextureSprite | ShadeTextureSprite.

Section View.
Context `{FloatModel}.

(** Modelled from the spec: a light source has a position, a colour (0 for
    a shadow marker), a 16-bit intensity and the opacity captured when it
    was added. *)
Record LightSource := mkLightSource {
  pos : Point;
  color : Z;
  intensity : Z;
  opacity : float
}.

(** The part of the framed pool [m_pool] points to that the light view
    reads or writes. *)
Record LightPool := mkLightPool {
  pool_type : PoolType;
  pool_enabled : bool;
  pool_smooth : bool;
  pool_size : Size
}.

Record State := mkState {
  m_pool : LightPool;
  m_isDark : bool;
  m_tileSize : Z;
  m_globalLightColor : Color;
  m_sources : list LightSource
}.

(** Calls made on [g_drawPool], in the order made. *)
Inductive PoolCall :=
| Use (type : PoolType) (dst src : Rect) (c : Color)
| AddTexturedRect (dst : Rect) (tex : LightTexture) (c : Color)
| SetBlendEquationMax
| Flush
| SetOpacity (o : float)
| ResetOpacity.

(** Modelled from the spec: [isDark] reads the darkness flag. *)
Definition isDark (lv : State) : bool := m_isDark lv.

Definition setSources (l : list LightSource) (lv : State) : State :=
  mkState (m_pool lv) (m_isDark lv) (m_tileSize lv) (m_globalLightColor lv) l.

Definition setPool (p : LightPool) (lv : State) : State :=
  mkState p (m_isDark lv) (m_tileSize lv) (m_globalLightColor lv) (m_sources lv).

Definition setSmooth (enabled : bool) (lv : State) : State :=
  let p := m_pool lv in
  setPool (mkLightPool (pool_type p) (pool_enabled p) enabled (pool_size p)) lv.

(** The parameter is a [uint8_t]: the value the caller passes arrives
    reduced to eight bits, and that is what [m_tileSize] is assigned and the
    size multiplied by. *)
Definition resize (size : Size) (tileSize : Z) (lv : State) : State :=
  let p := m_pool lv in
  let tileSize := to_uint8 tileSize in
  mkState
    (mkLightPool (pool_type p) (pool_enabled p) (pool_smooth p)
       (mkSize (wd size * tileSize) (ht size * tileSize)))
    (m_isDark lv) tileSize (m_globalLightColor lv) (m_sources lv).

(** [m_pool->setEnable(b)] *)
Definition setEnable (b : bool) (lv : State) : State :=
  let p := m_pool lv in
  setPool (mkLightPool (pool_type p) b (pool_smooth p) (pool_size p)) lv.

Definition setIntensity (i : Z) (l : LightSource) : LightSource :=
  mkLightSource (pos l) (color l) i (opacity l).

(** [addLightSource]; [op] is the value of [g_drawPool.getOpacity()]. *)
Definition addLightSource (p : Point) (light : Light) (op : float) (lv : State) : State :=
  if negb (isDark lv) then lv else
  let append :=
    setSources
      (m_sources lv ++ [mkLightSource p (light_color light) (light_intensity light) op]) lv in
  match split_last (m_sources lv) with
  | Some (front, prevLight) =>
      if Point_eqb (pos prevLight) p && (color prevLight =? light_color light) then
        setSources
          (front ++ [setIntensity
                       (Z.max (to_uint16 (intensity prevLight))
                              (to_uint16 (light_intensity light)))
                       prevLight]) lv
      else append
  | None => append
  end.

(** The loop of [draw] over the sources; [clr] is the local [_clr]. *)
Fixpoint drawSources (tileSize : Z) (globalLightColor : Color) (clr : bool)
    (sources : list LightSource) : list PoolCall :=
  match sources with
  | [] => []
  | light :: rest =>
      if negb (color light =? 0) then
        let c := Color_from8bit (color light)
                   (fmin (opacity light) (intensityOver6 (intensity light))) in
        let radius := to_uint16 (intensity light * tileSize) in
        [ AddTexturedRect
            (Rect_make (Point_sub (pos light) radius) (mkSize (radius * 2) (radius * 2)))
            LightTextureSprite c;
          SetBlendEquationMax ]
        ++ drawSources tileSize globalLightColor true rest
      else
        (if clr then [Flush] else [])
        ++ [ SetOpacity (opacity light);
             AddTexturedRect
               (Rect_make (Point_sub (pos light) (tileTimes1_8 tileSize))
                  (mkSize (tileTimes3_3 tileSize) (tileTimes3_3 tileSize)))
               ShadeTextureSprite globalLightColor;
             ResetOpacity ]
        ++ drawSources tileSize globalLightColor false rest
  end.

Definition draw (dst src : Rect) (lv : State) : State * list PoolCall :=
  let lv1 := setEnable (isDark lv) lv in
  if negb (isDark lv1) then (lv1, []) else
  let out :=
    Use (pool_type (m_pool lv1)) dst src (m_globalLightColor lv1)
    :: drawSources (m_tileSize lv1) (m_globalLightColor lv1) true (m_sources lv1) in
  (setSources [] lv1, out).

End View.

End LightView.

(** ** Sample collaborators and inputs *)

Module Sample.

Definition painter : PainterModel := Build_PainterModel Z Z.eqb 0.

#[local] Existing Instance painter.

Definition collab : Collaborators :=
  Build_Collaborators painter
    (fun c st => match c with ExecuteState st' => st' | _ => st end)
    (fun h t m =>
       31 * h + match t with Some x => Z.of_nat (tex_id x) | None => 0 end
       + x1 (fst (rects m)) + intValue m + 1)
    (fun cb => Z.of_nat (length cb))
    (mkPoolFramed (mkFrameBuffer 0 false true CompositionMode_Normal) (0, 0)
       Rect_default Rect_default None None).

#[local] Existing Instance collab.

Definition mainThread : ThreadId := 0%nat.

Definition texA : Texture := mkTexture 1 (mkSize 64 64) false false true.
Definition texB : Texture := mkTexture 2 (mkSize 64 64) false true true.
Definition texEmpty : Texture := mkTexture 3 (mkSize 0 0) true false false.

Definition tile : Rect := mkRect 0 0 31 31.
Definition srcLeft : Rect := mkRect 0 0 31 31.
Definition srcRight : Rect := mkRect 32 0 63 31.
Definition at55 : Point := mkPoint 5 5.

Definition texturedAt (src : Rect) (d : Point) : DrawMethod :=
  mkDrawMethod DRAW_TEXTURED_RECT (tile, src)
    (Point_default, Point_default, Point_default) d 0.

Definition stateOf (t : Texture) : PainterState := mkPainterState _ 0 (Some t).

Definition objectOf (t : Texture) (ms : list DrawMethod) : DrawObject :=
  mkDrawObject _ (stateOf t) None TriangleStrip ms None.

Definition frameBuffer0 : FrameBuffer := mkFrameBuffer 7 true true CompositionMode_Normal.

Definition framedPart (st : Z * Z) : PoolFramed :=
  mkPoolFramed frameBuffer0 st tile tile (Some 1%nat) None.

Definition mLeft : DrawMethod := texturedAt srcLeft at55.
Definition mRight : DrawMethod := texturedAt srcRight at55.

(** A plain pool with one object of one method, one with one object of two
    methods at the same destination, and a framed pool whose running hash
    is, or is not, the committed one. *)
Definition poolOne : Pool := mkPool _ [objectOf texA [mLeft]] None.
Definition poolTwo : Pool := mkPool _ [objectOf texA [mLeft; mRight]] None.
Definition poolClean : Pool := mkPool _ [objectOf texA [mLeft]] (Some (framedPart (5, 5))).
Definition poolDirty : Pool := mkPool _ [objectOf texA [mLeft]] (Some (framedPart (5, 9))).

(** A plain pool whose one object has no texture: a filled rectangle, as
    [addFilledRect] leaves it. *)
Definition filledTile : DrawMethod :=
  mkDrawMethod DRAW_FILLED_RECT (tile, Rect_default)
    (Point_default, Point_default, Point_default) Point_default 0.

Definition filledObject : DrawObject :=
  mkDrawObject _ (mkPainterState _ 0 None) None Triangles [filledTile] None.

Definition poolFilled : Pool := mkPool _ [filledObject] None.

(** A registry whose current pool is pool 0 (single-threaded) and which
    owns [pools]. *)
Definition world (pools : list Pool) : DrawPool.World :=
  DrawPool.mkWorld pools (fun _ => Some 0%nat) (Some 0%nat) (fun _ => None) false []
    (mkPainterState _ 0 None) [].

(** The same registry in multithreaded mode, seen from a thread that does
    not populate any pool. *)
Definition worldOffThread (pools : list Pool) : DrawPool.World :=
  DrawPool.mkWorld pools (fun _ => Some 0%nat) (Some 0%nat) (fun _ => None) true []
    (mkPainterState _ 0 None) [].

Definition floats : LightView.FloatModel :=
  LightView.Build_FloatModel Z Z (fun c a => c * 1000 + a) Z.min (fun i => i * 1000 / 6)
    (fun t => t * 18 / 10) (fun t => t * 33 / 10).

#[local] Existing Instance floats.

Definition lightPool : LightView.LightPool :=
  LightView.mkLightPool LIGHT true false (mkSize 480 352).

Definition opacity1 : LightView.float := 1000.

Definition stale : LightView.LightSource := LightView.mkLightSource at55 5 3 opacity1.

Definition view (dark : bool) (sources : list LightView.LightSource) : LightView.State :=
  LightView.mkState lightPool dark 32 215 sources.

End Sample.

(** ** Requests and observations *)

Module Observe.

Section Registry.
Context `{Collaborators}.
Import DrawPool.

(** The calls a client can make to populate the current pool, with their
    arguments. *)
Inductive Request :=
| FillCoords (coordsBuffer : CoordsBuffer)
| TextureCoords (coordsBuffer : CoordsBuffer) (texture : TexturePtr) (drawMode : DrawMode)
| TexturedRect (dst : Rect) (texture : TexturePtr) (src : Rect) (originalDest : Point)
| TexturedRectWhole (dst : Rect) (texture : TexturePtr)
| UpsideDownTexturedRect (dst : Rect) (texture : TexturePtr) (src : Rect)
| RepeatedTexturedRect (dst : Rect) (texture : TexturePtr) (src : Rect)
| RepeatedTexturedRectWhole (dst : Rect) (texture : TexturePtr)
| RepeatedFilledRect (dst : Rect)
| FilledRect (dst : Rect)
| FilledTriangle (a b c : Point)
| BoundingRect (dst : Rect) (innerLineWidth : Z)
| Action (action : ActionId).

Definition perform (tid : ThreadId) (r : Request) (s : World) : option World :=
  match r with
  | FillCoords cb => addFillCoords tid cb s
  | TextureCoords cb t m => addTextureCoords tid cb t m s
  | TexturedRect d t sr od => addTexturedRect tid d t sr od s
  | TexturedRectWhole d t => addTexturedRect_whole tid d t s
  | UpsideDownTexturedRect d t sr => addUpsideDownTexturedRect tid d t sr s
  | RepeatedTexturedRect d t sr => addRepeatedTexturedRect tid d t sr s
  | RepeatedTexturedRectWhole d t => addRepeatedTexturedRect_whole tid d t s
  | RepeatedFilledRect d => addRepeatedFilledRect tid d s
  | FilledRect d => addFilledRect tid d s
  | FilledTriangle a b c => addFilledTriangle tid a b c s
  | BoundingRect d w => addBoundingRect tid d w s
  | Action a => addAction tid a s
  end.

(** Everything of the registry but the store of pool objects. *)
Definition sameRegistry (s s' : World) : Prop :=
  calls s' = calls s
  /\ g_painter s' = g_painter s
  /\ m_pools s' = m_pools s
  /\ m_currentPool s' = m_currentPool s
  /\ T_CURRENT_POOL s' = T_CURRENT_POOL s
  /\ m_multiThread s' = m_multiThread s
  /\ m_coordsbuffer s' = m_coordsbuffer s
  /\ length (heap s') = length (heap s).

(** A run of [add] calls, each with its texture, method and topology. *)
Fixpoint addEach (tid : ThreadId) (items : list (TexturePtr * DrawMethod * DrawMode))
    (s : World) : option World :=
  match items with
  | [] => Some s
  | (texture, method, drawMode) :: rest =>
      s' ← add tid texture method drawMode s; addEach tid rest s'
  end.

(** The hash a framed pool reaches from [h] when the items are folded into
    it in order. *)
Definition hashRun (items : list (TexturePtr * DrawMethod * DrawMode)) (h : Z) : Z :=
  fold_left (fun h item => hashFold h (fst (fst item)) (snd (fst item))) items h.

(** The methods [addCoords] turns into geometry. *)
Definition drawsGeometry (m : DrawMethod) : bool :=
  match type m with
  | DRAW_FILL_COORDS | DRAW_TEXTURE_COORDS => false
  | _ => true
  end.

(** The geometry of one method under a topology. *)
Definition methodCoords (mode : DrawMode) (method : DrawMethod) : list CoordsOp :=
  match type method with
  | DRAW_BOUNDING_RECT => [addBoudingRect (fst (rects method)) (intValue method)]
  | DRAW_FILLED_RECT | DRAW_REPEATED_FILLED_RECT => [addRect (fst (rects method))]
  | DRAW_FILLED_TRIANGLE =>
      [addTriangle (fst (fst (points method))) (snd (fst (points method)))
         (snd (points method))]
  | DRAW_TEXTURED_RECT | DRAW_REPEATED_TEXTURED_RECT =>
      match mode with
      | Triangles => [addRectSrc (fst (rects method)) (snd (rects method))]
      | _ => [addQuad (fst (rects method)) (snd (rects method))]
      end
  | DRAW_UPSIDEDOWN_TEXTURED_RECT =>
      match mode with
      | Triangles => [addUpsideDownRect (fst (rects method)) (snd (rects method))]
      | _ => [addUpsideDownQuad (fst (rects method)) (snd (rects method))]
      end
  | DRAW_FILL_COORDS | DRAW_TEXTURE_COORDS => []
  end.

Definition isQuad (op : CoordsOp) : bool :=
  match op with
  | addQuad _ _ | addUpsideDownQuad _ _ => true
  | _ => false
  end.

(** The number of methods a pool holds, over all its objects. *)
Definition methodCount (pool : Pool) : nat :=
  length (concat (drawMethods <$> m_objects pool)).

(** No item of a run has the state of the item before it; [prev] is the
    state of the object the run starts after, if there is one, and [g] the
    painter state during the run. *)
Fixpoint alternating (g : PainterState) (prev : option PainterState)
    (items : list (TexturePtr * DrawMethod * DrawMode)) : bool :=
  match items with
  | [] => true
  | (t, _, _) :: rest =>
      match prev with
      | Some st => negb (PainterState_eqb st (setTexture g t))
      | None => true
      end && alternating g (Some (setTexture g t)) rest
  end.

(** Every slot of [m_pools] points to a pool object of the store. *)
Definition slotsValid (s : World) : Prop :=
  forall t, exists a, m_pools s t = Some a /\ is_Some (heap s !! a).

(** The pool object at [a] exists and holds no object. *)
Definition emptyAt (a : nat) (s : World) : Prop :=
  exists pool, heap s !! a = Some pool /\ m_objects pool = [].

Definition isJoin (c : Call) : bool :=
  match c with Join _ => true | _ => false end.

(** [obj.coordsBuffer] once [drawObject] has run on a population thread. *)
Definition cached (obj : DrawObject) : DrawObject :=
  mkDrawObject _ (state obj)
    (Some (match coordsBuffer obj with Some cb => cb | None => addCoords obj [] end))
    (drawMode obj) (drawMethods obj) (action obj).

(** The part of the loop body of [draw] that comes before the final
    [clear]. *)
Definition drawPoolBody (tid : ThreadId) (a : nat) (pool : Pool) (s : World) : World :=
  match m_framed pool with
  | Some pf =>
      let frameBuffer := m_framebuffer pf in
      if fb_isDrawable frameBuffer then
        let s := emit SaveAndResetState s in
        let s :=
          if hasModification pf then
            let s := store a (mkPool _ (m_objects pool) (Some (updateStatus pf))) s in
            let s := emit (FbBind (fb_id frameBuffer)) s in
            let '(objs, s) := drawObjects tid (m_objects pool) s in
            let s := store a (mkPool _ objs (Some (updateStatus pf))) s in
            emit (FbRelease (fb_id frameBuffer)) s
          else s in
        let s := emitOpt BeforeDraw (m_beforeDraw pf) s in
        let s := emit (FbDraw (fb_id frameBuffer) (m_dest pf) (m_src pf)) s in
        let s := emitOpt AfterDraw (m_afterDraw pf) s in
        emit RestoreSavedState s
      else s
  | None =>
      let '(objs, s) := drawObjects tid (m_objects pool) s in
      clearObjects a (store a (setObjects objs pool) s)
  end.

(** One request to create a pool of a type: framed, with the render target
    [createFrameBuffer] returns, or plain. *)
Definition create (type : PoolType) (target : option FrameBuffer) (s : World) : World :=
  match target with
  | Some fb => snd (createPoolF type fb s)
  | None => snd (createPool type s)
  end.

(** A run of such requests, the first of the list first. *)
Fixpoint createEach (reqs : list (PoolType * option FrameBuffer)) (s : World) : World :=
  match reqs with
  | [] => s
  | (type, target) :: rest => createEach rest (create type target s)
  end.

(** The registry as the closure of [link] hands it to the function that
    populates the pool at [a], whose object is [pool] when the closure
    starts: the current-pool pointer of the mode in use points to the pool,
    and the running hash of a framed pool is restarted. *)
Definition populationState (tid : ThreadId) (a : nat) (pool : Pool) (s : World) : World :=
  let s := if m_multiThread s then setThreadPool tid (Some a) s
           else setCurrentPool (Some a) s in
  match m_framed pool with
  | Some pf => store a (mkPool _ (m_objects pool) (Some (resetCurrentStatus pf))) s
  | None => s
  end.

End Registry.

End Observe.

Module ObserveLight.

Section View.
Context `{LightView.FloatModel}.
Import LightView.

(** A source whose colour and intensity fit eight bits, as every source
    built from a [Light] does. *)
Definition fits8 (l : LightSource) : Prop :=
  0 <= intensity l < 256 /\ 0 <= color l < 256.

(** The sprite [draw] uses for a source. *)
Definition spriteOf (l : LightSource) : LightTexture :=
  if color l =? 0 then ShadeTextureSprite else LightTextureSprite.

(** The sprites of the rectangles added by a sequence of calls. *)
Definition sprites (cs : list PoolCall) : list LightTexture :=
  omap (fun c => match c with AddTexturedRect _ tex _ => Some tex | _ => None end) cs.


End View.

End ObserveLight.

(** ** More sample inputs *)

Module Cases.

Import Sample.
#[local] Existing Instance Sample.painter.
#[local] Existing Instance Sample.collab.
#[local] Existing Instance Sample.floats.

Definition plainWorld : DrawPool.World := world [poolOne].
Definition framedWorld : DrawPool.World := world [poolClean].
Definition dirtyWorld : DrawPool.World := world [poolDirty].

(** A registry in multithreaded mode, seen from the thread that populates
    pool 0. *)
Definition workerWorld : DrawPool.World :=
  DrawPool.mkWorld [poolOne] (fun _ => Some 0%nat) None
    (fun t => if Nat.eqb t mainThread then Some 0%nat else None) true []
    (mkPainterState _ 0 None) [].

(** A registry in multithreaded mode with a pool for every type, the light
    pool framed, built with [createPool] and [createPoolF]; seen from a
    thread that populates no pool. *)
Definition emptyRegistry : DrawPool.World :=
  DrawPool.mkWorld [] (fun _ => None) None (fun _ => None) true []
    (mkPainterState _ 0 None) [].

(** The requests that build it. *)
Definition fourPools : list (PoolType * option FrameBuffer) :=
  [(MAP, None); (LIGHT, Some frameBuffer0); (UI, None); (FOREGROUND, None)].

Definition registry : DrawPool.World :=
  snd (DrawPool.createPool FOREGROUND
         (snd (DrawPool.createPool UI
                 (snd (DrawPool.createPoolF LIGHT frameBuffer0
                         (snd (DrawPool.createPool MAP emptyRegistry))))))).

(** A framed pool whose render target cannot be drawn to. *)
Definition poolUndrawable : Pool :=
  mkPool _ [objectOf texA [mLeft]]
    (Some (mkPoolFramed (mkFrameBuffer 7 false true CompositionMode_Normal) (5, 9)
             tile tile None None)).

(** A pool whose only object carries a coordinate buffer. *)
Definition poolCoords : Pool :=
  mkPool _ [mkDrawObject _ (stateOf texA) (Some [addRect tile]) TriangleStrip
              [DrawMethod_init DRAW_TEXTURE_COORDS] None] None.

Definition plainMethod : DrawMethod := texturedAt srcLeft Point_default.

Definition run : list (TexturePtr * DrawMethod * DrawMode) :=
  [(Some texA, mLeft, TriangleStrip); (Some texB, mRight, TriangleStrip)].

(** Two frames of a framed pool: populated with [run], drawn, populated
    with [run] again. *)
Definition frameOne : DrawPool.World :=
  default dirtyWorld
    (DrawPool.linkAction mainThread (Some 0%nat) (Observe.addEach mainThread run) dirtyWorld).

Definition frameOneDrawn : DrawPool.World :=
  default dirtyWorld (DrawPool.drawPool mainThread (Some 0%nat) frameOne).

Definition frameTwo : DrawPool.World :=
  default dirtyWorld
    (DrawPool.linkAction mainThread (Some 0%nat) (Observe.addEach mainThread run)
       frameOneDrawn).

Definition shadow : LightView.LightSource := LightView.mkLightSource at55 0 2 opacity1.

End Cases.

(** * Properties *)

(** ** Sequences *)

Lemma split_last_snoc {A : Type} (l : list A) (x : A) :
  split_last (l ++ [x]) = Some (l, x).
Proof.
  induction l as [|y l IH]; simpl; [reflexivity|].
  rewrite IH. reflexivity.
Qed.

Lemma split_last_nil_inv {A : Type} (l : list A) :
  split_last l = None -> l = [].
Proof.
  destruct l as [|x l]; [reflexivity|]. simpl.
  destruct (split_last l) as [[front y]|]; discriminate.
Qed.

Lemma split_last_Some_inv {A : Type} (l front : list A) (x : A) :
  split_last l = Some (front, x) -> l = front ++ [x].
Proof.
  revert front x. induction l as [|y l IH]; intros front x; simpl; [discriminate|].
  destruct (split_last l) as [[f z]|] eqn:E.
  - intros [= <- <-]. rewrite (IH f z eq_refl). reflexivity.
  - intros [= <- <-]. apply split_last_nil_inv in E. subst l. reflexivity.
Qed.

(** ** Geometry *)

Lemma Point_eqb_eq (a b : Point) : Point_eqb a b = true <-> a = b.
Proof.
  destruct a as [ax ay], b as [bx by_]. unfold Point_eqb. simpl.
  rewrite andb_true_iff, !Z.eqb_eq. split.
  - intros [-> ->]. reflexivity.
  - intros [= -> ->]. split; reflexivity.
Qed.

Lemma Rect_eqb_eq (a b : Rect) : Rect_eqb a b = true <-> a = b.
Proof.
  destruct a, b. unfold Rect_eqb. simpl.
  rewrite !andb_true_iff, !Z.eqb_eq. split.
  - intros [[[-> ->] ->] ->]. reflexivity.
  - intros [= -> -> -> ->]. repeat split; reflexivity.
Qed.

(** Equal rectangles have equal sizes; the converse fails. *)
Lemma Rect_eqb_size (a b : Rect) :
  Rect_eqb a b = true -> Size_eqb (Rect_size a) (Rect_size b) = true.
Proof.
  intros E. apply Rect_eqb_eq in E. subst b.
  unfold Size_eqb. rewrite !Z.eqb_refl. reflexivity.
Qed.

(** ** The registry *)

Section RegistryFacts.
Context `{Collaborators}.
Import DrawPool.

Lemma store_lookup (a : nat) (pool p : Pool) (s : World) :
  heap s !! a = Some pool -> heap (store a p s) !! a = Some p.
Proof.
  intros E. unfold store. simpl. apply list_lookup_insert_eq.
  apply lookup_lt_Some in E. exact E.
Qed.

Lemma occludes_total (sameState : bool) (t pt : Texture) (prevObj : DrawObject)
    (method prevMtd : DrawMethod) :
  texture (state prevObj) = Some pt ->
  occludes sameState (Some t) prevObj method prevMtd
  = Some (occludesWith sameState t pt method prevMtd).
Proof.
  intros E. unfold occludes, occludesWith. rewrite E. simpl.
  destruct (Point_eqb _ _); [|reflexivity]. simpl.
  destruct (sameState && Rect_eqb _ _); [reflexivity|]. simpl.
  destruct (tex_isOpaque t); reflexivity.
Qed.

(** The loop erases nothing, or exactly the first method its test accepts. *)
Lemma eraseOccluded_spec (test : DrawMethod -> option bool) (ms kept : list DrawMethod) :
  eraseOccluded test ms = Some kept ->
  (kept = ms /\ Forall (fun m => test m = Some false) ms)
  \/ (exists l1 p l2, ms = l1 ++ p :: l2 /\ kept = l1 ++ l2
        /\ Forall (fun m => test m = Some false) l1 /\ test p = Some true).
Proof.
  revert kept. induction ms as [|m ms IH]; intros kept; simpl.
  - intros [= <-]. left. split; [reflexivity|constructor].
  - destruct (test m) as [[|]|] eqn:E; [| |discriminate].
    + intros [= <-]. right. exists [], m, ms. repeat split; auto.
    + destruct (eraseOccluded test ms) as [k|] eqn:Ek; [|discriminate].
      simpl. intros [= <-].
      destruct (IH k eq_refl) as [[-> F]|(l1 & p & l2 & -> & -> & F & T)].
      * left. split; [reflexivity|]. constructor; assumption.
      * right. exists (m :: l1), p, l2. repeat split; auto.
Qed.

Lemma eraseOccluded_first (test : DrawMethod -> option bool) (l1 l2 : list DrawMethod)
    (p : DrawMethod) :
  Forall (fun m => test m = Some false) l1 -> test p = Some true ->
  eraseOccluded test (l1 ++ p :: l2) = Some (l1 ++ l2).
Proof.
  intros F T. induction F as [|m l1 E F IH]; simpl.
  - rewrite T. reflexivity.
  - rewrite E, IH. reflexivity.
Qed.

Lemma eraseOccluded_total (test : DrawMethod -> option bool) (ms : list DrawMethod) :
  (forall m, is_Some (test m)) -> is_Some (eraseOccluded test ms).
Proof.
  intros T. induction ms as [|m ms IH]; simpl; [eauto|].
  destruct (T m) as [[|] ->]; [eauto|].
  destruct IH as [k ->]. simpl. eauto.
Qed.

(** The loop is undefined only when its test is, at one of the methods. *)
Lemma eraseOccluded_None (test : DrawMethod -> option bool) (ms : list DrawMethod) :
  eraseOccluded test ms = None -> exists m, m ∈ ms /\ test m = None.
Proof.
  induction ms as [|m ms IH]; simpl; [discriminate|].
  destruct (test m) as [[|]|] eqn:E.
  - discriminate.
  - destruct (eraseOccluded test ms) as [k|]; simpl; [discriminate|].
    intros _. destruct (IH eq_refl) as (m' & Hin & Hn).
    exists m'. split; [right; exact Hin|exact Hn].
  - intros _. exists m. split; [left|exact E].
Qed.

(** The test is undefined only when it reads through a null texture, which
    it does only for a method at the destination of the new one. *)
Lemma occludes_None (sameState : bool) (tex : TexturePtr) (prevObj : DrawObject)
    (method prevMtd : DrawMethod) :
  occludes sameState tex prevObj method prevMtd = None ->
  Point_eqb (dest prevMtd) (dest method) = true
  /\ (tex = None \/ texture (state prevObj) = None).
Proof.
  unfold occludes. destruct (Point_eqb _ _); [|discriminate].
  destruct (sameState && Rect_eqb _ _); [discriminate|].
  destruct tex as [t|]; simpl; [|auto].
  destruct (tex_isOpaque t); [|discriminate].
  destruct (texture (state prevObj)); simpl; [discriminate|auto].
Qed.

Lemma eraseOccluded_sublist (test : DrawMethod -> option bool) (ms kept : list DrawMethod) :
  eraseOccluded test ms = Some kept -> sublist kept ms.
Proof.
  intros E. destruct (eraseOccluded_spec _ _ _ E) as [[-> _]|(l1 & p & l2 & -> & -> & _)].
  - reflexivity.
  - apply sublist_app; [reflexivity|]. apply sublist_cons. reflexivity.
Qed.

End RegistryFacts.

Section AddFacts.
Context `{Collaborators}.
Import DrawPool.

Lemma updateHashIfFramed_objects (texture : TexturePtr) (method : DrawMethod) (pool : Pool) :
  m_objects (updateHashIfFramed texture method pool) = m_objects pool.
Proof. unfold updateHashIfFramed. destruct (m_framed pool); reflexivity. Qed.

Lemma updateHashIfFramed_framed (texture : TexturePtr) (method : DrawMethod) (pool : Pool) :
  m_framed (updateHashIfFramed texture method pool)
  = updateHash texture method <$> m_framed pool.
Proof.
  unfold updateHashIfFramed. destruct (m_framed pool) eqn:E; simpl; [reflexivity|].
  exact E.
Qed.

(** What [add] does once the pruning loop has run. *)
Lemma add_unfold (tid : ThreadId) (texture : TexturePtr) (method : DrawMethod)
    (drawMode : DrawMode) (s : World) (a : nat) (pool : Pool)
    (front : list DrawObject) (prevObj : DrawObject) (kept : list DrawMethod) :
  getCurrentPool tid s = Some a ->
  heap s !! a = Some pool ->
  m_objects pool = front ++ [prevObj] ->
  (if negb (Point_isNull (dest method))
   then eraseOccluded
          (occludes (PainterState_eqb (state prevObj) (setTexture (g_painter s) texture))
             texture prevObj method) (drawMethods prevObj)
   else Some (drawMethods prevObj)) = Some kept ->
  add tid texture method drawMode s
  = Some (store a
            (setObjects
               (if PainterState_eqb (state prevObj) (setTexture (g_painter s) texture)
                then front ++ [mkDrawObject _ (state prevObj) (coordsBuffer prevObj) Triangles
                                 (kept ++ [method]) (action prevObj)]
                else front ++ [setDrawMethods kept prevObj;
                               newObject (setTexture (g_painter s) texture) None drawMode method])
               (updateHashIfFramed texture method pool)) s).
Proof.
  intros Hc Hh Ho Hk. unfold add. rewrite Hc. simpl. rewrite Hh. simpl.
  rewrite updateHashIfFramed_objects, Ho, split_last_snoc. cbv zeta.
  rewrite Hk. simpl.
  destruct (PainterState_eqb _ _); reflexivity.
Qed.

(** [add] is undefined when the pruning loop is. *)
Lemma add_undefined (tid : ThreadId) (texture : TexturePtr) (method : DrawMethod)
    (drawMode : DrawMode) (s : World) (a : nat) (pool : Pool)
    (front : list DrawObject) (prevObj : DrawObject) :
  getCurrentPool tid s = Some a ->
  heap s !! a = Some pool ->
  m_objects pool = front ++ [prevObj] ->
  (if negb (Point_isNull (dest method))
   then eraseOccluded
          (occludes (PainterState_eqb (state prevObj) (setTexture (g_painter s) texture))
             texture prevObj method) (drawMethods prevObj)
   else Some (drawMethods prevObj)) = None ->
  add tid texture method drawMode s = None.
Proof.
  intros Hc Hh Ho Hk. unfold add. rewrite Hc. simpl. rewrite Hh. simpl.
  rewrite updateHashIfFramed_objects, Ho, split_last_snoc. cbv zeta.
  rewrite Hk. reflexivity.
Qed.

(** Why [add] can be undefined on a pool that is not empty: the method has
    an explicit destination, a method of the last object has the same, and
    the pruning test read the new texture or the last object's through a
    null pointer. *)
Lemma add_None_inv (tid : ThreadId) (texture : TexturePtr) (method : DrawMethod)
    (drawMode : DrawMode) (s : World) (a : nat) (pool : Pool)
    (front : list DrawObject) (prevObj : DrawObject) :
  getCurrentPool tid s = Some a ->
  heap s !! a = Some pool ->
  m_objects pool = front ++ [prevObj] ->
  add tid texture method drawMode s = None ->
  Point_isNull (dest method) = false
  /\ exists m,
       m ∈ drawMethods prevObj
       /\ occludes (PainterState_eqb (state prevObj) (setTexture (g_painter s) texture))
            texture prevObj method m = None.
Proof.
  intros Hc Hh Ho Ha.
  destruct (if negb (Point_isNull (dest method))
            then eraseOccluded
                   (occludes (PainterState_eqb (state prevObj) (setTexture (g_painter s) texture))
                      texture prevObj method) (drawMethods prevObj)
            else Some (drawMethods prevObj)) as [kept|] eqn:Hk.
  - rewrite (add_unfold tid texture method drawMode s a pool front prevObj kept Hc Hh Ho Hk)
      in Ha. discriminate.
  - destruct (Point_isNull (dest method)); simpl in Hk; [discriminate|].
    split; [reflexivity|]. apply eraseOccluded_None, Hk.
Qed.

(** What a call of [add] that returns has done to a pool that is not
    empty. *)
Lemma add_Some_inv (tid : ThreadId) (texture : TexturePtr) (method : DrawMethod)
    (drawMode : DrawMode) (s s' : World) (a : nat) (pool : Pool)
    (front : list DrawObject) (prevObj : DrawObject) :
  getCurrentPool tid s = Some a ->
  heap s !! a = Some pool ->
  m_objects pool = front ++ [prevObj] ->
  add tid texture method drawMode s = Some s' ->
  exists kept,
    (if negb (Point_isNull (dest method))
     then eraseOccluded
            (occludes (PainterState_eqb (state prevObj) (setTexture (g_painter s) texture))
               texture prevObj method) (drawMethods prevObj)
     else Some (drawMethods prevObj)) = Some kept
    /\ s' = store a
              (setObjects
                 (if PainterState_eqb (state prevObj) (setTexture (g_painter s) texture)
                  then front ++ [mkDrawObject _ (state prevObj) (coordsBuffer prevObj) Triangles
                                   (kept ++ [method]) (action prevObj)]
                  else front ++ [setDrawMethods kept prevObj;
                                 newObject (setTexture (g_painter s) texture) None drawMode
                                   method])
                 (updateHashIfFramed texture method pool)) s.
Proof.
  intros Hc Hh Ho Ha.
  destruct (if negb (Point_isNull (dest method))
            then eraseOccluded
                   (occludes (PainterState_eqb (state prevObj) (setTexture (g_painter s) texture))
                      texture prevObj method) (drawMethods prevObj)
            else Some (drawMethods prevObj)) as [kept|] eqn:Hk.
  - rewrite (add_unfold tid texture method drawMode s a pool front prevObj kept Hc Hh Ho Hk)
      in Ha. injection Ha as <-. exists kept. split; reflexivity.
  - rewrite (add_undefined tid texture method drawMode s a pool front prevObj Hc Hh Ho Hk)
      in Ha. discriminate.
Qed.

(** C1. When the state derived for the new primitive equals the state of
    the pool's last object, [add] appends the method at the end of that
    object, creates no object and sets the object's topology to triangles;
    when the state differs, or the pool is empty, [add] appends a new object
    holding just the method.  The methods already in the last object keep
    their order ([kept] is a sublist of them, and all of them when the method
    has no explicit destination).  This holds of every call that returns;
    on an empty pool every call returns, and on another pool a call is
    undefined only when the method has an explicit destination, a method of
    the last object has the same, and the new texture or the texture of the
    last object is null. *)
Theorem add_merges_or_starts_object (tid : ThreadId) (texture : TexturePtr)
    (method : DrawMethod) (drawMode : DrawMode) (s : World) (a : nat) (pool : Pool) :
  getCurrentPool tid s = Some a ->
  heap s !! a = Some pool ->
  let currentState := setTexture (g_painter s) texture in
  (forall front prevObj,
      m_objects pool = front ++ [prevObj] ->
      (forall s',
          add tid texture method drawMode s = Some s' ->
          exists kept pool',
            s' = store a pool' s
            /\ sublist kept (drawMethods prevObj)
            /\ (Point_isNull (dest method) = true -> kept = drawMethods prevObj)
            /\ m_objects pool'
               = (if PainterState_eqb (state prevObj) currentState
                  then front ++ [mkDrawObject _ (state prevObj) (coordsBuffer prevObj) Triangles
                                   (kept ++ [method]) (action prevObj)]
                  else front ++ [setDrawMethods kept prevObj;
                                 mkDrawObject _ currentState None drawMode [method] None])
            /\ m_framed pool' = updateHash texture method <$> m_framed pool)
      /\ (add tid texture method drawMode s = None ->
          Point_isNull (dest method) = false
          /\ (texture = None \/ Painter.texture (state prevObj) = None)
          /\ exists m, m ∈ drawMethods prevObj /\ Point_eqb (dest m) (dest method) = true))
  /\ (m_objects pool = [] ->
      exists pool',
        add tid texture method drawMode s = Some (store a pool' s)
        /\ m_objects pool' = [mkDrawObject _ currentState None drawMode [method] None]
        /\ m_framed pool' = updateHash texture method <$> m_framed pool).
Proof.
  intros Hc Hh currentState. split.
  - intros front prevObj Ho. split.
    + intros s' Ha.
      destruct (add_Some_inv tid texture method drawMode s s' a pool front prevObj
                  Hc Hh Ho Ha) as (kept & Hk & ->).
      exists kept. eexists. split; [reflexivity|]. split; [|split; [|split]].
      * destruct (Point_isNull (dest method)); simpl in Hk.
        -- injection Hk as <-. reflexivity.
        -- eapply eraseOccluded_sublist, Hk.
      * intros E. rewrite E in Hk. simpl in Hk. injection Hk as <-. reflexivity.
      * reflexivity.
      * apply updateHashIfFramed_framed.
    + intros Ha.
      destruct (add_None_inv tid texture method drawMode s a pool front prevObj
                  Hc Hh Ho Ha) as (Hd & m & Hin & Hn).
      apply occludes_None in Hn as [He Ht].
      split; [exact Hd|]. split; [exact Ht|]. exists m. split; assumption.
  - intros Ho. eexists. split; [|split].
    + unfold add. rewrite Hc. simpl. rewrite Hh. simpl.
      rewrite updateHashIfFramed_objects, Ho. simpl. reflexivity.
    + reflexivity.
    + apply updateHashIfFramed_framed.
Qed.

(** A run of [add] calls whose methods carry no explicit destination, on a
    pool whose last object has the state derived for them: every method
    lands in that object, in the order of the calls, and the object is drawn
    as triangles. *)
Lemma addAll_fills_last_object (tid : ThreadId) (texture : TexturePtr) (drawMode : DrawMode)
    (methods : list DrawMethod) :
  Forall (fun m => Point_isNull (dest m) = true) methods ->
  methods <> [] ->
  forall (s : World) (a : nat) (pool : Pool) (front : list DrawObject) (prevObj : DrawObject),
    getCurrentPool tid s = Some a ->
    heap s !! a = Some pool ->
    m_objects pool = front ++ [prevObj] ->
    PainterState_eqb (state prevObj) (setTexture (g_painter s) texture) = true ->
    objectsAt a (addAll tid texture drawMode methods s)
    = Some (front ++ [mkDrawObject _ (state prevObj) (coordsBuffer prevObj) Triangles
                        (drawMethods prevObj ++ methods) (action prevObj)]).
Proof.
  intros F. induction F as [|m ms Hm F IH]; intros Hne s a pool front prevObj Hc Hh Ho He;
    [congruence|].
  assert (Hk : (if negb (Point_isNull (dest m))
                then eraseOccluded
                       (occludes
                          (PainterState_eqb (state prevObj) (setTexture (g_painter s) texture))
                          texture prevObj m) (drawMethods prevObj)
                else Some (drawMethods prevObj)) = Some (drawMethods prevObj)).
  { rewrite Hm. reflexivity. }
  pose proof (add_unfold tid texture m drawMode s a pool front prevObj _ Hc Hh Ho Hk) as Ha.
  rewrite He in Ha. simpl addAll. rewrite Ha. simpl.
  destruct ms as [|m' ms'].
  - simpl. unfold objectsAt. simpl.
    rewrite list_lookup_insert_eq by (eapply lookup_lt_Some; eassumption). reflexivity.
  - match goal with |- context [store a ?p s] => set (pool' := p) end.
    rewrite (IH ltac:(discriminate) (store a pool' s) a pool' front
               (mkDrawObject _ (state prevObj) (coordsBuffer prevObj) Triangles
                  (drawMethods prevObj ++ [m]) (action prevObj))).
    + simpl. rewrite <- app_assoc. reflexivity.
    + exact Hc.
    + eapply store_lookup, Hh.
    + reflexivity.
    + exact He.
Qed.

End AddFacts.

Section PruningFacts.
Context `{Collaborators}.
Import DrawPool.

(** C10. One call of [add] erases at most one method: either the last
    object keeps all its methods, or it loses exactly the first one (in
    insertion order) that the pruning test accepts, whatever follows it; the
    objects before the last one are left as they were.  This holds of every
    call that returns, whatever the textures; a call that does not return
    has read a null texture in the pruning test. *)
Theorem add_erases_at_most_first_match (tid : ThreadId) (texture : TexturePtr)
    (method : DrawMethod) (drawMode : DrawMode) (s : World) (a : nat) (pool : Pool)
    (front : list DrawObject) (prevObj : DrawObject) :
  getCurrentPool tid s = Some a ->
  heap s !! a = Some pool ->
  m_objects pool = front ++ [prevObj] ->
  let sameState := PainterState_eqb (state prevObj) (setTexture (g_painter s) texture) in
  let test := occludes sameState texture prevObj method in
  (forall s',
      add tid texture method drawMode s = Some s' ->
      exists kept pool' last,
        s' = store a pool' s
        /\ m_objects pool' = front ++ last
        /\ last = (if sameState
                   then [push_back method (setDrawMode Triangles (setDrawMethods kept prevObj))]
                   else [setDrawMethods kept prevObj;
                         newObject (setTexture (g_painter s) texture) None drawMode method])
        /\ (kept = drawMethods prevObj
            \/ (Point_isNull (dest method) = false
                /\ exists l1 p l2,
                     drawMethods prevObj = l1 ++ p :: l2 /\ kept = l1 ++ l2
                     /\ Forall (fun m => test m = Some false) l1 /\ test p = Some true))
        /\ (length (drawMethods prevObj) <= S (length kept))%nat)
  /\ (add tid texture method drawMode s = None ->
      Point_isNull (dest method) = false
      /\ exists m, m ∈ drawMethods prevObj /\ test m = None).
Proof.
  intros Hc Hh Ho sameState test. split.
  - intros s' Ha.
    destruct (add_Some_inv tid texture method drawMode s s' a pool front prevObj
                Hc Hh Ho Ha) as (kept & Hk & Hs).
    fold sameState in Hk, Hs.
    set (last := if sameState
                 then [push_back method (setDrawMode Triangles (setDrawMethods kept prevObj))]
                 else [setDrawMethods kept prevObj;
                       newObject (setTexture (g_painter s) texture) None drawMode method]).
    exists kept, (setObjects (front ++ last) (updateHashIfFramed texture method pool)), last.
    split; [|split; [|split; [|split]]].
    + rewrite Hs. unfold last. destruct sameState; reflexivity.
    + reflexivity.
    + reflexivity.
    + destruct (Point_isNull (dest method)) eqn:E; simpl in Hk.
      * left. injection Hk as <-. reflexivity.
      * destruct (eraseOccluded_spec _ _ _ Hk) as [[-> _]|(l1 & p & l2 & E1 & E2 & F & T)].
        -- left. reflexivity.
        -- right. split; [reflexivity|]. exists l1, p, l2. auto.
    + destruct (Point_isNull (dest method)) eqn:E; simpl in Hk.
      * injection Hk as <-. lia.
      * destruct (eraseOccluded_spec _ _ _ Hk) as [[-> _]|(l1 & p & l2 & -> & -> & _)].
        -- lia.
        -- rewrite !length_app. simpl. lia.
  - intros Ha.
    exact (add_None_inv tid texture method drawMode s a pool front prevObj Hc Hh Ho Ha).
Qed.

(** C2 (amended).  When the method has an explicit destination and the
    last object holds methods at the same destination that are occluded -
    same state and equal source rectangle, or an opaque new texture over a
    texture that can be superimposed - the first of them in insertion order
    is erased before the method is appended; the methods after it stay,
    occluded or not. *)
Theorem add_erases_first_occluded (tid : ThreadId) (t pt : Texture)
    (method : DrawMethod) (drawMode : DrawMode) (s : World) (a : nat) (pool : Pool)
    (front : list DrawObject) (prevObj : DrawObject) (l1 l2 : list DrawMethod)
    (p : DrawMethod) :
  getCurrentPool tid s = Some a ->
  heap s !! a = Some pool ->
  m_objects pool = front ++ [prevObj] ->
  Painter.texture (state prevObj) = Some pt ->
  Point_isNull (dest method) = false ->
  let sameState := PainterState_eqb (state prevObj) (setTexture (g_painter s) (Some t)) in
  drawMethods prevObj = l1 ++ p :: l2 ->
  Forall (fun m => occludesWith sameState t pt method m = false) l1 ->
  occludesWith sameState t pt method p = true ->
  exists pool',
    add tid (Some t) method drawMode s = Some (store a pool' s)
    /\ m_objects pool'
       = if sameState
         then front ++ [mkDrawObject _ (state prevObj) (coordsBuffer prevObj) Triangles
                          (l1 ++ l2 ++ [method]) (action prevObj)]
         else front ++ [setDrawMethods (l1 ++ l2) prevObj;
                        newObject (setTexture (g_painter s) (Some t)) None drawMode method].
Proof.
  intros Hc Hh Ho Hpt Hd sameState Hm F T.
  eexists. split.
  - apply (add_unfold tid (Some t) method drawMode s a pool front prevObj (l1 ++ l2));
      try assumption.
    rewrite Hd. simpl. rewrite Hm. apply eraseOccluded_first.
    + eapply Forall_impl; [exact F|]. intros m E. simpl in E.
      rewrite (occludes_total _ _ pt) by assumption. fold sameState. rewrite E. reflexivity.
    + rewrite (occludes_total _ _ pt) by assumption. fold sameState. rewrite T. reflexivity.
  - simpl. fold sameState. destruct sameState; [|reflexivity].
    rewrite <- app_assoc. reflexivity.
Qed.

End PruningFacts.

Section PruningExamples.
Import DrawPool Sample.
#[local] Existing Instance Sample.painter.
#[local] Existing Instance Sample.collab.

(** C2, counterexample.  Three textured rectangles are added at the same
    explicit destination.  The second has the state of the first and a
    source rectangle of the same size (another place in the texture): the
    first is kept.  The third has an opaque texture over a texture that can
    be superimposed: only the first method of the last object is erased, and
    the second, at the same destination, stays in the pool with the new
    one. *)
Lemma add_keeps_occluded_methods :
  let w2 := addTexturedRect mainThread tile (Some texA) srcLeft at55 (world [mkPool _ [] None])
             ≫= addTexturedRect mainThread tile (Some texA) srcRight at55 in
  let w3 := w2 ≫= addTexturedRect mainThread tile (Some texB) srcLeft at55 in
  Size_eqb (Rect_size srcLeft) (Rect_size srcRight) = true
  /\ objectsAt 0%nat w2
     = Some [mkDrawObject _ (stateOf texA) None Triangles
               [texturedAt srcLeft at55; texturedAt srcRight at55] None]
  /\ tex_isOpaque texB && tex_canSuperimposed texA = true
  /\ objectsAt 0%nat w3
     = Some [mkDrawObject _ (stateOf texA) None Triangles [texturedAt srcRight at55] None;
             mkDrawObject _ (stateOf texB) None TriangleStrip [texturedAt srcLeft at55] None].
Proof. vm_compute. repeat split; reflexivity. Qed.

End PruningExamples.

Section HashFacts.
Context `{Collaborators}.
Import DrawPool.

Lemma appendToFirst_methods (p : DrawObject -> bool) (method : DrawMethod)
    (objs objs' : list DrawObject) :
  appendToFirst p method objs = Some objs' ->
  length objs' = length objs
  /\ method ∈ concat (drawMethods <$> objs')
  /\ length (concat (drawMethods <$> objs')) = S (length (concat (drawMethods <$> objs))).
Proof.
  revert objs'. induction objs as [|o os IH]; intros objs' E; simpl in E; [discriminate|].
  destruct (p o).
  - injection E as <-.
    rewrite !fmap_cons, !concat_cons, !length_app, !elem_of_app.
    unfold push_back at 2 3. simpl drawMethods. rewrite length_app, elem_of_app.
    split; [reflexivity|]. split.
    + left. right. apply list_elem_of_singleton. reflexivity.
    + change (length [method]) with 1%nat. lia.
  - destruct (appendToFirst p method os) as [r|] eqn:Er; [|discriminate].
    simpl in E. injection E as <-. destruct (IH r eq_refl) as (L & I & N).
    rewrite !fmap_cons, !concat_cons, !length_app, N, elem_of_app.
    split; [simpl; congruence|]. split; [right; exact I|lia].
Qed.

(** [add] folds the texture and the method into the hash of a framed
    pool. *)
Lemma add_folds_hash (tid : ThreadId) (texture : TexturePtr) (method : DrawMethod)
    (drawMode : DrawMode) (s s' : World) (a : nat) (pool : Pool) :
  getCurrentPool tid s = Some a ->
  heap s !! a = Some pool ->
  add tid texture method drawMode s = Some s' ->
  framedAt a (Some s') = updateHash texture method <$> m_framed pool.
Proof.
  intros Hc Hh. unfold add. rewrite Hc. simpl. rewrite Hh. simpl.
  destruct (match split_last _ with Some _ => _ | None => _ end) as [objs|]; [|discriminate].
  simpl. intros [= <-]. unfold framedAt. simpl.
  rewrite list_lookup_insert_eq by (eapply lookup_lt_Some; eassumption).
  simpl. apply updateHashIfFramed_framed.
Qed.

(** C3, on the code.  [addRepeated] inserts the method into the current
    pool and leaves the hash of a framed pool as it was: neither the
    committed nor the running hash changes, so the pool shows no
    modification if it showed none before. *)
Theorem addRepeated_leaves_hash (tid : ThreadId) (texture : TexturePtr)
    (method : DrawMethod) (drawMode : DrawMode) (s : World) (a : nat) (pool : Pool)
    (pf : PoolFramed) :
  getCurrentPool tid s = Some a ->
  heap s !! a = Some pool ->
  m_framed pool = Some pf ->
  exists pool',
    addRepeated tid texture method drawMode s = Some (store a pool' s)
    /\ m_framed pool' = Some pf
    /\ method ∈ concat (drawMethods <$> m_objects pool')
    /\ length (concat (drawMethods <$> m_objects pool'))
       = S (length (concat (drawMethods <$> m_objects pool))).
Proof.
  intros Hc Hh Hf. unfold addRepeated. rewrite Hc. simpl. rewrite Hh. simpl.
  destruct (appendToFirst _ method (m_objects pool)) as [objs|] eqn:E.
  - destruct (appendToFirst_methods _ _ _ _ E) as (_ & I & N).
    eexists. split; [reflexivity|]. simpl. auto.
  - eexists. split; [reflexivity|]. simpl. split; [assumption|].
    rewrite fmap_app, concat_app. simpl. split.
    + rewrite elem_of_app. right. rewrite elem_of_cons. left. reflexivity.
    + rewrite length_app. simpl. lia.
Qed.

(** C7. In [createPoolF] the guard of the branch that would set the light
    composition mode cannot hold once the first guard has failed: whatever
    the pool type, the render target keeps the composition mode it was
    created with, and blending is switched off exactly for the map pool. *)
Theorem createPoolF_never_sets_light (type : PoolType) (fb : FrameBuffer) (s : World) :
  negb (PoolType_eqb type MAP) && PoolType_eqb type MAP = false
  /\ exists pf,
       framedAt (fst (createPoolF type fb s)) (Some (snd (createPoolF type fb s))) = Some pf
       /\ m_framebuffer pf = (if PoolType_eqb type MAP then disableBlend fb else fb)
       /\ fb_compositionMode (m_framebuffer pf) = fb_compositionMode fb
       /\ fb_blend (m_framebuffer pf) = (if PoolType_eqb type MAP then false else fb_blend fb)
       /\ m_pools (snd (createPoolF type fb s)) type = Some (fst (createPoolF type fb s)).
Proof.
  split; [destruct (PoolType_eqb type MAP); reflexivity|].
  eexists. split.
  - unfold framedAt, createPoolF. simpl.
    rewrite lookup_app_r by lia. rewrite Nat.sub_diag. simpl. reflexivity.
  - simpl. destruct type; simpl; auto.
Qed.

End HashFacts.

Section DrawFacts.
Context `{Collaborators}.
Import DrawPool.

Lemma emitAll_cons (c : Call) (cs : list Call) (s : World) :
  emitAll (c :: cs) s = emitAll cs (emit c s).
Proof. reflexivity. Qed.

Lemma emitAll_calls (cs : list Call) (s : World) : calls (emitAll cs s) = calls s ++ cs.
Proof.
  revert s. induction cs as [|c cs IH]; intros s.
  - simpl. rewrite app_nil_r. reflexivity.
  - rewrite emitAll_cons, IH. simpl. rewrite <- app_assoc. reflexivity.
Qed.

Lemma emitAll_heap (cs : list Call) (s : World) : heap (emitAll cs s) = heap s.
Proof.
  revert s. induction cs as [|c cs IH]; intros s; [reflexivity|].
  rewrite emitAll_cons, IH. reflexivity.
Qed.

Lemma emitAll_thread (cs : list Call) (s : World) :
  T_CURRENT_POOL (emitAll cs s) = T_CURRENT_POOL s.
Proof.
  revert s. induction cs as [|c cs IH]; intros s; [reflexivity|].
  rewrite emitAll_cons, IH. reflexivity.
Qed.

Lemma emitAll_coordsbuffer (cs : list Call) (s : World) :
  m_coordsbuffer (emitAll cs s) = m_coordsbuffer s.
Proof.
  revert s. induction cs as [|c cs IH]; intros s; [reflexivity|].
  rewrite emitAll_cons, IH. reflexivity.
Qed.

Lemma emitAll_app (cs ds : list Call) (s : World) :
  emitAll (cs ++ ds) s = emitAll ds (emitAll cs s).
Proof. unfold emitAll. apply fold_left_app. Qed.

Lemma setCoordsbuffer_same (s : World) :
  m_coordsbuffer s = [] -> setCoordsbuffer [] s = s.
Proof. destruct s. simpl. intros ->. reflexivity. Qed.

(** On the owning thread, with an empty scratch buffer, [drawObject] leaves
    the object as it is and issues the calls of [replayOf]. *)
Lemma drawObject_replays (tid : ThreadId) (obj : DrawObject) (s : World) :
  isOnThread tid s = false -> m_coordsbuffer s = [] ->
  drawObject tid obj s = (obj, emitAll (replayOf obj) s).
Proof.
  intros Ht Hb. unfold drawObject, replayOf. rewrite Ht.
  destruct (action obj); [reflexivity|].
  destruct (drawMethods obj) eqn:Em; [reflexivity|].
  destruct (coordsBuffer obj); [reflexivity|].
  simpl. rewrite Hb. rewrite setCoordsbuffer_same by (simpl; exact Hb). reflexivity.
Qed.

Lemma drawObjects_replays (tid : ThreadId) (objs : list DrawObject) (s : World) :
  isOnThread tid s = false -> m_coordsbuffer s = [] ->
  drawObjects tid objs s = (objs, emitAll (concat (replayOf <$> objs)) s).
Proof.
  revert s. induction objs as [|o os IH]; intros s Ht Hb; [reflexivity|].
  simpl drawObjects. rewrite drawObject_replays by assumption.
  rewrite IH.
  - rewrite fmap_cons, concat_cons, emitAll_app. reflexivity.
  - unfold isOnThread. rewrite emitAll_thread. exact Ht.
  - rewrite emitAll_coordsbuffer. exact Hb.
Qed.

Lemma clearObjects_lookup (a : nat) (pool : Pool) (s : World) :
  heap s !! a = Some pool ->
  heap (clearObjects a s) !! a = Some (setObjects [] pool)
  /\ calls (clearObjects a s) = calls s.
Proof.
  intros E. unfold clearObjects. rewrite E. split; [|reflexivity].
  eapply store_lookup, E.
Qed.

(** C5. The body of the loop of [draw], for a framed pool whose render
    target is drawable.  If the running hash differs from the committed
    one, the hash is committed, the target is bound, every object of the
    pool is replayed in order and the target is released; if the two hashes
    are equal nothing of this happens.  In both cases the target is then
    composited through its destination and source rectangles, between the
    optional hooks, and the pool's object list is emptied. *)
Theorem drawPool_rerenders_only_modified (tid : ThreadId) (s : World) (a : nat)
    (pool : Pool) (pf : PoolFramed) :
  heap s !! a = Some pool ->
  m_framed pool = Some pf ->
  fb_isDrawable (m_framebuffer pf) = true ->
  isOnThread tid s = false ->
  m_coordsbuffer s = [] ->
  let fb := fb_id (m_framebuffer pf) in
  let composite :=
    hookCalls BeforeDraw (m_beforeDraw pf)
    ++ [FbDraw fb (m_dest pf) (m_src pf)]
    ++ hookCalls AfterDraw (m_afterDraw pf) in
  exists s',
    drawPool tid (Some a) s = Some s'
    /\ calls s'
       = calls s ++ [SaveAndResetState]
         ++ (if hasModification pf
             then [FbBind fb] ++ concat (replayOf <$> m_objects pool) ++ [FbRelease fb]
             else [])
         ++ composite ++ [RestoreSavedState]
    /\ framedAt a (Some s') = Some (if hasModification pf then updateStatus pf else pf)
    /\ hasModification (updateStatus pf) = false
    /\ objectsAt a (Some s') = Some [].
Proof.
  intros Hh Hf Hd Ht Hb fb composite.
  assert (La : (a < length (heap s))%nat) by (eapply lookup_lt_Some; eassumption).
  unfold drawPool. simpl. rewrite Hh. simpl. rewrite Hf, Hd.
  eexists. split; [reflexivity|].
  assert (Hcommit : hasModification (updateStatus pf) = false).
  { unfold hasModification, updateStatus. simpl. rewrite Z.eqb_refl. reflexivity. }
  destruct (hasModification pf) eqn:Hm.
  - rewrite drawObjects_replays by (simpl; assumption).
    match goal with |- context [clearObjects a ?w] => set (s1 := w) end.
    assert (H1 : heap s1 !! a = Some (mkPool _ (m_objects pool) (Some (updateStatus pf)))).
    { unfold s1. destruct (m_beforeDraw pf), (m_afterDraw pf); simpl;
        rewrite emitAll_heap; simpl;
        rewrite list_insert_insert_eq; apply list_lookup_insert_eq; exact La. }
    destruct (clearObjects_lookup a _ s1 H1) as [E1 E2].
    unfold framedAt, objectsAt. simpl. rewrite E1, E2. simpl.
    split; [|auto].
    unfold s1, composite, hookCalls.
    destruct (m_beforeDraw pf), (m_afterDraw pf); simpl;
      rewrite emitAll_calls; simpl; rewrite <- !app_assoc; reflexivity.
  - match goal with |- context [clearObjects a ?w] => set (s1 := w) end.
    assert (H1 : heap s1 !! a = Some pool).
    { unfold s1. destruct (m_beforeDraw pf), (m_afterDraw pf); simpl; exact Hh. }
    destruct (clearObjects_lookup a _ s1 H1) as [E1 E2].
    unfold framedAt, objectsAt. simpl. rewrite E1, E2. simpl.
    split; [|auto].
    unfold s1, composite, hookCalls.
    destruct (m_beforeDraw pf), (m_afterDraw pf); simpl;
      rewrite <- !app_assoc; reflexivity.
Qed.

End DrawFacts.

Section DrawLoopFacts.
Context `{Collaborators}.
Import DrawPool.

Lemma emitAll_pools (cs : list Call) (s : World) : m_pools (emitAll cs s) = m_pools s.
Proof.
  revert s. induction cs as [|c cs IH]; intros s; [reflexivity|].
  rewrite emitAll_cons, IH. reflexivity.
Qed.

Lemma clearObjects_fields (a : nat) (s : World) :
  T_CURRENT_POOL (clearObjects a s) = T_CURRENT_POOL s
  /\ m_coordsbuffer (clearObjects a s) = m_coordsbuffer s
  /\ m_pools (clearObjects a s) = m_pools s.
Proof. unfold clearObjects. destruct (heap s !! a); auto. Qed.

(** [draw] is the loop body [drawPool] run on the pools of the registry in
    the order of the pool types, after the workers have been joined. *)
Lemma draw_unfold (tid : ThreadId) (s : World) :
  draw tid s
  = (s0 ← (if multiThreadEnabled s then forEachPool join PoolType_all s else Some s);
     s1 ← drawPool tid (m_pools s0 MAP) s0;
     s2 ← drawPool tid (m_pools s1 LIGHT) s1;
     s3 ← drawPool tid (m_pools s2 UI) s2;
     drawPool tid (m_pools s3 FOREGROUND) s3).
Proof.
  unfold draw. destruct (if multiThreadEnabled s then _ else _) as [s0|]; [|reflexivity].
  simpl. destruct (drawPool tid (m_pools s0 MAP) s0) as [s1|]; [|reflexivity].
  simpl. destruct (drawPool tid (m_pools s1 LIGHT) s1) as [s2|]; [|reflexivity].
  simpl. destruct (drawPool tid (m_pools s2 UI) s2) as [s3|]; [|reflexivity].
  simpl. destruct (drawPool tid (m_pools s3 FOREGROUND) s3); reflexivity.
Qed.

(** The loop body keeps what the statement about framed pools assumes of the
    registry: the calling thread populates no pool and the scratch buffer
    is empty. *)
Lemma drawPool_keeps_owner_thread (tid : ThreadId) (ptr : PoolPtr) (s s' : World) :
  isOnThread tid s = false -> m_coordsbuffer s = [] ->
  drawPool tid ptr s = Some s' ->
  isOnThread tid s' = false /\ m_coordsbuffer s' = [] /\ m_pools s' = m_pools s.
Proof.
  intros Ht Hb. unfold drawPool. destruct ptr as [a|]; [|discriminate]. simpl.
  destruct (heap s !! a) as [pool|]; [|discriminate]. simpl.
  intros [= <-].
  match goal with
  | |- context [clearObjects a ?w] =>
      destruct (clearObjects_fields a w) as (E1 & E2 & E3); revert E1 E2 E3;
      generalize (clearObjects a w)
  end.
  intros w E1 E2 E3.
  unfold isOnThread. rewrite E1, E2, E3. clear E1 E2 E3.
  destruct (m_framed pool) as [pf|].
  - cbv zeta. destruct (fb_isDrawable (m_framebuffer pf)); [|auto].
    destruct (hasModification pf).
    + rewrite drawObjects_replays by (simpl; assumption).
      destruct (m_beforeDraw pf), (m_afterDraw pf); simpl;
        rewrite emitAll_thread, emitAll_coordsbuffer, emitAll_pools; simpl; auto.
    + destruct (m_beforeDraw pf), (m_afterDraw pf); simpl; auto.
  - rewrite drawObjects_replays by assumption.
    destruct (clearObjects_fields a
                (store a (setObjects (m_objects pool) pool)
                   (emitAll (concat (replayOf <$> m_objects pool)) s))) as (E1 & E2 & E3).
    rewrite E1, E2, E3. simpl.
    rewrite emitAll_thread, emitAll_coordsbuffer, emitAll_pools. auto.
Qed.

End DrawLoopFacts.

Section GuardFacts.
Context `{Collaborators}.
Import DrawPool.

Lemma Point_eqb_refl (a : Point) : Point_eqb a a = true.
Proof. apply Point_eqb_eq. reflexivity. Qed.

(** C8. A primitive with an empty destination or source rectangle, an
    empty texture, a triangle with two equal corners or a line width of
    zero is dropped: the call returns the registry as it received it, so the
    object list and the hash of every pool are unchanged. *)
Theorem malformed_primitive_is_dropped (tid : ThreadId) (s : World) :
  (forall dst texture src originalDest,
      Rect_isEmpty dst = true \/ Rect_isEmpty src = true
      \/ (exists t, texture = Some t /\ tex_isEmpty t = true) ->
      addTexturedRect tid dst texture src originalDest s = Some s
      /\ addUpsideDownTexturedRect tid dst texture src s = Some s
      /\ addRepeatedTexturedRect tid dst texture src s = Some s)
  /\ (forall dst t, tex_isEmpty t = true ->
        addTexturedRect_whole tid dst (Some t) s = Some s
        /\ addRepeatedTexturedRect_whole tid dst (Some t) s = Some s)
  /\ (forall dst, Rect_isEmpty dst = true ->
        addFilledRect tid dst s = Some s /\ addRepeatedFilledRect tid dst s = Some s)
  /\ (forall a b c, a = b \/ a = c \/ b = c -> addFilledTriangle tid a b c s = Some s)
  /\ (forall dst innerLineWidth,
        Rect_isEmpty dst = true \/ innerLineWidth = 0 ->
        addBoundingRect tid dst innerLineWidth s = Some s)
  /\ (forall coordsBuffer t drawMode, tex_isEmpty t = true ->
        addTextureCoords tid coordsBuffer (Some t) drawMode s = Some s).
Proof.
  assert (Hrect : forall (dst src : Rect) (texture : TexturePtr) (k : World -> option World),
             Rect_isEmpty dst = true \/ Rect_isEmpty src = true
             \/ (exists t, texture = Some t /\ tex_isEmpty t = true) ->
             (if Rect_isEmpty dst then Some s else
              if Rect_isEmpty src then Some s else
              t ← texture; if tex_isEmpty t then Some s else k s) = Some s).
  { intros dst src texture k [-> | [-> | (t & -> & E)]].
    - reflexivity.
    - destruct (Rect_isEmpty dst); reflexivity.
    - destruct (Rect_isEmpty dst), (Rect_isEmpty src); try reflexivity.
      simpl. rewrite E. reflexivity. }
  split; [|split; [|split; [|split; [|split]]]].
  - intros dst texture src originalDest Hbad.
    unfold addTexturedRect, addUpsideDownTexturedRect, addRepeatedTexturedRect.
    destruct (offThread tid s); [auto|].
    split; [|split].
    + apply (Hrect dst src texture (fun s => add tid texture _ TriangleStrip s) Hbad).
    + apply (Hrect dst src texture (fun s => add tid texture _ TriangleStrip s) Hbad).
    + apply (Hrect dst src texture (fun s => addRepeated tid texture _ drawMode_default s) Hbad).
  - intros dst t E.
    unfold addTexturedRect_whole, addRepeatedTexturedRect_whole,
      addTexturedRect, addRepeatedTexturedRect. simpl.
    destruct (offThread tid s); [auto|].
    split.
    + apply (Hrect dst _ (Some t) (fun s => add tid (Some t) _ TriangleStrip s)). eauto.
    + apply (Hrect dst _ (Some t) (fun s => addRepeated tid (Some t) _ drawMode_default s)).
      eauto.
  - intros dst E. unfold addFilledRect, addRepeatedFilledRect. rewrite E.
    destruct (offThread tid s); auto.
  - intros a b c E. unfold addFilledTriangle. destruct (offThread tid s); [reflexivity|].
    destruct E as [-> | [-> | ->]]; rewrite Point_eqb_refl.
    + reflexivity.
    + rewrite orb_true_r. reflexivity.
    + rewrite orb_true_r. reflexivity.
  - intros dst innerLineWidth E. unfold addBoundingRect.
    destruct (offThread tid s); [reflexivity|].
    destruct E as [-> | ->]; [reflexivity|].
    rewrite orb_true_r. reflexivity.
  - intros coordsBuffer t drawMode E. unfold addTextureCoords. rewrite E.
    destruct (offThread tid s); reflexivity.
Qed.

(** C9. With multithreading enabled and no pool set in the calling thread's
    slot, every function that adds a primitive or an action returns at once:
    the registry, and with it every pool, is unchanged. *)
Theorem off_thread_call_is_noop (tid : ThreadId) (s : World) :
  multiThreadEnabled s = true ->
  T_CURRENT_POOL s tid = None ->
  (forall coordsBuffer, addFillCoords tid coordsBuffer s = Some s)
  /\ (forall coordsBuffer texture drawMode,
        addTextureCoords tid coordsBuffer texture drawMode s = Some s)
  /\ (forall dst texture src originalDest,
        addTexturedRect tid dst texture src originalDest s = Some s)
  /\ (forall dst t, addTexturedRect_whole tid dst (Some t) s = Some s)
  /\ (forall dst texture src, addUpsideDownTexturedRect tid dst texture src s = Some s)
  /\ (forall dst texture, addRepeatedTexturedRect_whole tid dst texture s = Some s)
  /\ (forall dst texture src, addRepeatedTexturedRect tid dst texture src s = Some s)
  /\ (forall dst, addRepeatedFilledRect tid dst s = Some s)
  /\ (forall dst, addFilledRect tid dst s = Some s)
  /\ (forall a b c, addFilledTriangle tid a b c s = Some s)
  /\ (forall dst innerLineWidth, addBoundingRect tid dst innerLineWidth s = Some s)
  /\ (forall action, addAction tid action s = Some s).
Proof.
  intros Hm Ht.
  assert (Hoff : offThread tid s = true).
  { unfold offThread, isOnThread. rewrite Hm, Ht. reflexivity. }
  unfold addFillCoords, addTextureCoords, addTexturedRect_whole, addTexturedRect,
    addUpsideDownTexturedRect, addRepeatedTexturedRect_whole, addRepeatedTexturedRect,
    addRepeatedFilledRect, addFilledRect, addFilledTriangle, addBoundingRect, addAction.
  simpl. rewrite Hoff. repeat split.
Qed.

End GuardFacts.

(** ** The light view *)

Section LightFacts.
Context `{LightView.FloatModel}.
Import LightView.

Lemma to_uint16_range (x : Z) : 0 <= to_uint16 x < 65536.
Proof. unfold to_uint16. apply Z.mod_pos_bound. lia. Qed.

Lemma to_uint16_small (x : Z) : 0 <= x < 65536 -> to_uint16 x = x.
Proof. intros R. unfold to_uint16. apply Z.mod_small. exact R. Qed.

(** After [addLightSource] in the dark the last source is at the position
    and of the colour just added, and its intensity fits 16 bits. *)
Lemma addLightSource_last (p : Point) (light : Light) (op : float) (lv : State) :
  isDark lv = true -> Light_wf light ->
  exists front last1,
    m_sources (addLightSource p light op lv) = front ++ [last1]
    /\ pos last1 = p /\ color last1 = light_color light
    /\ 0 <= intensity last1 < 65536
    /\ (m_sources lv = [] ->
        front = [] /\ last1 = mkLightSource p (light_color light) (light_intensity light) op).
Proof.
  intros Hd [Hi Hc]. unfold addLightSource. rewrite Hd. simpl.
  destruct (split_last (m_sources lv)) as [[front prevLight]|] eqn:E.
  - apply split_last_Some_inv in E.
    assert (Hne : m_sources lv = [] -> False).
    { rewrite E. destruct front; discriminate. }
    destruct (Point_eqb (pos prevLight) p && (color prevLight =? light_color light)) eqn:Em.
    + apply andb_true_iff in Em. destruct Em as [Ep Ec].
      apply Point_eqb_eq in Ep. apply Z.eqb_eq in Ec.
      exists front. eexists. split; [reflexivity|]. simpl.
      split; [exact Ep|]. split; [exact Ec|]. split; [|intros Hn; destruct (Hne Hn)].
      pose proof (to_uint16_range (intensity prevLight)).
      pose proof (to_uint16_range (light_intensity light)). lia.
    + exists (m_sources lv). eexists. split; [reflexivity|]. simpl.
      split; [reflexivity|]. split; [reflexivity|]. split; [lia|].
      intros Hn; destruct (Hne Hn).
  - apply split_last_nil_inv in E.
    exists (m_sources lv). eexists. split; [reflexivity|]. simpl.
    split; [reflexivity|]. split; [reflexivity|]. split; [lia|].
    intros _. split; [exact E|reflexivity].
Qed.

(** C6. Two consecutive calls of [addLightSource] in the dark with the same
    position and colour: the second appends nothing and replaces the
    intensity of the last source by the larger of that intensity and its
    own; starting from an empty list the two calls leave one source, with
    the larger of the two intensities. *)
Theorem addLightSource_coalesces (p : Point) (l1 l2 : Light) (op1 op2 : float) (lv : State) :
  isDark lv = true ->
  Light_wf l1 -> Light_wf l2 ->
  light_color l1 = light_color l2 ->
  let lv1 := addLightSource p l1 op1 lv in
  let lv2 := addLightSource p l2 op2 lv1 in
  exists front last1,
    m_sources lv1 = front ++ [last1]
    /\ pos last1 = p /\ color last1 = light_color l1
    /\ m_sources lv2
       = front ++ [setIntensity (Z.max (intensity last1) (light_intensity l2)) last1]
    /\ length (m_sources lv2) = length (m_sources lv1)
    /\ (m_sources lv = [] ->
        m_sources lv2
        = [mkLightSource p (light_color l1)
             (Z.max (light_intensity l1) (light_intensity l2)) op1]).
Proof.
  intros Hd W1 W2 Hc lv1 lv2.
  destruct (addLightSource_last p l1 op1 lv Hd W1) as (front & last1 & E1 & Ep & Ec & Ri & En).
  fold lv1 in E1.
  assert (E2 : m_sources lv2
               = front ++ [setIntensity (Z.max (intensity last1) (light_intensity l2)) last1]).
  { unfold lv2, addLightSource.
    assert (Hd1 : isDark lv1 = true).
    { unfold lv1, addLightSource. rewrite Hd. simpl.
      destruct (split_last (m_sources lv)) as [[f q]|]; [|exact Hd].
      destruct (_ && _); exact Hd. }
    rewrite Hd1. simpl. rewrite E1, split_last_snoc.
    rewrite Ep, Ec, Hc, Z.eqb_refl.
    assert (Point_eqb p p = true) as -> by (apply Point_eqb_eq; reflexivity).
    simpl. rewrite (to_uint16_small (intensity last1)) by exact Ri.
    destruct W2 as [R2 _]. rewrite (to_uint16_small (light_intensity l2)) by lia.
    reflexivity. }
  exists front, last1. repeat split; try assumption.
  - rewrite E1, E2, !length_app. reflexivity.
  - intros Hn. destruct (En Hn) as [-> ->]. rewrite E2. reflexivity.
Qed.

(** C4 (amended).  [draw] sets the pool's enabled flag to the darkness
    flag.  In the dark it ends with an empty source list.  Without darkness
    it makes no call on the draw pool and disables the pool, and
    [addLightSource] returns the view unchanged; a source list that was
    empty is empty after either of them. *)
Theorem draw_clears_sources_in_the_dark (dst src : Rect) (lv : State) :
  pool_enabled (m_pool (fst (draw dst src lv))) = isDark lv
  /\ (isDark lv = true -> m_sources (fst (draw dst src lv)) = [])
  /\ (isDark lv = false ->
      snd (draw dst src lv) = []
      /\ pool_enabled (m_pool (fst (draw dst src lv))) = false
      /\ forall p light op, addLightSource p light op lv = lv)
  /\ (isDark lv = false -> m_sources lv = [] ->
      m_sources (fst (draw dst src lv)) = []
      /\ forall p light op, m_sources (addLightSource p light op lv) = []).
Proof.
  unfold draw, addLightSource, isDark. simpl.
  destruct (m_isDark lv) eqn:E; simpl.
  - split; [reflexivity|]. split; [reflexivity|]. split; discriminate.
  - split; [reflexivity|]. split; [discriminate|]. split.
    + intros _. split; [reflexivity|]. split; reflexivity.
    + intros _ Hn. split; [exact Hn|]. intros _ _ _. exact Hn.
Qed.

End LightFacts.

Section LightExamples.
Import LightView Sample.
#[local] Existing Instance Sample.floats.

(** C4, counterexample.  A view that is not dark and still holds a source
    (darkness ended after the source was added): neither [draw] nor
    [addLightSource] removes it. *)
Lemma sources_survive_without_darkness :
  isDark (view false [stale]) = false
  /\ m_sources (fst (draw tile tile (view false [stale]))) = [stale]
  /\ m_sources (addLightSource at55 (mkLight 7 5) opacity1 (view false [stale])) = [stale].
Proof. repeat split; reflexivity. Qed.

End LightExamples.

(** ** The theorems at sample inputs *)

Section RegistryWitnesses.
Import DrawPool Sample.
#[local] Existing Instance Sample.painter.
#[local] Existing Instance Sample.collab.

(** C1 at a pool holding one object (same state: the method joins it), at
    an empty pool (a new object is started) and at a pool whose last object
    has no texture, with a method that has an explicit destination (a new
    object is started after it); and at a call that is undefined, a null
    texture at the destination of a method of the last object. *)
Lemma add_merges_or_starts_object_sample :
  (exists kept pool',
      add mainThread (Some texA) mRight TriangleStrip (world [poolOne])
      = Some (store 0%nat pool' (world [poolOne]))
      /\ sublist kept [mLeft]
      /\ m_objects pool'
         = [mkDrawObject _ (stateOf texA) None Triangles (kept ++ [mRight]) None])
  /\ (exists pool',
        add mainThread (Some texA) mRight TriangleStrip (world [mkPool _ [] None])
        = Some (store 0%nat pool' (world [mkPool _ [] None]))
        /\ m_objects pool' = [mkDrawObject _ (stateOf texA) None TriangleStrip [mRight] None])
  /\ (addFilledRect mainThread tile (world [mkPool _ [] None]) = Some (world [poolFilled])
      /\ exists kept pool',
           add mainThread (Some texA) mRight TriangleStrip (world [poolFilled])
           = Some (store 0%nat pool' (world [poolFilled]))
           /\ sublist kept [filledTile]
           /\ m_objects pool'
              = [setDrawMethods kept filledObject;
                 mkDrawObject _ (stateOf texA) None TriangleStrip [mRight] None])
  /\ (add mainThread None mLeft TriangleStrip (world [poolOne]) = None
      /\ exists m, m ∈ [mLeft] /\ Point_eqb (dest m) (dest mLeft) = true).
Proof.
  split; [|split; [|split; [split; [reflexivity|]|split; [reflexivity|]]]].
  - destruct (add_merges_or_starts_object mainThread (Some texA) mRight TriangleStrip
                (world [poolOne]) 0 poolOne eq_refl eq_refl) as [Hmerge _].
    destruct (Hmerge [] (objectOf texA [mLeft]) eq_refl) as [Hret _].
    assert (Ea : add mainThread (Some texA) mRight TriangleStrip (world [poolOne])
                 = Some (default (world [])
                           (add mainThread (Some texA) mRight TriangleStrip (world [poolOne]))))
      by reflexivity.
    destruct (Hret _ Ea) as (kept & pool' & Hs & Hsub & _ & Ho & _).
    exists kept, pool'. split; [rewrite <- Hs; exact Ea|]. split; [exact Hsub|exact Ho].
  - destruct (add_merges_or_starts_object mainThread (Some texA) mRight TriangleStrip
                (world [mkPool _ [] None]) 0 (mkPool _ [] None) eq_refl eq_refl)
      as [_ Hnew].
    destruct (Hnew eq_refl) as (pool' & Ha & Ho & _).
    exists pool'. split; [exact Ha|exact Ho].
  - destruct (add_merges_or_starts_object mainThread (Some texA) mRight TriangleStrip
                (world [poolFilled]) 0 poolFilled eq_refl eq_refl) as [Hmerge _].
    destruct (Hmerge [] filledObject eq_refl) as [Hret _].
    assert (Ea : add mainThread (Some texA) mRight TriangleStrip (world [poolFilled])
                 = Some (default (world [])
                           (add mainThread (Some texA) mRight TriangleStrip
                              (world [poolFilled]))))
      by reflexivity.
    destruct (Hret _ Ea) as (kept & pool' & Hs & Hsub & _ & Ho & _).
    exists kept, pool'. split; [rewrite <- Hs; exact Ea|]. split; [exact Hsub|exact Ho].
  - destruct (add_merges_or_starts_object mainThread None mLeft TriangleStrip
                (world [poolOne]) 0 poolOne eq_refl eq_refl) as [Hmerge _].
    destruct (Hmerge [] (objectOf texA [mLeft]) eq_refl) as [_ Hundef].
    destruct (Hundef eq_refl) as (_ & _ & Hm). exact Hm.
Defined.

(** C2 (amended) at a last object with two methods at the destination of the
    new, opaque one: the first is erased, the second stays. *)
Lemma add_erases_first_occluded_sample :
  exists pool',
    add mainThread (Some texB) mLeft TriangleStrip (world [poolTwo])
    = Some (store 0%nat pool' (world [poolTwo]))
    /\ m_objects pool'
       = [ mkDrawObject _ (stateOf texA) None TriangleStrip [mRight] None;
           mkDrawObject _ (stateOf texB) None TriangleStrip [mLeft] None ].
Proof.
  exact (add_erases_first_occluded mainThread texB texA mLeft TriangleStrip
           (world [poolTwo]) 0 poolTwo [] (objectOf texA [mLeft; mRight]) [] [mRight] mLeft
           eq_refl eq_refl eq_refl eq_refl eq_refl eq_refl (List.Forall_nil _) eq_refl).
Defined.

(** C10 at the same input: one method at most leaves the last object; and
    at a last object without texture, where the loop runs with a null
    texture unread and erases nothing. *)
Lemma add_erases_at_most_first_match_sample :
  (exists (kept : list DrawMethod) (pool' : Pool) (last : list DrawObject),
      add mainThread (Some texB) mLeft TriangleStrip (world [poolTwo])
      = Some (store 0%nat pool' (world [poolTwo]))
      /\ m_objects pool' = [] ++ last
      /\ (length (drawMethods (objectOf texA [mLeft; mRight])) <= S (length kept))%nat)
  /\ (exists (kept : list DrawMethod) (pool' : Pool) (last : list DrawObject),
        add mainThread (Some texB) mLeft TriangleStrip (world [poolFilled])
        = Some (store 0%nat pool' (world [poolFilled]))
        /\ m_objects pool' = [] ++ last
        /\ (length (drawMethods filledObject) <= S (length kept))%nat).
Proof.
  split.
  - destruct (add_erases_at_most_first_match mainThread (Some texB) mLeft TriangleStrip
                (world [poolTwo]) 0 poolTwo [] (objectOf texA [mLeft; mRight])
                eq_refl eq_refl eq_refl) as [Hret _].
    assert (Ea : add mainThread (Some texB) mLeft TriangleStrip (world [poolTwo])
                 = Some (default (world [])
                           (add mainThread (Some texB) mLeft TriangleStrip (world [poolTwo]))))
      by reflexivity.
    destruct (Hret _ Ea) as (kept & pool' & last & Hs & Ho & _ & _ & Hl).
    exists kept, pool', last. split; [rewrite <- Hs; exact Ea|]. split; [exact Ho|exact Hl].
  - destruct (add_erases_at_most_first_match mainThread (Some texB) mLeft TriangleStrip
                (world [poolFilled]) 0 poolFilled [] filledObject
                eq_refl eq_refl eq_refl) as [Hret _].
    assert (Ea : add mainThread (Some texB) mLeft TriangleStrip (world [poolFilled])
                 = Some (default (world [])
                           (add mainThread (Some texB) mLeft TriangleStrip
                              (world [poolFilled]))))
      by reflexivity.
    destruct (Hret _ Ea) as (kept & pool' & last & Hs & Ho & _ & _ & Hl).
    exists kept, pool', last. split; [rewrite <- Hs; exact Ea|]. split; [exact Ho|exact Hl].
Defined.

(** C3 at a repeated filled rectangle added to a framed pool whose hash is
    committed: the rectangle is in the pool and the pool shows no
    modification. *)
Lemma addRepeated_leaves_hash_sample :
  exists pool',
    addRepeatedFilledRect mainThread tile (world [poolClean])
    = Some (store 0%nat pool' (world [poolClean]))
    /\ m_framed pool' = Some (framedPart (5, 5))
    /\ hasModification (framedPart (5, 5)) = false
    /\ length (concat (drawMethods <$> m_objects pool')) = 2%nat.
Proof.
  destruct (addRepeated_leaves_hash mainThread None
              (withRects tile Rect_default (DrawMethod_init DRAW_REPEATED_FILLED_RECT))
              drawMode_default (world [poolClean]) 0 poolClean (framedPart (5, 5))
              eq_refl eq_refl eq_refl)
    as (pool' & Ha & Hf & _ & Hn).
  exists pool'. split; [exact Ha|]. split; [exact Hf|]. split; [reflexivity|exact Hn].
Defined.

(** The sibling path: the same rectangle added through [add] changes the
    running hash. *)
Example addFilledRect_changes_hash :
  hasModification <$> framedAt 0%nat (addFilledRect mainThread tile (world [poolClean]))
  = Some true
  /\ hasModification
       <$> framedAt 0%nat (addRepeatedFilledRect mainThread tile (world [poolClean]))
     = Some false.
Proof. vm_compute. split; reflexivity. Qed.

(** C5 at a framed pool whose hash changed (bind, replay, release, then
    composite) and at one whose hash did not (composite only). *)
Lemma drawPool_rerenders_only_modified_sample :
  (exists s',
      drawPool mainThread (Some 0%nat) (world [poolDirty]) = Some s'
      /\ calls s'
         = [ SaveAndResetState; FbBind 7%nat;
             ExecuteState (stateOf texA); SetTexture (Some texA);
             DrawCoords [addQuad tile srcLeft] TriangleStrip;
             FbRelease 7%nat; BeforeDraw 1%nat; FbDraw 7%nat tile tile; RestoreSavedState ]
      /\ framedAt 0%nat (Some s') = Some (framedPart (9, 9)))
  /\ (exists s',
        drawPool mainThread (Some 0%nat) (world [poolClean]) = Some s'
        /\ calls s' = [SaveAndResetState; BeforeDraw 1%nat; FbDraw 7%nat tile tile; RestoreSavedState]
        /\ objectsAt 0%nat (Some s') = Some []).
Proof.
  split.
  - destruct (drawPool_rerenders_only_modified mainThread (world [poolDirty]) 0 poolDirty
                (framedPart (5, 9)) eq_refl eq_refl eq_refl eq_refl eq_refl)
      as (s' & Hd & Hc & Hf & _ & _).
    exists s'. split; [exact Hd|]. split; [exact Hc|exact Hf].
  - destruct (drawPool_rerenders_only_modified mainThread (world [poolClean]) 0 poolClean
                (framedPart (5, 5)) eq_refl eq_refl eq_refl eq_refl eq_refl)
      as (s' & Hd & Hc & _ & _ & Ho).
    exists s'. split; [exact Hd|]. split; [exact Hc|exact Ho].
Defined.

(** C8 at an empty destination, an empty texture, a triangle with two equal
    corners and a line of width zero. *)
Lemma malformed_primitive_is_dropped_sample :
  let w := world [poolClean] in
  addTexturedRect mainThread Rect_default (Some texA) srcLeft at55 w = Some w
  /\ addTexturedRect mainThread tile (Some texEmpty) srcLeft at55 w = Some w
  /\ addFilledTriangle mainThread at55 Point_default at55 w = Some w
  /\ addBoundingRect mainThread tile 0 w = Some w.
Proof.
  intros w.
  destruct (malformed_primitive_is_dropped mainThread w) as (Hr & _ & _ & Ht & Hb & _).
  split; [|split; [|split]].
  - apply (Hr Rect_default (Some texA) srcLeft at55). left. reflexivity.
  - apply (Hr tile (Some texEmpty) srcLeft at55). right. right.
    exists texEmpty. split; reflexivity.
  - apply Ht. right. left. reflexivity.
  - apply Hb. right. reflexivity.
Defined.

(** C9 at a registry in multithreaded mode, called from a thread that
    populates no pool. *)
Lemma off_thread_call_is_noop_sample :
  let w := worldOffThread [poolClean] in
  multiThreadEnabled w = true
  /\ T_CURRENT_POOL w mainThread = None
  /\ addTexturedRect mainThread tile (Some texA) srcLeft at55 w = Some w
  /\ addFilledRect mainThread tile w = Some w
  /\ addAction mainThread 3%nat w = Some w.
Proof.
  intros w. split; [reflexivity|]. split; [reflexivity|].
  destruct (off_thread_call_is_noop mainThread w eq_refl eq_refl)
    as (_ & _ & Hr & _ & _ & _ & _ & _ & Hf & _ & _ & Ha).
  split; [apply Hr|]. split; [apply Hf|apply Ha].
Defined.

End RegistryWitnesses.

Section LightWitnesses.
Import LightView Sample.
#[local] Existing Instance Sample.floats.

(** C6 at the example of the specification: (0,0), colour 5, intensity 3
    and then 7 leave one source of intensity 7. *)
Lemma addLightSource_coalesces_sample :
  m_sources
    (addLightSource (mkPoint 0 0) (mkLight 7 5) opacity1
       (addLightSource (mkPoint 0 0) (mkLight 3 5) opacity1 (view true [])))
  = [mkLightSource (mkPoint 0 0) 5 7 opacity1].
Proof.
  assert (W1 : Light_wf (mkLight 3 5)) by (unfold Light_wf; simpl; lia).
  assert (W2 : Light_wf (mkLight 7 5)) by (unfold Light_wf; simpl; lia).
  destruct (addLightSource_coalesces (mkPoint 0 0) (mkLight 3 5) (mkLight 7 5) opacity1 1000
              (view true []) eq_refl W1 W2 eq_refl)
    as (front & last1 & _ & _ & _ & _ & _ & He).
  exact (He eq_refl).
Defined.

(** C4 (amended) at a dark view holding a source and at a view without
    darkness and without sources. *)
Lemma draw_clears_sources_in_the_dark_sample :
  m_sources (fst (draw tile tile (view true [stale]))) = []
  /\ pool_enabled (m_pool (fst (draw tile tile (view false [])))) = false
  /\ m_sources (fst (draw tile tile (view false []))) = [].
Proof.
  destruct (draw_clears_sources_in_the_dark tile tile (view true [stale])) as (_ & Hd & _).
  destruct (draw_clears_sources_in_the_dark tile tile (view false [])) as (_ & _ & Hn & He).
  split; [exact (Hd eq_refl)|]. split.
  - destruct (Hn eq_refl) as (_ & Hp & _). exact Hp.
  - destruct (He eq_refl eq_refl) as [Hs _]. exact Hs.
Defined.

End LightWitnesses.

(** * Further properties of the registry *)

Section CreationFacts.
Context `{Collaborators}.
Import DrawPool.

Lemma PoolType_eqb_eq (a b : PoolType) : PoolType_eqb a b = true <-> a = b.
Proof. destruct a, b; simpl; split; intros E; try reflexivity; discriminate. Qed.

Lemma PoolType_eqb_neq (a b : PoolType) : a <> b -> PoolType_eqb a b = false.
Proof.
  intros N. destruct (PoolType_eqb a b) eqn:E; [|reflexivity].
  apply PoolType_eqb_eq in E. contradiction.
Qed.

End CreationFacts.

Section PopulationFacts.
Context `{Collaborators}.
Import DrawPool Observe.

Lemma store_sameRegistry (a : nat) (pool pool' : Pool) (s : World) :
  heap s !! a = Some pool ->
  sameRegistry s (store a pool' s)
  /\ forall b, Some a <> Some b -> heap (store a pool' s) !! b = heap s !! b.
Proof.
  intros E. split.
  - unfold sameRegistry, store. simpl. rewrite length_insert. repeat split.
  - intros b N. unfold store. simpl. apply list_lookup_insert_ne. congruence.
Qed.

Lemma add_result (tid : ThreadId) (texture : TexturePtr) (method : DrawMethod)
    (drawMode : DrawMode) (s s' : World) :
  add tid texture method drawMode s = Some s' ->
  exists a pool pool',
    getCurrentPool tid s = Some a /\ heap s !! a = Some pool /\ s' = store a pool' s.
Proof.
  unfold add. destruct (getCurrentPool tid s) as [a|]; [|discriminate]. simpl.
  destruct (heap s !! a) as [pool|] eqn:E; [|discriminate]. simpl.
  destruct (match split_last _ with Some _ => _ | None => _ end) as [objs|]; [|discriminate].
  simpl. intros [= <-]. exists a, pool. eexists. repeat split. exact E.
Qed.

Lemma addRepeated_result (tid : ThreadId) (texture : TexturePtr) (method : DrawMethod)
    (drawMode : DrawMode) (s s' : World) :
  addRepeated tid texture method drawMode s = Some s' ->
  exists a pool pool',
    getCurrentPool tid s = Some a /\ heap s !! a = Some pool /\ s' = store a pool' s.
Proof.
  unfold addRepeated. destruct (getCurrentPool tid s) as [a|]; [|discriminate]. simpl.
  destruct (heap s !! a) as [pool|] eqn:E; [|discriminate]. simpl.
  destruct (appendToFirst _ _ _); intros [= <-]; exists a, pool; eexists;
    (repeat split); exact E.
Qed.

(** A request leaves the registry as it is, or replaces the object of the
    current pool. *)
Lemma perform_result (tid : ThreadId) (r : Request) (s s' : World) :
  perform tid r s = Some s' ->
  s' = s
  \/ exists a pool pool',
       getCurrentPool tid s = Some a /\ heap s !! a = Some pool /\ s' = store a pool' s.
Proof.
  assert (Hpush : forall (a0 : option nat) (k : Pool -> Pool),
             (a ← a0; pool ← heap s !! a; Some (store a (k pool) s)) = Some s' ->
             getCurrentPool tid s = a0 ->
             exists a pool pool',
               getCurrentPool tid s = Some a /\ heap s !! a = Some pool /\ s' = store a pool' s).
  { intros [a|] k; [|discriminate]. simpl.
    destruct (heap s !! a) as [pool|] eqn:E; [|discriminate]. simpl.
    intros [= <-] Hc. exists a, pool. eexists. repeat split; assumption. }
  assert (Hrect : forall (dst src : Rect) (texture : TexturePtr) (k : World -> option World),
             (forall w, k s = Some w ->
                exists a pool pool',
                  getCurrentPool tid s = Some a /\ heap s !! a = Some pool
                  /\ w = store a pool' s) ->
             (if Rect_isEmpty dst then Some s else
              if Rect_isEmpty src then Some s else
              t ← texture; if tex_isEmpty t then Some s else k s) = Some s' ->
             s' = s
             \/ exists a pool pool',
                  getCurrentPool tid s = Some a /\ heap s !! a = Some pool
                  /\ s' = store a pool' s).
  { intros dst src texture k Hk.
    destruct (Rect_isEmpty dst); [intros [= <-]; left; reflexivity|].
    destruct (Rect_isEmpty src); [intros [= <-]; left; reflexivity|].
    destruct texture as [t|]; [|discriminate]. simpl.
    destruct (tex_isEmpty t); [intros [= <-]; left; reflexivity|].
    intros E. right. apply Hk, E. }
  destruct r as [cb|cb tex mode|dst tex src od|dst tex|dst tex src|dst tex src|dst tex
                |dst|dst|p q r|dst w|act]; simpl.
  - unfold addFillCoords. destruct (offThread tid s); [intros [= <-]; left; reflexivity|].
    intros E. right. eapply (Hpush _ (fun pool => setObjects _ (updateHashIfFramed _ _ pool)));
      [exact E|reflexivity].
  - unfold addTextureCoords. destruct (offThread tid s); [intros [= <-]; left; reflexivity|].
    destruct (match tex with Some t => tex_isEmpty t | None => false end);
      [intros [= <-]; left; reflexivity|].
    intros E. right. eapply (Hpush _ (fun pool => setObjects _ (updateHashIfFramed _ _ pool)));
      [exact E|reflexivity].
  - unfold addTexturedRect. destruct (offThread tid s); [intros [= <-]; left; reflexivity|].
    apply (Hrect dst src tex (fun w => add tid tex _ TriangleStrip w)).
    intros w E. eapply add_result, E.
  - unfold addTexturedRect_whole. destruct tex as [t|]; [|discriminate]. simpl.
    unfold addTexturedRect. destruct (offThread tid s); [intros [= <-]; left; reflexivity|].
    apply (Hrect dst _ (Some t) (fun w => add tid (Some t) _ TriangleStrip w)).
    intros w E. eapply add_result, E.
  - unfold addUpsideDownTexturedRect.
    destruct (offThread tid s); [intros [= <-]; left; reflexivity|].
    apply (Hrect dst src tex (fun w => add tid tex _ TriangleStrip w)).
    intros w E. eapply add_result, E.
  - unfold addRepeatedTexturedRect.
    destruct (offThread tid s); [intros [= <-]; left; reflexivity|].
    apply (Hrect dst src tex (fun w => addRepeated tid tex _ drawMode_default w)).
    intros w E. eapply addRepeated_result, E.
  - unfold addRepeatedTexturedRect_whole.
    destruct (offThread tid s) eqn:Hoff; [intros [= <-]; left; reflexivity|].
    destruct tex as [t|]; [|discriminate]. simpl.
    unfold addRepeatedTexturedRect. rewrite Hoff.
    apply (Hrect dst _ (Some t) (fun w => addRepeated tid (Some t) _ drawMode_default w)).
    intros w E. eapply addRepeated_result, E.
  - unfold addRepeatedFilledRect.
    destruct (offThread tid s); [intros [= <-]; left; reflexivity|].
    destruct (Rect_isEmpty dst); [intros [= <-]; left; reflexivity|].
    intros E. right. eapply addRepeated_result, E.
  - unfold addFilledRect.
    destruct (offThread tid s); [intros [= <-]; left; reflexivity|].
    destruct (Rect_isEmpty dst); [intros [= <-]; left; reflexivity|].
    intros E. right. eapply add_result, E.
  - unfold addFilledTriangle.
    destruct (offThread tid s); [intros [= <-]; left; reflexivity|].
    destruct (_ || _); [intros [= <-]; left; reflexivity|].
    intros E. right. eapply add_result, E.
  - unfold addBoundingRect.
    destruct (offThread tid s); [intros [= <-]; left; reflexivity|].
    destruct (_ || _); [intros [= <-]; left; reflexivity|].
    intros E. right. eapply add_result, E.
  - unfold addAction.
    destruct (offThread tid s); [intros [= <-]; left; reflexivity|].
    intros E. right. eapply (Hpush _ (fun pool => setObjects _ pool)); [exact E|reflexivity].
Qed.

(** X2. Whatever a client asks the registry to add, and whether the
    primitive is kept or dropped, the call issues nothing to the painter or
    a frame buffer, leaves the painter state, the slots, the current-pool
    pointers and the scratch buffer alone, allocates no pool, and changes
    no pool object other than the current one. *)
Theorem population_touches_only_current_pool (tid : ThreadId) (r : Request)
    (s s' : World) :
  perform tid r s = Some s' ->
  sameRegistry s s'
  /\ forall b, getCurrentPool tid s <> Some b -> heap s' !! b = heap s !! b.
Proof.
  intros E. destruct (perform_result tid r s s' E) as [-> | (a & pool & pool' & Hc & Hh & ->)].
  - split; [unfold sameRegistry; repeat split|reflexivity].
  - destruct (store_sameRegistry a pool pool' s Hh) as [R F]. split; [exact R|].
    intros b N. apply F. rewrite <- Hc. exact N.
Qed.


(** X4. [addRepeated] looks for the first object, from the front of the
    pool, whose state equals the state derived for the method, and appends
    the method to it: the object keeps its place and its topology, and no
    method is erased.  Only when no object has that state is a new object
    appended. *)
Theorem addRepeated_joins_first_match (tid : ThreadId) (texture : TexturePtr)
    (method : DrawMethod) (drawMode : DrawMode) (s : World) (a : nat) (pool : Pool) :
  getCurrentPool tid s = Some a ->
  heap s !! a = Some pool ->
  let currentState := setTexture (g_painter s) texture in
  let differs := fun o : DrawObject => PainterState_eqb (state o) currentState = false in
  (forall l1 o l2,
      m_objects pool = l1 ++ o :: l2 -> Forall differs l1 ->
      PainterState_eqb (state o) currentState = true ->
      addRepeated tid texture method drawMode s
      = Some (store a
                (setObjects
                   (l1 ++ mkDrawObject _ (state o) (coordsBuffer o) (Pool.drawMode o)
                            (drawMethods o ++ [method]) (action o) :: l2) pool) s))
  /\ (Forall differs (m_objects pool) ->
      addRepeated tid texture method drawMode s
      = Some (store a
                (setObjects
                   (m_objects pool ++ [mkDrawObject _ currentState None drawMode [method] None])
                   pool) s)).
Proof.
  intros Hc Hh currentState differs.
  assert (Hmiss : forall objs, Forall differs objs ->
            appendToFirst (fun o => PainterState_eqb (state o) currentState) method objs = None).
  { intros objs F. induction F as [|o objs E F IH]; simpl; [reflexivity|].
    unfold differs in E. rewrite E, IH. reflexivity. }
  split.
  - intros l1 o l2 Ho F E.
    unfold addRepeated. rewrite Hc. simpl. rewrite Hh. simpl. fold currentState.
    rewrite Ho.
    assert (Hhit : appendToFirst (fun o => PainterState_eqb (state o) currentState) method
                     (l1 ++ o :: l2) = Some (l1 ++ push_back method o :: l2)).
    { clear Ho. induction F as [|x l1 Ex F IH]; simpl.
      - rewrite E. reflexivity.
      - unfold differs in Ex. rewrite Ex, IH. reflexivity. }
    rewrite Hhit. reflexivity.
  - intros F. unfold addRepeated. rewrite Hc. simpl. rewrite Hh. simpl. fold currentState.
    rewrite (Hmiss _ F). reflexivity.
Qed.

End PopulationFacts.

Section HashRunFacts.
Context `{Collaborators}.
Import DrawPool Observe.

Lemma setStatus_id (pf : PoolFramed) : setStatus (m_status pf) pf = pf.
Proof. destruct pf. reflexivity. Qed.

Lemma store_getCurrentPool (tid : ThreadId) (a : nat) (pool : Pool) (s : World) :
  getCurrentPool tid (store a pool s) = getCurrentPool tid s.
Proof. reflexivity. Qed.

(** The hash part of a pool after a run of [add] calls. *)
Lemma addEach_status (tid : ThreadId) (items : list (TexturePtr * DrawMethod * DrawMode)) :
  forall (s s' : World) (a : nat) (pool : Pool) (pf : PoolFramed),
    getCurrentPool tid s = Some a ->
    heap s !! a = Some pool ->
    m_framed pool = Some pf ->
    addEach tid items s = Some s' ->
    sameRegistry s s'
    /\ exists pool',
         heap s' !! a = Some pool'
         /\ m_framed pool'
            = Some (setStatus (fst (m_status pf), hashRun items (snd (m_status pf))) pf).
Proof.
  induction items as [|[[texture method] drawMode] rest IH]; intros s s' a pool pf Hc Hh Hf.
  - simpl. intros [= <-]. split; [unfold sameRegistry; repeat split|].
    exists pool. split; [exact Hh|]. rewrite Hf. f_equal.
    destruct pf as [fb [c h] d sr b af]. reflexivity.
  - simpl. destruct (add tid texture method drawMode s) as [s1|] eqn:Ea; [|discriminate].
    simpl. intros Er.
    pose proof (add_folds_hash tid texture method drawMode s s1 a pool Hc Hh Ea) as Hs.
    destruct (add_result tid texture method drawMode s s1 Ea)
      as (a' & pool0 & pool1 & Hc' & Hh' & ->).
    assert (a' = a) as -> by congruence.
    unfold framedAt in Hs. simpl in Hs.
    rewrite list_lookup_insert_eq in Hs by (eapply lookup_lt_Some; eassumption).
    simpl in Hs. rewrite Hf in Hs. simpl in Hs.
    destruct (IH (store a pool1 s) s' a pool1 (updateHash texture method pf))
      as (R & pool' & Hh2 & Hf2).
    + exact Hc.
    + eapply store_lookup, Hh.
    + exact Hs.
    + exact Er.
    + split.
      * destruct (store_sameRegistry a pool pool1 s Hh) as [R1 _].
        unfold sameRegistry in *. simpl in *.
        destruct R as (r1 & r2 & r3 & r4 & r5 & r6 & r7 & r8).
        destruct R1 as (q1 & q2 & q3 & q4 & q5 & q6 & q7 & q8).
        repeat split; congruence.
      * exists pool'. split; [exact Hh2|]. rewrite Hf2. reflexivity.
Qed.

(** X5. The running hash of a framed pool after any run of [add] calls
    that returns is the fold of the hash function over the textures and
    methods of the calls, in the order of the calls, started from the hash
    before the run: it does not depend on how the methods were batched into
    objects, and a method that a later call erased from the pool still
    counts.  The committed hash is not touched. *)
Theorem addEach_hash_is_fold (tid : ThreadId) (items : list (TexturePtr * DrawMethod * DrawMode))
    (s s' : World) (a : nat) (pool : Pool) (pf : PoolFramed) :
  getCurrentPool tid s = Some a ->
  heap s !! a = Some pool ->
  m_framed pool = Some pf ->
  addEach tid items s = Some s' ->
  exists pf',
    framedAt a (Some s') = Some pf'
    /\ snd (m_status pf') = hashRun items (snd (m_status pf))
    /\ fst (m_status pf') = fst (m_status pf)
    /\ m_framebuffer pf' = m_framebuffer pf.
Proof.
  intros Hc Hh Hf Er.
  destruct (addEach_status tid items s s' a pool pf Hc Hh Hf Er) as (_ & pool' & Hh' & Hf').
  eexists. split.
  - unfold framedAt. simpl. rewrite Hh'. simpl. exact Hf'.
  - simpl. auto.
Qed.

End HashRunFacts.

Section FrameFacts.
Context `{Collaborators}.
Import DrawPool Observe.

(** [drawObject] and the loop over it touch the painter, the trace and the
    scratch buffer only. *)
Lemma drawObject_store (tid : ThreadId) (obj : DrawObject) (s : World) :
  heap (snd (drawObject tid obj s)) = heap s
  /\ m_pools (snd (drawObject tid obj s)) = m_pools s
  /\ m_currentPool (snd (drawObject tid obj s)) = m_currentPool s
  /\ T_CURRENT_POOL (snd (drawObject tid obj s)) = T_CURRENT_POOL s
  /\ m_multiThread (snd (drawObject tid obj s)) = m_multiThread s.
Proof.
  unfold drawObject. destruct (isOnThread tid s).
  - destruct (coordsBuffer obj); simpl; auto.
  - destruct (action obj); [simpl; auto|].
    destruct (drawMethods obj); [simpl; auto|].
    destruct (coordsBuffer obj); simpl; auto.
Qed.

Lemma drawObjects_store (tid : ThreadId) (objs : list DrawObject) (s : World) :
  heap (snd (drawObjects tid objs s)) = heap s
  /\ m_pools (snd (drawObjects tid objs s)) = m_pools s
  /\ m_currentPool (snd (drawObjects tid objs s)) = m_currentPool s
  /\ T_CURRENT_POOL (snd (drawObjects tid objs s)) = T_CURRENT_POOL s
  /\ m_multiThread (snd (drawObjects tid objs s)) = m_multiThread s.
Proof.
  revert s. induction objs as [|o os IH]; intros s; [simpl; auto|].
  simpl. destruct (drawObject tid o s) as [o' s1] eqn:E1.
  destruct (drawObjects tid os s1) as [os' s2] eqn:E2. simpl.
  pose proof (drawObject_store tid o s) as P1. rewrite E1 in P1. simpl in P1.
  pose proof (IH s1) as P2. rewrite E2 in P2. simpl in P2.
  destruct P1 as (a1 & a2 & a3 & a4 & a5), P2 as (b1 & b2 & b3 & b4 & b5).
  repeat split; congruence.
Qed.

(** The closure of [link] run on a framed pool with a run of [add] calls:
    the running hash is restarted and then folds the run; both current-pool
    pointers are null afterwards. *)
Lemma linkAction_status (tid : ThreadId) (a : nat)
    (items : list (TexturePtr * DrawMethod * DrawMode)) (s s' : World)
    (pool : Pool) (pf : PoolFramed) :
  heap s !! a = Some pool ->
  m_framed pool = Some pf ->
  linkAction tid (Some a) (addEach tid items) s = Some s' ->
  exists pool',
    heap s' !! a = Some pool'
    /\ m_framed pool' = Some (setStatus (fst (m_status pf), hashRun items 0) pf).
Proof.
  intros Hh Hf. unfold linkAction. cbv zeta.
  set (sA := if m_multiThread s then setThreadPool tid (Some a) s
             else setCurrentPool (Some a) s).
  assert (HhA : heap sA = heap s) by (unfold sA; destruct (m_multiThread s); reflexivity).
  assert (HcA : getCurrentPool tid sA = Some a).
  { unfold sA, getCurrentPool. destruct (m_multiThread s) eqn:Hm; simpl; rewrite Hm.
    - rewrite Nat.eqb_refl. reflexivity.
    - reflexivity. }
  rewrite HhA, Hh. simpl. unfold isFramed. rewrite Hf, HcA. simpl.
  rewrite ?HhA, ?Hh. simpl. rewrite ?Hf. simpl.
  set (sB := store a (mkPool _ (m_objects pool) (Some (resetCurrentStatus pf))) sA).
  destruct (addEach tid items sB) as [s1|] eqn:Ef; [|discriminate]. simpl.
  destruct (addEach_status tid items sB s1 a
              (mkPool _ (m_objects pool) (Some (resetCurrentStatus pf)))
              (resetCurrentStatus pf)) as (_ & pool1 & Hh1 & Hf1).
  - exact HcA.
  - unfold sB. eapply store_lookup. rewrite HhA. exact Hh.
  - reflexivity.
  - exact Ef.
  - rewrite Hh1. simpl.
    destruct (drawObjects tid (m_objects pool1) s1) as [objs s2] eqn:Ed.
    pose proof (drawObjects_store tid (m_objects pool1) s1) as P. rewrite Ed in P.
    simpl in P. destruct P as (P1 & _).
    intros [= <-]. eexists. split.
    + simpl. apply list_lookup_insert_eq. rewrite P1. eapply lookup_lt_Some, Hh1.
    + simpl. rewrite Hf1. reflexivity.
Qed.

(** After the loop body of [draw] the committed hash of a framed pool with
    a drawable target is its running hash. *)
Lemma drawPool_status (tid : ThreadId) (a : nat) (s s' : World) (pool : Pool)
    (pf : PoolFramed) :
  heap s !! a = Some pool ->
  m_framed pool = Some pf ->
  fb_isDrawable (m_framebuffer pf) = true ->
  drawPool tid (Some a) s = Some s' ->
  exists pool',
    heap s' !! a = Some pool'
    /\ m_framed pool' = Some (setStatus (snd (m_status pf), snd (m_status pf)) pf).
Proof.
  intros Hh Hf Hd. unfold drawPool. simpl. rewrite Hh. simpl. rewrite Hf, Hd.
  assert (La : (a < length (heap s))%nat) by (eapply lookup_lt_Some; eassumption).
  intros [= <-].
  destruct (hasModification pf) eqn:Hm.
  - destruct (drawObjects tid (m_objects pool) _) as [objs s2] eqn:Ed.
    match type of Ed with drawObjects _ _ ?w = _ =>
      pose proof (drawObjects_store tid (m_objects pool) w) as P end.
    rewrite Ed in P. simpl in P. destruct P as (P1 & _).
    match goal with |- context [clearObjects a ?w] => set (s1 := w) end.
    assert (H1 : heap s1 !! a = Some (mkPool _ objs (Some (updateStatus pf)))).
    { unfold s1. destruct (m_beforeDraw pf), (m_afterDraw pf); simpl;
        apply list_lookup_insert_eq; rewrite P1, length_insert; exact La. }
    destruct (clearObjects_lookup a _ s1 H1) as [E1 _].
    eexists. split; [exact E1|]. reflexivity.
  - match goal with |- context [clearObjects a ?w] => set (s1 := w) end.
    assert (H1 : heap s1 !! a = Some pool).
    { unfold s1. destruct (m_beforeDraw pf), (m_afterDraw pf); simpl; exact Hh. }
    destruct (clearObjects_lookup a _ s1 H1) as [E1 _].
    eexists. split; [exact E1|]. simpl. rewrite Hf. f_equal.
    unfold hasModification in Hm. apply negb_false_iff, Z.eqb_eq in Hm.
    destruct pf as [fb [c h] d sr b af]. simpl in Hm. subst c. reflexivity.
Qed.

(** X6. A frame that repeats the previous one is not rendered again.  Let
    the closure of [link] populate a framed pool (drawable target) with a
    run of [add] calls, let [draw] process the pool, and let the closure
    populate it with the same run once more: the pool then shows no
    modification, and the loop body of [draw] only composites the cached
    target - it neither binds the target nor replays an object. *)
Theorem repeated_frame_is_not_rerendered (tid : ThreadId) (a : nat)
    (items : list (TexturePtr * DrawMethod * DrawMode)) (s0 s1 s2 s3 : World)
    (pool : Pool) (pf : PoolFramed) :
  heap s0 !! a = Some pool ->
  m_framed pool = Some pf ->
  fb_isDrawable (m_framebuffer pf) = true ->
  linkAction tid (Some a) (addEach tid items) s0 = Some s1 ->
  drawPool tid (Some a) s1 = Some s2 ->
  linkAction tid (Some a) (addEach tid items) s2 = Some s3 ->
  exists pf3 s4,
    framedAt a (Some s3) = Some pf3
    /\ hasModification pf3 = false
    /\ drawPool tid (Some a) s3 = Some s4
    /\ calls s4
       = calls s3 ++ [SaveAndResetState]
         ++ hookCalls BeforeDraw (m_beforeDraw pf)
         ++ [FbDraw (fb_id (m_framebuffer pf)) (m_dest pf) (m_src pf)]
         ++ hookCalls AfterDraw (m_afterDraw pf)
         ++ [RestoreSavedState].
Proof.
  intros Hh Hf Hd L1 D L2.
  destruct (linkAction_status tid a items s0 s1 pool pf Hh Hf L1) as (p1 & Hh1 & Hf1).
  destruct (drawPool_status tid a s1 s2 p1 _ Hh1 Hf1 Hd D) as (p2 & Hh2 & Hf2).
  destruct (linkAction_status tid a items s2 s3 p2 _ Hh2 Hf2 L2) as (p3 & Hh3 & Hf3).
  simpl in Hf2, Hf3. clear L1 D L2 Hh1 Hf1 Hh2 Hf2 Hh Hf.
  assert (Hdraw : exists s4,
             drawPool tid (Some a) s3 = Some s4
             /\ calls s4
                = calls s3 ++ [SaveAndResetState]
                  ++ hookCalls BeforeDraw (m_beforeDraw pf)
                  ++ [FbDraw (fb_id (m_framebuffer pf)) (m_dest pf) (m_src pf)]
                  ++ hookCalls AfterDraw (m_afterDraw pf)
                  ++ [RestoreSavedState]).
  { unfold drawPool. simpl. rewrite Hh3. simpl. rewrite Hf3. simpl. rewrite Hd.
    unfold hasModification. simpl. rewrite Z.eqb_refl. simpl.
    eexists. split; [reflexivity|].
    match goal with |- context [clearObjects a ?w] => set (w1 := w) end.
    assert (H1 : heap w1 !! a = Some p3).
    { unfold w1. destruct (m_beforeDraw pf), (m_afterDraw pf); simpl; exact Hh3. }
    destruct (clearObjects_lookup a _ w1 H1) as [_ E2]. rewrite E2.
    unfold w1, hookCalls.
    destruct (m_beforeDraw pf), (m_afterDraw pf); simpl; rewrite <- ?app_assoc; reflexivity. }
  destruct Hdraw as (s4 & E4 & C4).
  eexists. exists s4. split; [|split; [|split; assumption]].
  - unfold framedAt. simpl. rewrite Hh3. simpl. exact Hf3.
  - unfold hasModification. simpl. rewrite Z.eqb_refl. reflexivity.
Qed.

End FrameFacts.

Section ObjectFacts.
Context `{Collaborators}.
Import DrawPool Observe.

(** X7. [addTextureCoords] and [addFillCoords] always start a new object at
    the end of the current pool, whatever the state of the object before
    it, and fold the vertex hash of the buffer into the hash of a framed
    pool.  The object carries the caller's buffer: replaying it draws that
    buffer with the requested topology, and on a population thread
    [drawObject] leaves it untouched. *)
Theorem coords_request_starts_object (tid : ThreadId) (coordsBuffer : CoordsBuffer)
    (texture : TexturePtr) (drawMode : DrawMode) (s : World) (a : nat) (pool : Pool) :
  offThread tid s = false ->
  getCurrentPool tid s = Some a ->
  heap s !! a = Some pool ->
  match texture with Some t => tex_isEmpty t | None => false end = false ->
  exists mt mf objT objF,
    intValue mt = getVertexHash coordsBuffer
    /\ intValue mf = getVertexHash coordsBuffer
    /\ addTextureCoords tid coordsBuffer texture drawMode s
       = Some (store a (mkPool _ (m_objects pool ++ [objT])
                          (updateHash texture mt <$> m_framed pool)) s)
    /\ addFillCoords tid coordsBuffer s
       = Some (store a (mkPool _ (m_objects pool ++ [objF])
                          (updateHash None mf <$> m_framed pool)) s)
    /\ replayOf objT
       = [ExecuteState (setTexture (g_painter s) texture); SetTexture texture;
          DrawCoords coordsBuffer drawMode]
    /\ replayOf objF
       = [ExecuteState (g_painter s); SetTexture (Painter.texture (g_painter s));
          DrawCoords coordsBuffer Triangles]
    /\ forall tid' s', isOnThread tid' s' = true ->
         drawObject tid' objT s' = (objT, s') /\ drawObject tid' objF s' = (objF, s').
Proof.
  intros Hoff Hc Hh Ht.
  unfold addTextureCoords, addFillCoords. rewrite Hoff, Ht, Hc. simpl. rewrite Hh. simpl.
  do 4 eexists. split; [|split; [|split; [|split; [|split; [|split]]]]].
  3: { unfold setObjects. rewrite updateHashIfFramed_objects, updateHashIfFramed_framed.
       reflexivity. }
  3: { unfold setObjects. rewrite updateHashIfFramed_objects, updateHashIfFramed_framed.
       reflexivity. }
  - reflexivity.
  - reflexivity.
  - reflexivity.
  - reflexivity.
  - intros tid' s' E. unfold drawObject. rewrite E. simpl. split; reflexivity.
Qed.

(** X8. A method that [add] merges into an object carrying a coordinate
    buffer is not drawn.  If the last object of the pool carries a buffer
    and has the state derived for the new method, the method joins that
    object and the topology becomes triangles; replaying the object still
    draws the buffer it carried, and nothing else. *)
Theorem merge_into_coords_object_draws_buffer (tid : ThreadId) (texture : TexturePtr)
    (method : DrawMethod) (drawMode : DrawMode) (s : World) (a : nat) (pool : Pool)
    (front : list DrawObject) (prevObj : DrawObject) (cb : CoordsBuffer) :
  getCurrentPool tid s = Some a ->
  heap s !! a = Some pool ->
  m_objects pool = front ++ [prevObj] ->
  coordsBuffer prevObj = Some cb ->
  action prevObj = None ->
  PainterState_eqb (state prevObj) (setTexture (g_painter s) texture) = true ->
  Point_isNull (dest method) = true ->
  exists merged,
    objectsAt a (add tid texture method drawMode s) = Some (front ++ [merged])
    /\ drawMethods merged = drawMethods prevObj ++ [method]
    /\ replayOf merged
       = [ExecuteState (state prevObj); SetTexture (Painter.texture (state prevObj));
          DrawCoords cb Triangles].
Proof.
  intros Hc Hh Ho Hb Ha He Hn.
  assert (Hk : (if negb (Point_isNull (dest method))
                then eraseOccluded
                       (occludes
                          (PainterState_eqb (state prevObj)
                             (setTexture (g_painter s) texture))
                          texture prevObj method) (drawMethods prevObj)
                else Some (drawMethods prevObj)) = Some (drawMethods prevObj)).
  { rewrite Hn. reflexivity. }
  rewrite (add_unfold tid texture method drawMode s a pool front prevObj _ Hc Hh Ho Hk).
  rewrite He. eexists. split; [|split].
  - unfold objectsAt. simpl.
    rewrite list_lookup_insert_eq by (eapply lookup_lt_Some; eassumption). reflexivity.
  - reflexivity.
  - unfold replayOf. simpl. rewrite Ha, Hb.
    destruct (drawMethods prevObj); reflexivity.
Qed.

(** X9. Pruning can empty an object without removing it.  If the last
    object holds a single method, the new method has the same explicit
    destination, an opaque texture and another state, and the object's
    texture can be superimposed, then the method is erased, the object
    stays in the pool before the new one, and replaying it asks nothing of
    the painter. *)
Theorem pruning_leaves_empty_object (tid : ThreadId) (t pt : Texture) (method p : DrawMethod)
    (drawMode : DrawMode) (s : World) (a : nat) (pool : Pool)
    (front : list DrawObject) (prevObj : DrawObject) :
  getCurrentPool tid s = Some a ->
  heap s !! a = Some pool ->
  m_objects pool = front ++ [prevObj] ->
  drawMethods prevObj = [p] ->
  action prevObj = None ->
  Painter.texture (state prevObj) = Some pt ->
  PainterState_eqb (state prevObj) (setTexture (g_painter s) (Some t)) = false ->
  Point_isNull (dest method) = false ->
  Point_eqb (dest p) (dest method) = true ->
  tex_isOpaque t = true ->
  tex_canSuperimposed pt = true ->
  exists emptied,
    objectsAt a (add tid (Some t) method drawMode s)
    = Some (front ++ [emptied;
                      mkDrawObject _ (setTexture (g_painter s) (Some t)) None drawMode
                        [method] None])
    /\ drawMethods emptied = []
    /\ state emptied = state prevObj
    /\ replayOf emptied = [].
Proof.
  intros Hc Hh Ho Hm Ha Hpt He Hd Hp Hop Hsup.
  assert (Hk : (if negb (Point_isNull (dest method))
                then eraseOccluded
                       (occludes
                          (PainterState_eqb (state prevObj)
                             (setTexture (g_painter s) (Some t)))
                          (Some t) prevObj method) (drawMethods prevObj)
                else Some (drawMethods prevObj)) = Some []).
  { rewrite Hd, Hm. simpl. rewrite (occludes_total _ _ pt) by assumption.
    unfold occludesWith. rewrite Hp, Hop, Hsup, orb_true_r. reflexivity. }
  rewrite (add_unfold tid (Some t) method drawMode s a pool front prevObj _ Hc Hh Ho Hk).
  rewrite He. eexists. split; [|split; [|split]].
  - unfold objectsAt. simpl.
    rewrite list_lookup_insert_eq by (eapply lookup_lt_Some; eassumption). reflexivity.
  - reflexivity.
  - reflexivity.
  - unfold replayOf. simpl. rewrite Ha. reflexivity.
Qed.

(** X10. On a population thread [drawObject] asks nothing of the painter
    and changes nothing of the registry.  It gives an object without buffer
    the geometry of its methods and leaves a buffer the object has alone;
    called again on its result it changes nothing. *)
Theorem drawObject_on_thread_only_caches (tid : ThreadId) (obj : DrawObject) (s : World) :
  isOnThread tid s = true ->
  snd (drawObject tid obj s) = s
  /\ fst (drawObject tid obj s)
     = mkDrawObject _ (state obj)
         (Some (match coordsBuffer obj with Some cb => cb | None => addCoords obj [] end))
         (drawMode obj) (drawMethods obj) (action obj)
  /\ drawObject tid (fst (drawObject tid obj s)) s = (fst (drawObject tid obj s), s).
Proof.
  intros E. unfold drawObject. rewrite E.
  destruct obj as [st [cb|] mode ms act]; simpl; rewrite ?E; auto.
Qed.

(** [addCoords] appends, method by method, the geometry of each method. *)
Lemma addCoords_concat (obj : DrawObject) (c : CoordsBuffer) :
  addCoords obj c = c ++ concat (methodCoords (drawMode obj) <$> drawMethods obj).
Proof.
  unfold addCoords. revert c.
  induction (drawMethods obj) as [|m ms IH]; intros c.
  - simpl. rewrite app_nil_r. reflexivity.
  - rewrite fmap_cons, concat_cons, app_assoc. cbn [fold_left]. rewrite IH. f_equal.
    unfold methodCoords.
    destruct (type m); try reflexivity; try (destruct (drawMode obj); reflexivity).
    + rewrite app_nil_r. reflexivity.
    + rewrite app_nil_r. reflexivity.
    + destruct (points m) as [[p0 p1] p2]. reflexivity.
Qed.

(** X11. [addCoords] only appends to the buffer it is given: what the
    buffer held stays in front.  It appends one primitive for every method
    of the object other than the two coordinate-buffer kinds, which
    contribute nothing; for an object drawn as triangles none of the
    primitives is a quad. *)
Theorem addCoords_appends_geometry (obj : DrawObject) (c : CoordsBuffer) :
  addCoords obj c = c ++ addCoords obj []
  /\ length (addCoords obj [])
     = length (filter (fun m => drawsGeometry m = true) (drawMethods obj))
  /\ Forall (fun op => drawMode obj = Triangles -> isQuad op = false) (addCoords obj []).
Proof.
  rewrite (addCoords_concat obj c), (addCoords_concat obj []). simpl.
  split; [reflexivity|].
  induction (drawMethods obj) as [|m ms [IHl IHq]]; [split; [reflexivity|constructor]|].
  rewrite fmap_cons, concat_cons, length_app. split.
  - rewrite IHl. unfold methodCoords, drawsGeometry.
    destruct (type m) eqn:Et;
      first [ rewrite filter_cons_False by (rewrite Et; discriminate); reflexivity
            | rewrite filter_cons_True by (rewrite Et; reflexivity);
              destruct (drawMode obj); reflexivity ].
  - apply Forall_app. split; [|exact IHq].
    unfold methodCoords.
    destruct (type m); try (constructor; [|constructor]); try constructor;
      try (intros _; reflexivity).
    + destruct (drawMode obj); constructor; try constructor;
        first [intros _; reflexivity | discriminate].
    + destruct (drawMode obj); constructor; try constructor;
        first [intros _; reflexivity | discriminate].
    + destruct (drawMode obj); constructor; try constructor;
        first [intros _; reflexivity | discriminate].
Qed.

End ObjectFacts.

Section LoopFacts.
Context `{Collaborators}.
Import DrawPool Observe.

Section Body.
Variable body : PoolPtr -> World -> option World.
Hypothesis body_null : forall s, body None s = None.
Hypothesis body_dangling : forall a s, heap s !! a = None -> body (Some a) s = None.
Hypothesis body_keeps :
  forall p s s', body p s = Some s' ->
    m_pools s' = m_pools s /\ length (heap s') = length (heap s).

(** A loop over the slots fails when it meets a slot that is null or
    points outside the store. *)
Lemma forEachPool_fails (types : list PoolType) :
  forall s t,
    t ∈ types ->
    (m_pools s t = None \/ exists a, m_pools s t = Some a /\ heap s !! a = None) ->
    forEachPool body types s = None.
Proof.
  induction types as [|t0 ts IH]; intros s t Hin Hbad.
  - apply elem_of_nil in Hin. destruct Hin.
  - simpl. destruct (body (m_pools s t0) s) as [s'|] eqn:E; [|reflexivity]. simpl.
    apply elem_of_cons in Hin. destruct Hin as [-> | Hin].
    + destruct Hbad as [Hn | (a & Ha & Hh)].
      * rewrite Hn, body_null in E. discriminate.
      * rewrite Ha, (body_dangling a s Hh) in E. discriminate.
    + destruct (body_keeps _ _ _ E) as [Kp Kl].
      apply (IH s' t Hin). rewrite Kp.
      destruct Hbad as [Hn | (a & Ha & Hh)]; [left; exact Hn|].
      right. exists a. split; [exact Ha|].
      apply lookup_ge_None. rewrite Kl. apply lookup_ge_None. exact Hh.
Qed.

End Body.

Lemma join_keeps (p : PoolPtr) (s s' : World) :
  join p s = Some s' ->
  m_pools s' = m_pools s /\ heap s' = heap s /\ exists a, p = Some a /\ calls s' = calls s ++ [Join a].
Proof.
  unfold join. destruct p as [a|]; [|discriminate]. simpl.
  destruct (heap s !! a); [|discriminate]. simpl. intros [= <-]. eauto.
Qed.

Lemma clearObjects_other (a b : nat) (s : World) :
  a <> b -> heap (clearObjects a s) !! b = heap s !! b.
Proof.
  intros N. unfold clearObjects. destruct (heap s !! a); [|reflexivity].
  simpl. apply list_lookup_insert_ne. exact N.
Qed.

Lemma clearObjects_length (a : nat) (s : World) :
  length (heap (clearObjects a s)) = length (heap s).
Proof.
  unfold clearObjects. destruct (heap s !! a); [|reflexivity].
  simpl. apply length_insert.
Qed.

Lemma drawPool_shape (tid : ThreadId) (a : nat) (pool : Pool) (s : World) :
  heap s !! a = Some pool ->
  drawPool tid (Some a) s = Some (clearObjects a (drawPoolBody tid a pool s)).
Proof. intros E. unfold drawPool, drawPoolBody. simpl. rewrite E. reflexivity. Qed.

Lemma emitOpt_store (mk : ActionId -> Call) (h : option ActionId) (s : World) :
  heap (emitOpt mk h s) = heap s
  /\ m_pools (emitOpt mk h s) = m_pools s
  /\ m_currentPool (emitOpt mk h s) = m_currentPool s
  /\ T_CURRENT_POOL (emitOpt mk h s) = T_CURRENT_POOL s
  /\ m_multiThread (emitOpt mk h s) = m_multiThread s
  /\ calls (emitOpt mk h s) = calls s ++ hookCalls mk h.
Proof. destruct h; simpl; rewrite ?app_nil_r; repeat split; reflexivity. Qed.

(** What the loop body of [draw] does to the store and to the slots: only
    the pool object it works on can change, and it stays a pool of the same
    kind. *)
Lemma drawPoolBody_store (tid : ThreadId) (a : nat) (pool : Pool) (s : World) :
  heap s !! a = Some pool ->
  m_pools (drawPoolBody tid a pool s) = m_pools s
  /\ m_currentPool (drawPoolBody tid a pool s) = m_currentPool s
  /\ T_CURRENT_POOL (drawPoolBody tid a pool s) = T_CURRENT_POOL s
  /\ m_multiThread (drawPoolBody tid a pool s) = m_multiThread s
  /\ length (heap (drawPoolBody tid a pool s)) = length (heap s)
  /\ (forall b, a <> b -> heap (drawPoolBody tid a pool s) !! b = heap s !! b)
  /\ exists p1, heap (drawPoolBody tid a pool s) !! a = Some p1
               /\ isFramed p1 = isFramed pool.
Proof.
  intros Hh.
  assert (La : (a < length (heap s))%nat) by (eapply lookup_lt_Some; eassumption).
  unfold drawPoolBody. destruct (m_framed pool) as [pf|] eqn:Hf.
  - cbv zeta. destruct (fb_isDrawable (m_framebuffer pf)).
    + destruct (hasModification pf).
      * destruct (drawObjects tid (m_objects pool) _) as [objs s2] eqn:Ed.
        match type of Ed with drawObjects _ _ ?w = _ =>
          pose proof (drawObjects_store tid (m_objects pool) w) as P end.
        rewrite Ed in P. simpl in P. destruct P as (P1 & P2 & P3 & P4 & P5).
        destruct (m_beforeDraw pf), (m_afterDraw pf); simpl;
          rewrite ?P1, ?P2, ?P3, ?P4, ?P5, ?length_insert;
          (repeat split; try reflexivity);
          try (intros b N; rewrite !list_lookup_insert_ne by exact N; reflexivity);
          (eexists; split;
           [apply list_lookup_insert_eq; rewrite length_insert; exact La
           | unfold isFramed; simpl; rewrite Hf; reflexivity]).
      * destruct (m_beforeDraw pf), (m_afterDraw pf); simpl;
          (repeat split; try reflexivity); exists pool; split; auto.
    + repeat split; try reflexivity. exists pool. split; auto.
  - destruct (drawObjects tid (m_objects pool) s) as [objs s2] eqn:Ed.
    pose proof (drawObjects_store tid (m_objects pool) s) as P.
    rewrite Ed in P. simpl in P. destruct P as (P1 & P2 & P3 & P4 & P5).
    set (w := store a (setObjects objs pool) s2).
    assert (Hw : heap w !! a = Some (setObjects objs pool)).
    { unfold w. simpl. apply list_lookup_insert_eq. rewrite P1. exact La. }
    unfold clearObjects. rewrite Hw. simpl.
    rewrite ?P1, ?P2, ?P3, ?P4, ?P5, ?length_insert.
    repeat split; try reflexivity.
    + intros b N. rewrite !list_lookup_insert_ne by exact N. reflexivity.
    + eexists. split.
      * apply list_lookup_insert_eq. rewrite length_insert. exact La.
      * unfold isFramed. simpl. rewrite Hf. reflexivity.
Qed.

Lemma drawPool_frame (tid : ThreadId) (a : nat) (pool : Pool) (s : World) :
  heap s !! a = Some pool ->
  exists s',
    drawPool tid (Some a) s = Some s'
    /\ m_pools s' = m_pools s
    /\ m_multiThread s' = m_multiThread s
    /\ length (heap s') = length (heap s)
    /\ (forall b, a <> b -> heap s' !! b = heap s !! b)
    /\ exists p1, heap s' !! a = Some p1 /\ m_objects p1 = []
                 /\ isFramed p1 = isFramed pool.
Proof.
  intros Hh. eexists. split; [apply drawPool_shape, Hh|].
  destruct (drawPoolBody_store tid a pool s Hh) as (B1 & _ & _ & B4 & B5 & B6 & p1 & Hp & Hfr).
  destruct (clearObjects_fields a (drawPoolBody tid a pool s)) as (_ & _ & C3).
  split; [rewrite C3; exact B1|].
  split; [unfold clearObjects; rewrite Hp; exact B4|].
  split; [rewrite clearObjects_length; exact B5|].
  split; [intros b N; rewrite clearObjects_other by exact N; apply B6, N|].
  destruct (clearObjects_lookup a p1 _ Hp) as [E _].
  eexists. split; [exact E|]. split; [reflexivity|exact Hfr].
Qed.

End LoopFacts.

Section DrawWholeFacts.
Context `{Collaborators}.
Import DrawPool Observe.

Lemma drawObject_calls (tid : ThreadId) (obj : DrawObject) (s : World) :
  exists cs, calls (snd (drawObject tid obj s)) = calls s ++ cs
             /\ Forall (fun c => isJoin c = false) cs.
Proof.
  unfold drawObject. destruct (isOnThread tid s).
  - exists []. rewrite app_nil_r. split; [destruct (coordsBuffer obj); reflexivity|constructor].
  - destruct (action obj) as [act|].
    + exists [RunAction act]. split; [reflexivity|repeat constructor].
    + destruct (drawMethods obj).
      * exists []. rewrite app_nil_r. split; [reflexivity|constructor].
      * destruct (coordsBuffer obj); simpl; eexists;
          (split; [rewrite <- !app_assoc; reflexivity|repeat constructor]).
Qed.

Lemma drawObjects_calls (tid : ThreadId) (objs : list DrawObject) (s : World) :
  exists cs, calls (snd (drawObjects tid objs s)) = calls s ++ cs
             /\ Forall (fun c => isJoin c = false) cs.
Proof.
  revert s. induction objs as [|o os IH]; intros s.
  - exists []. rewrite app_nil_r. split; [reflexivity|constructor].
  - simpl. destruct (drawObject_calls tid o s) as (c1 & E1 & F1).
    destruct (drawObject tid o s) as [o' s1]. simpl in E1.
    destruct (IH s1) as (c2 & E2 & F2).
    destruct (drawObjects tid os s1) as [os' s2]. simpl in *.
    exists (c1 ++ c2). rewrite E2, E1, app_assoc. split; [reflexivity|].
    apply Forall_app. split; assumption.
Qed.

Lemma drawPoolBody_calls (tid : ThreadId) (a : nat) (pool : Pool) (s : World) :
  exists cs, calls (clearObjects a (drawPoolBody tid a pool s)) = calls s ++ cs
             /\ Forall (fun c => isJoin c = false) cs.
Proof.
  assert (Hclear : forall w, calls (clearObjects a w) = calls w).
  { intros w. unfold clearObjects. destruct (heap w !! a); reflexivity. }
  rewrite Hclear. unfold drawPoolBody. destruct (m_framed pool) as [pf|].
  - cbv zeta. destruct (fb_isDrawable (m_framebuffer pf)).
    + destruct (hasModification pf).
      * match goal with |- context [drawObjects tid ?o ?w] =>
          destruct (drawObjects_calls tid o w) as (cs & E & F);
          destruct (drawObjects tid o w) as [objs s2] end.
        simpl in E.
        destruct (m_beforeDraw pf), (m_afterDraw pf); simpl; rewrite E; eexists;
          (split; [rewrite <- !app_assoc; reflexivity|]);
          repeat (apply Forall_cons; split; [reflexivity|]);
          (apply Forall_app; split; [exact F|repeat constructor]).
      * destruct (m_beforeDraw pf), (m_afterDraw pf); simpl; eexists;
          (split; [rewrite <- !app_assoc; reflexivity|repeat constructor]).
    + exists []. rewrite app_nil_r. split; [reflexivity|constructor].
  - destruct (drawObjects_calls tid (m_objects pool) s) as (cs & E & F).
    destruct (drawObjects tid (m_objects pool) s) as [objs s2]. simpl in E.
    rewrite Hclear. simpl. exists cs. split; assumption.
Qed.

Lemma drawPool_null (tid : ThreadId) (s : World) : drawPool tid None s = None.
Proof. reflexivity. Qed.

Lemma drawPool_dangling (tid : ThreadId) (a : nat) (s : World) :
  heap s !! a = None -> drawPool tid (Some a) s = None.
Proof. intros E. unfold drawPool. simpl. rewrite E. reflexivity. Qed.

Lemma drawPool_keeps (tid : ThreadId) (p : PoolPtr) (s s' : World) :
  drawPool tid p s = Some s' ->
  m_pools s' = m_pools s /\ length (heap s') = length (heap s).
Proof.
  destruct p as [a|]; [|discriminate].
  destruct (heap s !! a) as [pool|] eqn:E; [|rewrite drawPool_dangling by exact E; discriminate].
  destruct (drawPool_frame tid a pool s E) as (s1 & D & K1 & _ & K2 & _).
  rewrite D. intros [= <-]. split; assumption.
Qed.

Lemma join_null (s : World) : join None s = None.
Proof. reflexivity. Qed.

Lemma join_dangling (a : nat) (s : World) : heap s !! a = None -> join (Some a) s = None.
Proof. intros E. unfold join. simpl. rewrite E. reflexivity. Qed.

Lemma join_keeps_slots (p : PoolPtr) (s s' : World) :
  join p s = Some s' -> m_pools s' = m_pools s /\ length (heap s') = length (heap s).
Proof.
  intros E. destruct (join_keeps p s s' E) as (K1 & K2 & _). rewrite K2. auto.
Qed.

(** The first loop of [draw] on a registry all of whose slots are valid. *)
Lemma joins_run (types : list PoolType) :
  forall s, slotsValid s ->
    exists s', forEachPool join types s = Some s'
               /\ heap s' = heap s /\ m_pools s' = m_pools s
               /\ m_multiThread s' = m_multiThread s
               /\ calls s' = calls s ++ (Join <$> omap (m_pools s) types).
Proof.
  induction types as [|t ts IH]; intros s V.
  - exists s. simpl. rewrite app_nil_r. auto.
  - destruct (V t) as (a & Ha & [pool Hp]).
    simpl. rewrite Ha. unfold join at 1. simpl. rewrite Hp. simpl.
    destruct (IH (emit (Join a) s)) as (s' & E & K1 & K2 & K3 & K4).
    + intros t'. exact (V t').
    + exists s'. split; [exact E|]. rewrite K1, K2, K3, K4. simpl.
      rewrite <- app_assoc. auto.
Qed.

(** The second loop of [draw] on a registry all of whose slots are valid. *)
Lemma pools_run (tid : ThreadId) (types : list PoolType) :
  forall s, slotsValid s ->
    exists s', forEachPool (drawPool tid) types s = Some s'
               /\ m_pools s' = m_pools s
               /\ slotsValid s'
               /\ (forall b, emptyAt b s -> emptyAt b s')
               /\ (forall t a, t ∈ types -> m_pools s t = Some a -> emptyAt a s')
               /\ exists cs, calls s' = calls s ++ cs
                             /\ Forall (fun c => isJoin c = false) cs.
Proof.
  induction types as [|t ts IH]; intros s V.
  - exists s. simpl. split; [reflexivity|]. split; [reflexivity|]. split; [exact V|].
    split; [auto|]. split; [intros t a Hin; apply elem_of_nil in Hin; destruct Hin|].
    exists []. rewrite app_nil_r. split; [reflexivity|constructor].
  - destruct (V t) as (a & Ha & [pool Hp]).
    destruct (drawPool_frame tid a pool s Hp) as (s1 & D & K1 & K2 & K3 & K4 & p1 & Hp1 & He & _).
    assert (V1 : slotsValid s1).
    { intros t'. destruct (V t') as (a' & Ha' & S'). exists a'. rewrite K1.
      split; [exact Ha'|]. apply lookup_lt_is_Some. rewrite K3.
      apply lookup_lt_is_Some. exact S'. }
    assert (Hkeep : forall b, emptyAt b s -> emptyAt b s1).
    { intros b (pb & Hb & Eb). destruct (decide (a = b)) as [<- | N].
      - exists p1. split; assumption.
      - exists pb. split; [rewrite K4 by exact N; exact Hb|exact Eb]. }
    destruct (IH s1 V1) as (s' & E & M & V' & Hk & Ht & cs & Ec & Fc).
    exists s'. simpl. rewrite Ha, D. simpl.
    split; [exact E|]. split; [rewrite M; exact K1|]. split; [exact V'|].
    split; [intros b Eb; apply Hk, Hkeep, Eb|]. split.
    + intros t' a' Hin Ha'. apply elem_of_cons in Hin. destruct Hin as [-> | Hin].
      * assert (a' = a) as -> by congruence. apply Hk. exists p1. split; assumption.
      * apply (Ht t' a' Hin). rewrite K1. exact Ha'.
    + pose proof (drawPool_shape tid a pool s Hp) as Sh. rewrite D in Sh.
      injection Sh as ->.
      destruct (drawPoolBody_calls tid a pool s) as (c1 & E1 & F1).
      exists (c1 ++ cs). rewrite Ec, E1, app_assoc. split; [reflexivity|].
      apply Forall_app. split; assumption.
Qed.

Lemma PoolType_all_complete (t : PoolType) : t ∈ PoolType_all.
Proof. unfold PoolType_all. destruct t; repeat (constructor; try fail). Qed.

(** X12. [draw] reads through every slot of [m_pools]: it is undefined as
    soon as one pool type has no pool (a null slot, as after [terminate], or
    a pointer outside the store).  When every slot holds a pool it returns,
    leaves the slots as they are, and every registered pool - plain or
    framed, drawn or not - ends with an empty object list. *)
Theorem draw_needs_every_slot_and_empties_pools (tid : ThreadId) (s : World) :
  (forall t,
      m_pools s t = None \/ (exists a, m_pools s t = Some a /\ heap s !! a = None) ->
      draw tid s = None)
  /\ (slotsValid s ->
      exists s',
        draw tid s = Some s'
        /\ m_pools s' = m_pools s
        /\ forall t a, m_pools s t = Some a -> emptyAt a s').
Proof.
  split.
  - intros t Hbad. unfold draw. destruct (multiThreadEnabled s).
    + rewrite (forEachPool_fails join join_null join_dangling join_keeps_slots
                 PoolType_all s t (PoolType_all_complete t) Hbad). reflexivity.
    + simpl.
      apply (forEachPool_fails (drawPool tid) (drawPool_null tid) (drawPool_dangling tid)
               (drawPool_keeps tid) PoolType_all s t (PoolType_all_complete t) Hbad).
  - intros V. unfold draw.
    assert (Hj : exists s1,
               (if multiThreadEnabled s then forEachPool join PoolType_all s else Some s)
               = Some s1 /\ heap s1 = heap s /\ m_pools s1 = m_pools s).
    { destruct (multiThreadEnabled s).
      - destruct (joins_run PoolType_all s V) as (s1 & E & K1 & K2 & _). eauto.
      - eauto. }
    destruct Hj as (s1 & -> & K1 & K2). simpl.
    assert (V1 : slotsValid s1).
    { intros t. destruct (V t) as (a & Ha & S). exists a. rewrite K1, K2. auto. }
    destruct (pools_run tid PoolType_all s1 V1) as (s' & E & M & _ & _ & Ht & _).
    exists s'. split; [exact E|]. split; [rewrite M; exact K2|].
    intros t a Ha. apply (Ht t a (PoolType_all_complete t)). rewrite K2. exact Ha.
Qed.

(** X13. In multithreaded mode [draw] joins the worker of every pool, in
    the order of the slots, before it asks anything of the painter or a
    frame buffer; in single-threaded mode it joins nothing. *)
Theorem draw_joins_before_drawing (tid : ThreadId) (s : World) :
  slotsValid s ->
  exists s' rest,
    draw tid s = Some s'
    /\ calls s'
       = calls s
         ++ (if multiThreadEnabled s then Join <$> omap (m_pools s) PoolType_all else [])
         ++ rest
    /\ Forall (fun c => isJoin c = false) rest.
Proof.
  intros V. unfold draw. destruct (multiThreadEnabled s).
  - destruct (joins_run PoolType_all s V) as (s1 & E & K1 & K2 & _ & K4).
    rewrite E. simpl.
    assert (V1 : slotsValid s1).
    { intros t. destruct (V t) as (a & Ha & S). exists a. rewrite K1, K2. auto. }
    destruct (pools_run tid PoolType_all s1 V1) as (s' & E' & _ & _ & _ & _ & cs & Ec & Fc).
    exists s', cs. split; [exact E'|]. split; [|exact Fc].
    rewrite Ec, K4, <- app_assoc. reflexivity.
  - simpl. destruct (pools_run tid PoolType_all s V) as (s' & E' & _ & _ & _ & _ & cs & Ec & Fc).
    exists s', cs. split; [exact E'|]. split; [exact Ec|exact Fc].
Qed.

(** X14. The loop body of [draw] on a framed pool whose render target is
    not drawable: the objects of the pool are discarded without being
    replayed, nothing is asked of the painter or the target, and the hash
    is not committed, so a pool that showed a modification still shows
    it. *)
Theorem drawPool_undrawable_discards (tid : ThreadId) (s : World) (a : nat)
    (pool : Pool) (pf : PoolFramed) :
  heap s !! a = Some pool ->
  m_framed pool = Some pf ->
  fb_isDrawable (m_framebuffer pf) = false ->
  exists s',
    drawPool tid (Some a) s = Some s'
    /\ calls s' = calls s
    /\ g_painter s' = g_painter s
    /\ heap s' !! a = Some (mkPool _ [] (Some pf)).
Proof.
  intros Hh Hf Hd. eexists. split; [apply drawPool_shape, Hh|].
  unfold drawPoolBody. rewrite Hf. cbv zeta. rewrite Hd.
  destruct (clearObjects_lookup a pool s Hh) as [E1 E2].
  split; [exact E2|]. split.
  - unfold clearObjects. rewrite Hh. reflexivity.
  - rewrite E1. unfold setObjects. rewrite Hf. reflexivity.
Qed.

(** X15. The loop body of [draw] on a plain pool, on the thread that owns
    the registry: every object is replayed in order, straight to the
    painter - no state is saved, no target bound, nothing composited - and
    the pool is emptied; this happens on every [draw], whether the content
    changed or not. *)
Theorem drawPool_plain_replays (tid : ThreadId) (s : World) (a : nat) (pool : Pool) :
  heap s !! a = Some pool ->
  m_framed pool = None ->
  isOnThread tid s = false ->
  m_coordsbuffer s = [] ->
  exists s',
    drawPool tid (Some a) s = Some s'
    /\ calls s' = calls s ++ concat (replayOf <$> m_objects pool)
    /\ heap s' !! a = Some (mkPool _ [] None).
Proof.
  intros Hh Hf Ht Hb. eexists. split; [apply drawPool_shape, Hh|].
  unfold drawPoolBody. rewrite Hf. rewrite drawObjects_replays by assumption.
  set (w := store a (setObjects (m_objects pool) pool)
              (emitAll (concat (replayOf <$> m_objects pool)) s)).
  assert (Hw : heap w !! a = Some (setObjects (m_objects pool) pool)).
  { unfold w. simpl. rewrite emitAll_heap. apply list_lookup_insert_eq.
    eapply lookup_lt_Some, Hh. }
  destruct (clearObjects_lookup a _ w Hw) as [E1 E2].
  destruct (clearObjects_lookup a _ (clearObjects a w) E1) as [E3 E4].
  split.
  - rewrite E4, E2. unfold w. simpl. apply emitAll_calls.
  - rewrite E3. unfold setObjects. simpl. rewrite Hf. reflexivity.
Qed.

End DrawWholeFacts.

Section CreationRunFacts.
Context `{Collaborators}.
Import DrawPool Observe.

Lemma PoolType_elem_dec (t : PoolType) (l : list PoolType) : t ∈ l \/ t ∉ l.
Proof.
  induction l as [|x l IH].
  - right. apply not_elem_of_nil.
  - destruct (PoolType_eqb t x) eqn:E.
    + apply PoolType_eqb_eq in E. subst. left. left.
    + destruct IH as [Hin | Hout]; [left; right; exact Hin|].
      right. intros Hc. apply elem_of_cons in Hc. destruct Hc as [-> | Hc]; [|auto].
      assert (PoolType_eqb x x = true) by (apply PoolType_eqb_eq; reflexivity).
      congruence.
Qed.

(** One creation: a pool without objects at the end of the store, the slot
    of the type pointing to it. *)
Lemma create_step (type : PoolType) (target : option FrameBuffer) (s : World) :
  (exists pool, heap (create type target s) = heap s ++ [pool] /\ m_objects pool = [])
  /\ (forall t, m_pools (create type target s) t
                = if PoolType_eqb t type then Some (length (heap s)) else m_pools s t)
  /\ m_currentPool (create type target s) = m_currentPool s
  /\ T_CURRENT_POOL (create type target s) = T_CURRENT_POOL s
  /\ calls (create type target s) = calls s.
Proof.
  destruct target as [fb|]; simpl; (split; [eexists; split; reflexivity|]); auto.
Qed.

Lemma createEach_keeps (reqs : list (PoolType * option FrameBuffer)) :
  forall s,
    (forall b pool, heap s !! b = Some pool -> heap (createEach reqs s) !! b = Some pool)
    /\ m_currentPool (createEach reqs s) = m_currentPool s
    /\ T_CURRENT_POOL (createEach reqs s) = T_CURRENT_POOL s
    /\ calls (createEach reqs s) = calls s
    /\ (forall t, t ∉ fst <$> reqs -> m_pools (createEach reqs s) t = m_pools s t).
Proof.
  induction reqs as [|[type target] rest IH]; intros s; [simpl; auto|].
  destruct (create_step type target s) as ((pool & Hh & _) & Hp & Hc & Ht & Hk).
  destruct (IH (create type target s)) as (Ih & Ic & It & Ik & Ip).
  simpl createEach. split; [|split; [|split; [|split]]].
  - intros b p0 E. apply Ih. rewrite Hh. apply lookup_app_l_Some. exact E.
  - rewrite Ic. exact Hc.
  - rewrite It. exact Ht.
  - rewrite Ik. exact Hk.
  - intros t Hout. rewrite fmap_cons in Hout. simpl in Hout.
    apply not_elem_of_cons in Hout as [Hne Hout].
    rewrite (Ip t Hout), Hp, (PoolType_eqb_neq t type Hne). reflexivity.
Qed.

Lemma createEach_slot (reqs : list (PoolType * option FrameBuffer)) :
  forall s t,
    t ∈ fst <$> reqs ->
    exists a, m_pools (createEach reqs s) t = Some a
              /\ is_Some (heap (createEach reqs s) !! a).
Proof.
  induction reqs as [|[type target] rest IH]; intros s t Hin.
  - apply elem_of_nil in Hin. destruct Hin.
  - simpl createEach.
    destruct (PoolType_elem_dec t (fst <$> rest)) as [Hrest | Hout].
    + apply IH. exact Hrest.
    + rewrite fmap_cons in Hin. simpl in Hin.
      apply elem_of_cons in Hin. destruct Hin as [-> | Hin]; [|contradiction].
      destruct (create_step type target s) as ((pool & Hh & _) & Hp & _).
      destruct (createEach_keeps rest (create type target s)) as (Ih & _ & _ & _ & Ip).
      exists (length (heap s)). rewrite (Ip type Hout), Hp.
      assert (PoolType_eqb type type = true) as -> by (apply PoolType_eqb_eq; reflexivity).
      split; [reflexivity|]. exists pool. apply Ih. rewrite Hh.
      rewrite lookup_app_r by lia. rewrite Nat.sub_diag. reflexivity.
Qed.

(** [draw] on a registry all of whose slots are valid. *)
Lemma draw_defined (tid : ThreadId) (s : World) :
  slotsValid s ->
  exists s', draw tid s = Some s'
             /\ m_pools s' = m_pools s
             /\ forall t a, m_pools s t = Some a -> emptyAt a s'.
Proof.
  intros V. unfold draw.
  assert (Hj : exists s1,
             (if multiThreadEnabled s then forEachPool join PoolType_all s else Some s)
             = Some s1 /\ heap s1 = heap s /\ m_pools s1 = m_pools s).
  { destruct (multiThreadEnabled s).
    - destruct (joins_run PoolType_all s V) as (s1 & E & K1 & K2 & _). eauto.
    - eauto. }
  destruct Hj as (s1 & -> & K1 & K2). simpl.
  assert (V1 : slotsValid s1).
  { intros t. destruct (V t) as (a & Ha & S). exists a. rewrite K1, K2. auto. }
  destruct (pools_run tid PoolType_all s1 V1) as (s' & E & M & _ & _ & Ht & _).
  exists s'. split; [exact E|]. split; [rewrite M; exact K2|].
  intros t a Ha. apply (Ht t a (PoolType_all_complete t)). rewrite K2. exact Ha.
Qed.

(** [draw] on a registry with a null slot. *)
Lemma draw_undefined (tid : ThreadId) (s : World) (t : PoolType) :
  m_pools s t = None -> draw tid s = None.
Proof.
  intros Hn. unfold draw. destruct (multiThreadEnabled s).
  - rewrite (forEachPool_fails join join_null join_dangling join_keeps_slots
               PoolType_all s t (PoolType_all_complete t) (or_introl Hn)). reflexivity.
  - simpl.
    apply (forEachPool_fails (drawPool tid) (drawPool_null tid) (drawPool_dangling tid)
             (drawPool_keeps tid) PoolType_all s t (PoolType_all_complete t) (or_introl Hn)).
Qed.

(** X1. [draw] can run once a pool has been created for every pool type,
    and not before.  After [terminate] and a run of [createPool] and
    [createPoolF] requests, in any order and with repetitions, [draw]
    returns if every pool type is among the requests, and is undefined if
    one is missing.  When it returns, every slot holds a pool without
    objects.  On any registry, the requests leave the pool objects already
    in the store and the current-pool pointers as they were and ask nothing
    of the painter, so a pool that is being populated stays the current
    pool even when the slot of its type is given a new pool. *)
Theorem created_pools_make_draw_defined (tid owner : ThreadId)
    (reqs : list (PoolType * option FrameBuffer)) (s : World) :
  let ready := createEach reqs (terminate owner s) in
  ((forall t, t ∈ fst <$> reqs) ->
   exists s', draw tid ready = Some s'
              /\ forall t, exists a, m_pools s' t = Some a /\ emptyAt a s')
  /\ (forall t, t ∉ fst <$> reqs -> draw tid ready = None)
  /\ ((forall b pool, heap s !! b = Some pool -> heap (createEach reqs s) !! b = Some pool)
      /\ getCurrentPool tid (createEach reqs s) = getCurrentPool tid s
      /\ calls (createEach reqs s) = calls s).
Proof.
  intros ready. split; [|split].
  - intros Hall.
    assert (V : slotsValid ready).
    { intros t. apply createEach_slot, Hall. }
    destruct (draw_defined tid ready V) as (s' & Hd & Hp & He).
    exists s'. split; [exact Hd|].
    intros t. destruct (V t) as (a & Ha & _). exists a.
    split; [rewrite Hp; exact Ha|]. exact (He t a Ha).
  - intros t Hout. apply (draw_undefined tid ready t).
    destruct (createEach_keeps reqs (terminate owner s)) as (_ & _ & _ & _ & Ip).
    unfold ready. rewrite (Ip t Hout). reflexivity.
  - destruct (createEach_keeps reqs s) as (Ih & Ic & It & Ik & _).
    split; [exact Ih|]. split; [|exact Ik].
    unfold getCurrentPool. rewrite Ic, It.
    assert (Hm : forall rs w, m_multiThread (createEach rs w) = m_multiThread w).
    { induction rs as [|[ty tg] rs IHr]; intros w; [reflexivity|].
      simpl. rewrite IHr. destruct tg; reflexivity. }
    rewrite Hm. reflexivity.
Qed.

End CreationRunFacts.


Section LinkFacts.
Context `{Collaborators}.
Import DrawPool Observe.

Lemma drawObjects_on_thread (tid : ThreadId) (objs : list DrawObject) (s : World) :
  isOnThread tid s = true -> drawObjects tid objs s = (cached <$> objs, s).
Proof.
  intros E. induction objs as [|o os IH]; [reflexivity|].
  simpl. unfold drawObject at 1. rewrite E.
  destruct o as [st [cb|] mode ms act]; simpl; rewrite IH; reflexivity.
Qed.

(** The closure of [link], opened up. *)
Lemma linkAction_inv (tid : ThreadId) (a : nat) (f : World -> option World)
    (s s' : World) (p0 : Pool) :
  heap s !! a = Some p0 ->
  linkAction tid (Some a) f s = Some s' ->
  exists s1 p1,
    f (populationState tid a p0 s) = Some s1
    /\ heap s1 !! a = Some p1
    /\ s' = setThreadPool tid None
              (setCurrentPool None
                 (store a (setObjects (fst (drawObjects tid (m_objects p1) s1)) p1)
                    (snd (drawObjects tid (m_objects p1) s1)))).
Proof.
  intros Hh. unfold linkAction, populationState. cbv zeta.
  set (sA := if m_multiThread s then setThreadPool tid (Some a) s
             else setCurrentPool (Some a) s).
  assert (HhA : heap sA = heap s) by (unfold sA; destruct (m_multiThread s); reflexivity).
  assert (HcA : getCurrentPool tid sA = Some a).
  { unfold sA, getCurrentPool. destruct (m_multiThread s) eqn:Hm; simpl; rewrite Hm.
    - rewrite Nat.eqb_refl. reflexivity.
    - reflexivity. }
  rewrite HhA, Hh. simpl. unfold isFramed.
  destruct (m_framed p0) as [pf|] eqn:Hf.
  - rewrite HcA. simpl. rewrite ?HhA, ?Hh. simpl. rewrite ?Hf. simpl.
    destruct (f _) as [s1|]; [|discriminate]. simpl.
    destruct (heap s1 !! a) as [p1|] eqn:H1; [|discriminate]. simpl.
    destruct (drawObjects tid (m_objects p1) s1) as [objs s2] eqn:Ed.
    intros [= <-]. exists s1, p1. split; [reflexivity|]. split; [exact H1|].
    rewrite Ed. reflexivity.
  - simpl. destruct (f sA) as [s1|]; [|discriminate]. simpl.
    destruct (heap s1 !! a) as [p1|] eqn:H1; [|discriminate]. simpl.
    destruct (drawObjects tid (m_objects p1) s1) as [objs s2] eqn:Ed.
    intros [= <-]. exists s1, p1. split; [reflexivity|]. split; [exact H1|].
    rewrite Ed. reflexivity.
Qed.

(** X16. [link] reads through the pool it is given: with a null pool it
    is undefined, so the closure never runs with one.  With a pool of the
    store it yields the closure, which sets the current pool for the time
    the pool is populated and clears it afterwards.  The function that
    populates the pool runs on a registry whose current pool (of the thread
    that runs the closure, in multithreaded mode) is that pool, with the
    same objects, the running hash of a framed pool back at zero and its
    committed hash kept, nothing yet asked of the painter, and the other
    pools untouched.  If the function fails, the closure fails; when the
    closure returns, the shared pointer and the running thread's pointer
    are both null. *)
Theorem link_scopes_current_pool (f : World -> option World) (s0 : World) :
  link None f s0 = None
  /\ forall a,
       is_Some (heap s0 !! a) ->
       exists act,
         link (Some a) f s0 = Some act
         /\ forall tid s p0,
              heap s !! a = Some p0 ->
              let sB := populationState tid a p0 s in
              act tid s = linkAction tid (Some a) f s
              /\ (getCurrentPool tid sB = Some a
                  /\ calls sB = calls s
                  /\ heap sB !! a
                     = Some (mkPool _ (m_objects p0) (resetCurrentStatus <$> m_framed p0))
                  /\ (forall b, a <> b -> heap sB !! b = heap s !! b))
              /\ (f sB = None -> act tid s = None)
              /\ forall s', act tid s = Some s' ->
                   is_Some (f sB)
                   /\ m_currentPool s' = None
                   /\ T_CURRENT_POOL s' tid = None
                   /\ getCurrentPool tid s' = None.
Proof.
  split; [reflexivity|].
  intros a [q0 Hq]. exists (fun tid => linkAction tid (Some a) f).
  split; [unfold link; simpl; rewrite Hq; reflexivity|].
  intros tid s p0 Hh sB.
  assert (La : (a < length (heap s))%nat) by (eapply lookup_lt_Some; eassumption).
  split; [reflexivity|]. split; [|split].
  - unfold sB, populationState, getCurrentPool.
    destruct (m_framed p0) as [pf|] eqn:Hf;
      destruct (m_multiThread s) eqn:Hm; simpl; rewrite ?Hm, ?Nat.eqb_refl;
      (split; [reflexivity|]); (split; [reflexivity|]).
    + split; [apply list_lookup_insert_eq; exact La|].
      intros b N. apply list_lookup_insert_ne. exact N.
    + split; [apply list_lookup_insert_eq; exact La|].
      intros b N. apply list_lookup_insert_ne. exact N.
    + split; [|reflexivity]. rewrite Hh. destruct p0. simpl in Hf. subst. reflexivity.
    + split; [|reflexivity]. rewrite Hh. destruct p0. simpl in Hf. subst. reflexivity.
  - intros Ef. destruct (linkAction tid (Some a) f s) as [s'|] eqn:El; [|reflexivity].
    destruct (linkAction_inv tid a f s s' p0 Hh El) as (s1 & p1 & E1 & _).
    fold sB in E1. congruence.
  - intros s' El.
    destruct (linkAction_inv tid a f s s' p0 Hh El) as (s1 & p1 & E1 & _ & ->).
    fold sB in E1. split; [rewrite E1; eauto|].
    unfold getCurrentPool. simpl. rewrite Nat.eqb_refl.
    split; [reflexivity|]. split; [reflexivity|].
    destruct (m_multiThread _); reflexivity.
Qed.

(** X17. What the closure of [link] does once the pool is populated
    depends on the thread.  On a population thread it caches the geometry
    of every object of the pool that has none and asks nothing of the
    painter.  On a thread that populates no pool (single-threaded mode) it
    replays every object of the pool to the painter at once.  In both
    cases the objects stay in the pool for [draw]. *)
Theorem link_caches_or_replays (tid : ThreadId) (a : nat) (f : World -> option World)
    (s s' : World) (p0 : Pool) :
  heap s !! a = Some p0 ->
  linkAction tid (Some a) f s = Some s' ->
  exists s1 p1,
    f (populationState tid a p0 s) = Some s1
    /\ heap s1 !! a = Some p1
    /\ (isOnThread tid s1 = true ->
        calls s' = calls s1 /\ g_painter s' = g_painter s1
        /\ heap s' !! a = Some (setObjects (cached <$> m_objects p1) p1))
    /\ (isOnThread tid s1 = false -> m_coordsbuffer s1 = [] ->
        calls s' = calls s1 ++ concat (replayOf <$> m_objects p1)
        /\ heap s' !! a = Some p1).
Proof.
  intros Hh El.
  destruct (linkAction_inv tid a f s s' p0 Hh El) as (s1 & p1 & E1 & H1 & ->).
  assert (La : (a < length (heap s1))%nat) by (eapply lookup_lt_Some; eassumption).
  exists s1, p1. split; [exact E1|]. split; [exact H1|]. split.
  - intros Et. rewrite drawObjects_on_thread by exact Et. simpl.
    split; [reflexivity|]. split; [reflexivity|].
    apply list_lookup_insert_eq. exact La.
  - intros Et Eb. rewrite drawObjects_replays by assumption. simpl.
    split; [apply emitAll_calls|].
    rewrite emitAll_heap.
    rewrite list_lookup_insert_eq by exact La. destruct p1. reflexivity.
Qed.

End LinkFacts.

Section BatchFacts.
Context `{Collaborators}.
Import DrawPool Observe.

Lemma setDrawMethods_same (obj : DrawObject) : setDrawMethods (drawMethods obj) obj = obj.
Proof. destruct obj. reflexivity. Qed.

(** [add] of a method without explicit destination under a state that is
    not the state of the last object, or to an empty pool: one more
    object, the others as they were. *)
Lemma add_starts_object (tid : ThreadId) (texture : TexturePtr) (method : DrawMethod)
    (drawMode : DrawMode) (s : World) (a : nat) (pool : Pool) :
  getCurrentPool tid s = Some a ->
  heap s !! a = Some pool ->
  Point_isNull (dest method) = true ->
  match split_last (m_objects pool) with
  | Some (_, prevObj) =>
      PainterState_eqb (state prevObj) (setTexture (g_painter s) texture) = false
  | None => True
  end ->
  add tid texture method drawMode s
  = Some (store a
            (setObjects
               (m_objects pool
                  ++ [mkDrawObject _ (setTexture (g_painter s) texture) None drawMode
                        [method] None])
               (updateHashIfFramed texture method pool)) s).
Proof.
  intros Hc Hh Hn Hd.
  destruct (split_last (m_objects pool)) as [[front prevObj]|] eqn:E.
  - apply split_last_Some_inv in E.
    assert (Hk : (if negb (Point_isNull (dest method))
                  then eraseOccluded
                         (occludes
                            (PainterState_eqb (state prevObj)
                               (setTexture (g_painter s) texture))
                            texture prevObj method) (drawMethods prevObj)
                  else Some (drawMethods prevObj)) = Some (drawMethods prevObj)).
    { rewrite Hn. reflexivity. }
    rewrite (add_unfold tid texture method drawMode s a pool front prevObj _ Hc Hh E Hk).
    rewrite Hd, setDrawMethods_same, E, <- app_assoc. reflexivity.
  - apply split_last_nil_inv in E. unfold add. rewrite Hc. simpl. rewrite Hh. simpl.
    rewrite updateHashIfFramed_objects, E. reflexivity.
Qed.

(** X23. A run of [add] calls in which no call has the state of the call
    before it (nor the first the state of the pool's last object), with
    methods that carry no explicit destination, appends one object per call
    to the pool, in the order of the calls, each holding the one method
    with the topology asked for; the objects already in the pool are left
    as they were. *)
Theorem addEach_one_object_per_state_change (tid : ThreadId)
    (items : list (TexturePtr * DrawMethod * DrawMode)) :
  forall (s : World) (a : nat) (pool : Pool),
    getCurrentPool tid s = Some a ->
    heap s !! a = Some pool ->
    Forall (fun item => Point_isNull (dest (snd (fst item))) = true) items ->
    alternating (g_painter s) (state <$> last (m_objects pool)) items = true ->
    objectsAt a (addEach tid items s)
    = Some (m_objects pool
              ++ ((fun item =>
                     mkDrawObject _ (setTexture (g_painter s) (fst (fst item))) None
                       (snd item) [snd (fst item)] None) <$> items)).
Proof.
  induction items as [|[[t m] mode] rest IH]; intros s a pool Hc Hh Hn Ha.
  - simpl. unfold objectsAt. simpl. rewrite Hh. simpl. rewrite app_nil_r. reflexivity.
  - apply Forall_cons in Hn. destruct Hn as [Hn Hr]. simpl in Hn.
    simpl in Ha. apply andb_true_iff in Ha. destruct Ha as [Hd Ha].
    assert (Hadd := add_starts_object tid t m mode s a pool Hc Hh Hn).
    simpl addEach. rewrite Hadd.
    + simpl.
      match goal with |- context [store a ?p s] => set (pool' := p) end.
      rewrite (IH (store a pool' s) a pool').
      * simpl. rewrite <- app_assoc. reflexivity.
      * exact Hc.
      * eapply store_lookup, Hh.
      * exact Hr.
      * simpl. rewrite last_snoc. simpl. exact Ha.
    + destruct (split_last (m_objects pool)) as [[front prevObj]|] eqn:E; [|exact I].
      apply split_last_Some_inv in E. rewrite E, last_snoc in Hd. simpl in Hd.
      apply negb_true_iff. exact Hd.
Qed.

Lemma methodCount_snoc (objs : list DrawObject) (o : DrawObject) :
  length (concat (drawMethods <$> (objs ++ [o])))
  = (length (concat (drawMethods <$> objs)) + length (drawMethods o))%nat.
Proof. rewrite fmap_app, concat_app, !length_app. simpl. rewrite app_nil_r. reflexivity. Qed.

Lemma eraseOccluded_length (test : DrawMethod -> option bool) (ms kept : list DrawMethod) :
  eraseOccluded test ms = Some kept ->
  (length kept <= length ms <= S (length kept))%nat.
Proof.
  intros E. destruct (eraseOccluded_spec _ _ _ E) as [[-> _]|(l1 & p & l2 & -> & -> & _)].
  - lia.
  - rewrite !length_app. simpl. lia.
Qed.

(** One call of [add] or [addRepeated] adds at most one object and never
    makes the pool hold fewer methods. *)
Lemma add_counts (tid : ThreadId) (texture : TexturePtr) (method : DrawMethod)
    (drawMode : DrawMode) (s s' : World) (a : nat) (pool : Pool) :
  getCurrentPool tid s = Some a ->
  heap s !! a = Some pool ->
  add tid texture method drawMode s = Some s' ->
  exists pool',
    heap s' !! a = Some pool'
    /\ (length (m_objects pool) <= length (m_objects pool') <= S (length (m_objects pool)))%nat
    /\ (methodCount pool <= methodCount pool' <= S (methodCount pool))%nat.
Proof.
  intros Hc Hh. unfold add. rewrite Hc. simpl. rewrite Hh. simpl.
  rewrite updateHashIfFramed_objects.
  assert (La : (a < length (heap s))%nat) by (eapply lookup_lt_Some; eassumption).
  destruct (split_last (m_objects pool)) as [[front prevObj]|] eqn:E.
  - apply split_last_Some_inv in E. cbv zeta.
    destruct (if negb (Point_isNull (dest method)) then _ else _) as [kept|] eqn:Ek;
      [|discriminate].
    assert (Hl : (length kept <= length (drawMethods prevObj) <= S (length kept))%nat).
    { destruct (negb (Point_isNull (dest method))).
      - eapply eraseOccluded_length, Ek.
      - injection Ek as <-. lia. }
    simpl. destruct (PainterState_eqb _ _); simpl; intros [= <-]; eexists;
      (split; [simpl; apply list_lookup_insert_eq; exact La|]);
      unfold methodCount; simpl; rewrite E.
    + rewrite !methodCount_snoc, !length_app. simpl. rewrite length_app. simpl. lia.
    + match goal with |- context [front ++ [?x; ?y]] =>
        replace (front ++ [x; y]) with ((front ++ [x]) ++ [y])
          by (rewrite <- app_assoc; reflexivity) end.
      rewrite !methodCount_snoc, !length_app. simpl. lia.
  - apply split_last_nil_inv in E. simpl. intros [= <-]. eexists.
    split; [simpl; apply list_lookup_insert_eq; exact La|].
    unfold methodCount. simpl. rewrite E. simpl. lia.
Qed.

Lemma addRepeated_counts (tid : ThreadId) (texture : TexturePtr) (method : DrawMethod)
    (drawMode : DrawMode) (s s' : World) (a : nat) (pool : Pool) :
  getCurrentPool tid s = Some a ->
  heap s !! a = Some pool ->
  addRepeated tid texture method drawMode s = Some s' ->
  exists pool',
    heap s' !! a = Some pool'
    /\ (length (m_objects pool) <= length (m_objects pool') <= S (length (m_objects pool)))%nat
    /\ (methodCount pool <= methodCount pool' <= S (methodCount pool))%nat.
Proof.
  intros Hc Hh. unfold addRepeated. rewrite Hc. simpl. rewrite Hh. simpl.
  assert (La : (a < length (heap s))%nat) by (eapply lookup_lt_Some; eassumption).
  destruct (appendToFirst _ method (m_objects pool)) as [objs|] eqn:E; intros [= <-];
    eexists; (split; [simpl; apply list_lookup_insert_eq; exact La|]);
    unfold methodCount; simpl.
  - destruct (appendToFirst_methods _ _ _ _ E) as (L & _ & N). rewrite L, N. lia.
  - rewrite methodCount_snoc, length_app. simpl. lia.
Qed.

(** X24. While a pool is populated it never shrinks.  Whatever a client
    asks for, the current pool afterwards holds the objects it held or one
    more, and as many methods as before or one more: pruning erases a
    method only in a call that appends one. *)
Theorem population_never_shrinks_pool (tid : ThreadId) (r : Request) (s s' : World)
    (a : nat) (pool : Pool) :
  getCurrentPool tid s = Some a ->
  heap s !! a = Some pool ->
  perform tid r s = Some s' ->
  exists pool',
    heap s' !! a = Some pool'
    /\ (length (m_objects pool) <= length (m_objects pool') <= S (length (m_objects pool)))%nat
    /\ (methodCount pool <= methodCount pool' <= S (methodCount pool))%nat.
Proof.
  intros Hc Hh.
  assert (La : (a < length (heap s))%nat) by (eapply lookup_lt_Some; eassumption).
  assert (Hsame : exists pool',
             heap s !! a = Some pool'
             /\ (length (m_objects pool) <= length (m_objects pool')
                 <= S (length (m_objects pool)))%nat
             /\ (methodCount pool <= methodCount pool' <= S (methodCount pool))%nat).
  { exists pool. split; [exact Hh|]. lia. }
  assert (Hpush : forall (o : DrawObject) (fr : option PoolFramed),
             (length (drawMethods o) <= 1)%nat ->
             exists pool',
               heap (store a (mkPool _ (m_objects pool ++ [o]) fr) s) !! a = Some pool'
               /\ (length (m_objects pool) <= length (m_objects pool')
                   <= S (length (m_objects pool)))%nat
               /\ (methodCount pool <= methodCount pool' <= S (methodCount pool))%nat).
  { intros o fr Ho. eexists. split; [simpl; apply list_lookup_insert_eq; exact La|].
    unfold methodCount. simpl. rewrite methodCount_snoc, length_app. simpl. lia. }
  assert (Hrect : forall (dst src : Rect) (texture : TexturePtr) (k : World -> option World),
             (forall w, k s = Some w ->
                exists pool',
                  heap w !! a = Some pool'
                  /\ (length (m_objects pool) <= length (m_objects pool')
                      <= S (length (m_objects pool)))%nat
                  /\ (methodCount pool <= methodCount pool' <= S (methodCount pool))%nat) ->
             (if Rect_isEmpty dst then Some s else
              if Rect_isEmpty src then Some s else
              t ← texture; if tex_isEmpty t then Some s else k s) = Some s' ->
             exists pool',
               heap s' !! a = Some pool'
               /\ (length (m_objects pool) <= length (m_objects pool')
                   <= S (length (m_objects pool)))%nat
               /\ (methodCount pool <= methodCount pool' <= S (methodCount pool))%nat).
  { intros dst src texture k Hk.
    destruct (Rect_isEmpty dst); [intros [= <-]; exact Hsame|].
    destruct (Rect_isEmpty src); [intros [= <-]; exact Hsame|].
    destruct texture as [t|]; [|discriminate]. simpl.
    destruct (tex_isEmpty t); [intros [= <-]; exact Hsame|].
    intros E. apply Hk, E. }
  destruct r as [cb|cb tex mode|dst tex src od|dst tex|dst tex src|dst tex src|dst tex
                |dst|dst|p q r|dst w|act]; simpl.
  - unfold addFillCoords. destruct (offThread tid s); [intros [= <-]; exact Hsame|].
    rewrite Hc. simpl. rewrite Hh. simpl. intros [= <-].
    unfold setObjects. rewrite updateHashIfFramed_objects. apply Hpush. simpl. lia.
  - unfold addTextureCoords. destruct (offThread tid s); [intros [= <-]; exact Hsame|].
    destruct (match tex with Some t => tex_isEmpty t | None => false end);
      [intros [= <-]; exact Hsame|].
    rewrite Hc. simpl. rewrite Hh. simpl. intros [= <-].
    unfold setObjects. rewrite updateHashIfFramed_objects. apply Hpush. simpl. lia.
  - unfold addTexturedRect. destruct (offThread tid s); [intros [= <-]; exact Hsame|].
    apply (Hrect dst src tex (fun w => add tid tex _ TriangleStrip w)).
    intros w E. eapply add_counts; eassumption.
  - unfold addTexturedRect_whole. destruct tex as [t|]; [|discriminate]. simpl.
    unfold addTexturedRect. destruct (offThread tid s); [intros [= <-]; exact Hsame|].
    apply (Hrect dst _ (Some t) (fun w => add tid (Some t) _ TriangleStrip w)).
    intros w E. eapply add_counts; eassumption.
  - unfold addUpsideDownTexturedRect.
    destruct (offThread tid s); [intros [= <-]; exact Hsame|].
    apply (Hrect dst src tex (fun w => add tid tex _ TriangleStrip w)).
    intros w E. eapply add_counts; eassumption.
  - unfold addRepeatedTexturedRect.
    destruct (offThread tid s); [intros [= <-]; exact Hsame|].
    apply (Hrect dst src tex (fun w => addRepeated tid tex _ drawMode_default w)).
    intros w E. eapply addRepeated_counts; eassumption.
  - unfold addRepeatedTexturedRect_whole.
    destruct (offThread tid s) eqn:Hoff; [intros [= <-]; exact Hsame|].
    destruct tex as [t|]; [|discriminate]. simpl.
    unfold addRepeatedTexturedRect. rewrite Hoff.
    apply (Hrect dst _ (Some t) (fun w => addRepeated tid (Some t) _ drawMode_default w)).
    intros w E. eapply addRepeated_counts; eassumption.
  - unfold addRepeatedFilledRect.
    destruct (offThread tid s); [intros [= <-]; exact Hsame|].
    destruct (Rect_isEmpty dst); [intros [= <-]; exact Hsame|].
    intros E. eapply addRepeated_counts; eassumption.
  - unfold addFilledRect.
    destruct (offThread tid s); [intros [= <-]; exact Hsame|].
    destruct (Rect_isEmpty dst); [intros [= <-]; exact Hsame|].
    intros E. eapply add_counts; eassumption.
  - unfold addFilledTriangle.
    destruct (offThread tid s); [intros [= <-]; exact Hsame|].
    destruct (_ || _); [intros [= <-]; exact Hsame|].
    intros E. eapply add_counts; eassumption.
  - unfold addBoundingRect.
    destruct (offThread tid s); [intros [= <-]; exact Hsame|].
    destruct (_ || _); [intros [= <-]; exact Hsame|].
    intros E. eapply add_counts; eassumption.
  - unfold addAction. destruct (offThread tid s); [intros [= <-]; exact Hsame|].
    rewrite Hc. simpl. rewrite Hh. simpl. intros [= <-].
    unfold setObjects. apply Hpush. simpl. lia.
Qed.

End BatchFacts.

(** * Further properties of the light view *)

Section LightViewFacts.
Context `{LightView.FloatModel}.
Import LightView ObserveLight.

(** X18. In the dark [addLightSource] looks at the last source only.  If it
    is at the same position and of the same colour, its intensity is raised
    to the larger of the two (as 16-bit values) and nothing else changes:
    the source keeps the opacity captured when it was first added, and the
    opacity of the new call is dropped.  Otherwise - also when an equal
    source lies further back in the list - a new source is appended with
    the opacity of the call.  The sources before the last are never
    touched. *)
Theorem addLightSource_looks_at_last_only (p : Point) (light : Light) (op : float)
    (lv : State) :
  isDark lv = true ->
  (forall front prev,
      m_sources lv = front ++ [prev] ->
      pos prev = p -> color prev = light_color light ->
      m_sources (addLightSource p light op lv)
      = front ++ [mkLightSource (pos prev) (color prev)
                    (Z.max (to_uint16 (intensity prev)) (to_uint16 (light_intensity light)))
                    (opacity prev)])
  /\ (forall front prev,
        m_sources lv = front ++ [prev] ->
        pos prev <> p \/ color prev <> light_color light ->
        m_sources (addLightSource p light op lv)
        = m_sources lv ++ [mkLightSource p (light_color light) (light_intensity light) op])
  /\ (m_sources lv = [] ->
      m_sources (addLightSource p light op lv)
      = [mkLightSource p (light_color light) (light_intensity light) op]).
Proof.
  intros Hd. unfold addLightSource. rewrite Hd. simpl. split; [|split].
  - intros front prev E Ep Ec. rewrite E, split_last_snoc.
    assert (Point_eqb (pos prev) p = true) as -> by (apply Point_eqb_eq; exact Ep).
    assert ((color prev =? light_color light) = true) as -> by (apply Z.eqb_eq; exact Ec).
    reflexivity.
  - intros front prev E N. rewrite E, split_last_snoc.
    assert (Point_eqb (pos prev) p && (color prev =? light_color light) = false) as ->.
    { apply andb_false_iff. destruct N as [N | N].
      - left. destruct (Point_eqb (pos prev) p) eqn:Ep; [|reflexivity].
        apply Point_eqb_eq in Ep. contradiction.
      - right. apply Z.eqb_neq. exact N. }
    reflexivity.
  - intros E. rewrite E. reflexivity.
Qed.

(** X19. Colour and intensity of the sources stay within eight bits:
    [addLightSource] with an 8-bit light keeps this of every source.  For
    such a source and an 8-bit tile size the 16-bit radius [draw] computes,
    [intensity * tileSize], does not wrap around. *)
Theorem light_radius_does_not_wrap (p : Point) (light : Light) (op : float) (lv : State) :
  Light_wf light ->
  Forall fits8 (m_sources lv) ->
  Forall fits8 (m_sources (addLightSource p light op lv))
  /\ (0 <= m_tileSize lv < 256 ->
      Forall (fun l => to_uint16 (intensity l * m_tileSize lv) = intensity l * m_tileSize lv)
        (m_sources (addLightSource p light op lv))).
Proof.
  intros [Wi Wc] F.
  assert (F' : Forall fits8 (m_sources (addLightSource p light op lv))).
  { unfold addLightSource. destruct (negb (isDark lv)); [exact F|].
    destruct (split_last (m_sources lv)) as [[front prev]|] eqn:E.
    - apply split_last_Some_inv in E.
      destruct (Point_eqb (pos prev) p && (color prev =? light_color light)).
      + simpl. rewrite E in F. apply Forall_app in F. destruct F as [Ff Fp].
        apply Forall_app. split; [exact Ff|].
        apply Forall_cons in Fp. destruct Fp as [[Pi Pc] _].
        constructor; [|constructor]. unfold fits8. simpl.
        rewrite !to_uint16_small by lia. split; [lia|exact Pc].
      + simpl. apply Forall_app. split; [exact F|].
        constructor; [|constructor]. unfold fits8. simpl. split; assumption.
    - simpl. apply Forall_app. split; [exact F|].
      constructor; [|constructor]. unfold fits8. simpl. split; assumption. }
  split; [exact F'|]. intros Ht.
  eapply Forall_impl; [exact F'|]. intros l [Li _]. simpl.
  apply to_uint16_small. nia.
Qed.

Lemma drawSources_sprites (tileSize : Z) (c : Color) (clr : bool) (sources : list LightSource) :
  sprites (drawSources tileSize c clr sources) = spriteOf <$> sources.
Proof.
  revert clr. induction sources as [|l ls IH]; intros clr; [reflexivity|].
  simpl. unfold spriteOf at 1. destruct (color l =? 0); simpl.
  - unfold sprites. rewrite omap_app. destruct clr; simpl; f_equal; apply IH.
  - unfold sprites. simpl. f_equal. apply IH.
Qed.


(** X20. In the dark [draw] first selects the light pool with its
    rectangles and the global light colour, then adds exactly one rectangle
    for every source, in the order of the sources: the light sprite for a
    source with a colour, the shade sprite for a source with colour 0. *)
Theorem draw_adds_one_sprite_per_source (dst src : Rect) (lv : State) :
  isDark lv = true ->
  exists rest,
    snd (draw dst src lv) = Use (pool_type (m_pool lv)) dst src (m_globalLightColor lv) :: rest
    /\ sprites rest = spriteOf <$> m_sources lv
    /\ length (sprites (snd (draw dst src lv))) = length (m_sources lv).
Proof.
  intros Hd. unfold draw, isDark in *. simpl. rewrite Hd. simpl.
  eexists. split; [reflexivity|]. split.
  - apply drawSources_sprites.
  - unfold sprites at 1. simpl. fold (sprites (drawSources (m_tileSize lv)
      (m_globalLightColor lv) true (m_sources lv))).
    rewrite drawSources_sprites, length_fmap. reflexivity.
Qed.


(** X22. A source is drawn once.  After a [draw] in the dark a second
    [draw] only selects the pool - it adds no rectangle - and leaves the
    view as the first left it; a source added after the first [draw] is the
    only source of the list. *)
Theorem draw_consumes_sources (dst src dst2 src2 : Rect) (p : Point) (light : Light)
    (op : float) (lv : State) :
  isDark lv = true ->
  let lv1 := fst (draw dst src lv) in
  draw dst2 src2 lv1
  = (lv1, [Use (pool_type (m_pool lv)) dst2 src2 (m_globalLightColor lv)])
  /\ m_tileSize lv1 = m_tileSize lv
  /\ isDark lv1 = true
  /\ m_sources (addLightSource p light op lv1)
     = [mkLightSource p (light_color light) (light_intensity light) op].
Proof.
  intros Hd. unfold draw, addLightSource, isDark in *. simpl. rewrite Hd. simpl.
  rewrite Hd. simpl. repeat split.
Qed.

End LightViewFacts.

Section LightGeometryFacts.
Context `{LightView.FloatModel}.
Import LightView ObserveLight.

Lemma drawSources_light (tileSize : Z) (c : Color) (sources : list LightSource)
    (l : LightSource) :
  l ∈ sources -> color l <> 0 ->
  forall clr,
    AddTexturedRect
      (Rect_make (Point_sub (pos l) (to_uint16 (intensity l * tileSize)))
         (mkSize (to_uint16 (intensity l * tileSize) * 2)
            (to_uint16 (intensity l * tileSize) * 2)))
      LightTextureSprite
      (Color_from8bit (color l) (fmin (opacity l) (intensityOver6 (intensity l))))
    ∈ drawSources tileSize c clr sources.
Proof.
  intros Hin Hc. induction sources as [|x xs IH]; intros clr.
  - apply elem_of_nil in Hin. destruct Hin.
  - apply elem_of_cons in Hin. simpl. destruct Hin as [<- | Hin].
    + assert ((color l =? 0) = false) as -> by (apply Z.eqb_neq; exact Hc).
      simpl. apply elem_of_cons. left. reflexivity.
    + destruct (color x =? 0); simpl.
      * apply elem_of_app. right. do 3 (apply elem_of_cons; right). apply IH, Hin.
      * do 2 (apply elem_of_cons; right). apply IH, Hin.
Qed.

Lemma drawSources_shade (tileSize : Z) (c : Color) (sources : list LightSource)
    (l : LightSource) :
  l ∈ sources -> color l = 0 ->
  forall clr,
    AddTexturedRect
      (Rect_make (Point_sub (pos l) (tileTimes1_8 tileSize))
         (mkSize (tileTimes3_3 tileSize) (tileTimes3_3 tileSize)))
      ShadeTextureSprite c
    ∈ drawSources tileSize c clr sources.
Proof.
  intros Hin Hc. induction sources as [|x xs IH]; intros clr.
  - apply elem_of_nil in Hin. destruct Hin.
  - apply elem_of_cons in Hin. simpl. destruct Hin as [<- | Hin].
    + rewrite Hc. simpl. apply elem_of_app. right.
      apply elem_of_cons. right. apply elem_of_cons. left. reflexivity.
    + destruct (color x =? 0); simpl.
      * apply elem_of_app. right. do 3 (apply elem_of_cons; right). apply IH, Hin.
      * do 2 (apply elem_of_cons; right). apply IH, Hin.
Qed.

(** X25. In the dark every source of the list gets its rectangle.  For a
    source with a colour, 8-bit colour and intensity and an 8-bit tile
    size, it is the light sprite on the square that reaches
    [intensity * tileSize] pixels to the left of and above the position of
    the source and as far, less one pixel, to the right and below.  For a
    source with colour 0 it is the shade sprite in the global light colour,
    on a square whose side and offset depend on the tile size only. *)
Theorem draw_sprite_geometry (dst src : Rect) (lv : State) (l : LightSource) :
  isDark lv = true ->
  l ∈ m_sources lv ->
  (color l <> 0 -> fits8 l -> 0 <= m_tileSize lv < 256 ->
   let r := intensity l * m_tileSize lv in
   AddTexturedRect
     (mkRect (px (pos l) - r) (py (pos l) - r) (px (pos l) + r - 1) (py (pos l) + r - 1))
     LightTextureSprite
     (Color_from8bit (color l) (fmin (opacity l) (intensityOver6 (intensity l))))
   ∈ snd (draw dst src lv))
  /\ (color l = 0 ->
      AddTexturedRect
        (Rect_make (Point_sub (pos l) (tileTimes1_8 (m_tileSize lv)))
           (mkSize (tileTimes3_3 (m_tileSize lv)) (tileTimes3_3 (m_tileSize lv))))
        ShadeTextureSprite (m_globalLightColor lv)
      ∈ snd (draw dst src lv)).
Proof.
  intros Hd Hin. unfold draw, isDark in *. simpl. rewrite Hd. simpl. split.
  - intros Hc [Fi _] Ht. cbv zeta. set (r := intensity l * m_tileSize lv).
    apply elem_of_cons. right.
    pose proof (drawSources_light (m_tileSize lv) (m_globalLightColor lv) (m_sources lv) l
                  Hin Hc true) as P.
    rewrite (to_uint16_small (intensity l * m_tileSize lv)) in P by nia.
    unfold Rect_make, Point_sub in P. simpl in P. fold r in P.
    replace (px (pos l) - r + r * 2 - 1) with (px (pos l) + r - 1) in P by lia.
    replace (py (pos l) - r + r * 2 - 1) with (py (pos l) + r - 1) in P by lia.
    exact P.
  - intros Hc. apply elem_of_cons. right. apply drawSources_shade; assumption.
Qed.

End LightGeometryFacts.

Section BatchWitnesses.
Import DrawPool Observe Sample Cases.
#[local] Existing Instance Sample.painter.
#[local] Existing Instance Sample.collab.

(** X23 at two rectangles of different textures added to an empty pool. *)
Lemma addEach_one_object_per_state_change_sample :
  objectsAt 0%nat
    (addEach mainThread
       [(Some texA, plainMethod, TriangleStrip); (Some texB, plainMethod, Triangles)]
       (world [mkPool _ [] None]))
  = Some [mkDrawObject _ (stateOf texA) None TriangleStrip [plainMethod] None;
          mkDrawObject _ (stateOf texB) None Triangles [plainMethod] None].
Proof.
  apply (addEach_one_object_per_state_change mainThread
           [(Some texA, plainMethod, TriangleStrip); (Some texB, plainMethod, Triangles)]
           (world [mkPool _ [] None]) 0%nat (mkPool _ [] None) eq_refl eq_refl).
  - repeat constructor.
  - reflexivity.
Defined.

(** X24 at an opaque rectangle that erases the only method of the pool:
    one object more, the same number of methods. *)
Lemma population_never_shrinks_pool_sample :
  exists s' pool',
    perform mainThread (TexturedRect tile (Some texB) srcRight at55) plainWorld = Some s'
    /\ heap s' !! 0%nat = Some pool'
    /\ (length (m_objects poolOne) <= length (m_objects pool'))%nat
    /\ (methodCount poolOne <= methodCount pool')%nat.
Proof.
  eexists.
  destruct (population_never_shrinks_pool mainThread
              (TexturedRect tile (Some texB) srcRight at55) plainWorld _ 0%nat poolOne
              eq_refl eq_refl eq_refl) as (pool' & Hh & [Ho _] & [Hm _]).
  exists pool'. split; [reflexivity|]. split; [exact Hh|]. split; [exact Ho|exact Hm].
Defined.

End BatchWitnesses.

Section GeometryWitnesses.
Import LightView ObserveLight Sample Cases.
#[local] Existing Instance Sample.floats.

(** X25 at a source of intensity 3 with tile size 32: a square of 192
    pixels around (5,5). *)
Lemma draw_sprite_geometry_sample :
  AddTexturedRect (mkRect (-91) (-91) 100 100) LightTextureSprite
    (Color_from8bit 5 (fmin opacity1 (intensityOver6 3)))
  ∈ snd (draw tile tile (view true [stale; shadow])).
Proof.
  destruct (draw_sprite_geometry tile tile (view true [stale; shadow]) stale eq_refl)
    as [Hl _].
  - apply elem_of_cons. left. reflexivity.
  - apply Hl.
    + discriminate.
    + unfold fits8. simpl. lia.
    + simpl. lia.
Defined.

End GeometryWitnesses.

(** ** The further properties at sample inputs *)

Section MoreRegistryWitnesses.
Import DrawPool Observe Sample Cases.
#[local] Existing Instance Sample.painter.
#[local] Existing Instance Sample.collab.

(** X2 at a filled rectangle added to a plain pool. *)
Lemma population_touches_only_current_pool_sample :
  exists s',
    perform mainThread (FilledRect tile) plainWorld = Some s'
    /\ sameRegistry plainWorld s'.
Proof.
  eexists. split; [reflexivity|].
  exact (proj1 (population_touches_only_current_pool mainThread (FilledRect tile)
                  plainWorld _ eq_refl)).
Defined.


(** X4 at a pool whose first object has the state of the method. *)
Lemma addRepeated_joins_first_match_sample :
  addRepeated mainThread (Some texA) mRight Triangles plainWorld
  = Some (store 0%nat
            (mkPool _ [mkDrawObject _ (stateOf texA) None TriangleStrip [mLeft; mRight] None]
               None) plainWorld).
Proof.
  exact (proj1 (addRepeated_joins_first_match mainThread (Some texA) mRight Triangles
                  plainWorld 0%nat poolOne eq_refl eq_refl)
           [] (objectOf texA [mLeft]) [] eq_refl (List.Forall_nil _) eq_refl).
Defined.

(** X5 at a run of two calls, the second of which erases the method of the
    first from the pool. *)
Lemma addEach_hash_is_fold_sample :
  exists s' pf',
    addEach mainThread run framedWorld = Some s'
    /\ framedAt 0%nat (Some s') = Some pf'
    /\ snd (m_status pf') = hashRun run 5.
Proof.
  eexists. 
  destruct (addEach_hash_is_fold mainThread run framedWorld _ 0%nat poolClean
              (framedPart (5, 5)) eq_refl eq_refl eq_refl eq_refl)
    as (pf' & Hf & Hs & _).
  exists pf'. split; [reflexivity|]. split; [exact Hf|exact Hs].
Defined.

(** X6 at a framed pool populated twice with the same two methods. *)
Lemma repeated_frame_is_not_rerendered_sample :
  linkAction mainThread (Some 0%nat) (addEach mainThread run) dirtyWorld = Some frameOne
  /\ drawPool mainThread (Some 0%nat) frameOne = Some frameOneDrawn
  /\ linkAction mainThread (Some 0%nat) (addEach mainThread run) frameOneDrawn
     = Some frameTwo
  /\ exists pf3,
       framedAt 0%nat (Some frameTwo) = Some pf3 /\ hasModification pf3 = false.
Proof.
  assert (L1 : linkAction mainThread (Some 0%nat) (addEach mainThread run) dirtyWorld
               = Some frameOne) by (vm_compute; reflexivity).
  assert (D : drawPool mainThread (Some 0%nat) frameOne = Some frameOneDrawn)
    by (vm_compute; reflexivity).
  assert (L2 : linkAction mainThread (Some 0%nat) (addEach mainThread run) frameOneDrawn
               = Some frameTwo) by (vm_compute; reflexivity).
  destruct (repeated_frame_is_not_rerendered mainThread 0%nat run dirtyWorld frameOne
              frameOneDrawn frameTwo poolDirty (framedPart (5, 9))
              eq_refl eq_refl eq_refl L1 D L2)
    as (pf3 & s4 & Hf & Hm & _).
  split; [exact L1|]. split; [exact D|]. split; [exact L2|].
  exists pf3. split; [exact Hf|exact Hm].
Defined.

(** X7 at a buffer of one rectangle added to a plain pool. *)
Lemma coords_request_starts_object_sample :
  exists mt mf objT objF,
    addTextureCoords mainThread [addRect tile] (Some texA) TriangleStrip plainWorld
    = Some (store 0%nat (mkPool _ (m_objects poolOne ++ [objT])
                           (updateHash (Some texA) mt <$> m_framed poolOne)) plainWorld)
    /\ addFillCoords mainThread [addRect tile] plainWorld
       = Some (store 0%nat (mkPool _ (m_objects poolOne ++ [objF])
                              (updateHash None mf <$> m_framed poolOne)) plainWorld)
    /\ replayOf objT
       = [ExecuteState (stateOf texA); SetTexture (Some texA);
          DrawCoords [addRect tile] TriangleStrip].
Proof.
  destruct (coords_request_starts_object mainThread [addRect tile] (Some texA) TriangleStrip
              plainWorld 0%nat poolOne eq_refl eq_refl eq_refl eq_refl)
    as (mt & mf & objT & objF & _ & _ & Ht & Hf & Hr & _).
  exists mt, mf, objT, objF. split; [exact Ht|]. split; [exact Hf|exact Hr].
Defined.

(** X8 at a textured rectangle added after a coordinate buffer of the same
    texture. *)
Lemma merge_into_coords_object_draws_buffer_sample :
  exists merged,
    objectsAt 0%nat (add mainThread (Some texA) plainMethod TriangleStrip (world [poolCoords]))
    = Some [merged]
    /\ drawMethods merged = [DrawMethod_init DRAW_TEXTURE_COORDS; plainMethod]
    /\ replayOf merged
       = [ExecuteState (stateOf texA); SetTexture (Some texA);
          DrawCoords [addRect tile] Triangles].
Proof.
  exact (merge_into_coords_object_draws_buffer mainThread (Some texA) plainMethod
           TriangleStrip (world [poolCoords]) 0%nat poolCoords []
           (mkDrawObject _ (stateOf texA) (Some [addRect tile]) TriangleStrip
              [DrawMethod_init DRAW_TEXTURE_COORDS] None)
           [addRect tile] eq_refl eq_refl eq_refl eq_refl eq_refl eq_refl eq_refl).
Defined.

(** X9 at an opaque rectangle added over the only method of the last
    object. *)
Lemma pruning_leaves_empty_object_sample :
  exists emptied,
    objectsAt 0%nat (add mainThread (Some texB) mRight TriangleStrip plainWorld)
    = Some [emptied; mkDrawObject _ (stateOf texB) None TriangleStrip [mRight] None]
    /\ drawMethods emptied = []
    /\ state emptied = stateOf texA
    /\ replayOf emptied = [].
Proof.
  exact (pruning_leaves_empty_object mainThread texB texA mRight mLeft TriangleStrip
           plainWorld 0%nat poolOne [] (objectOf texA [mLeft])
           eq_refl eq_refl eq_refl eq_refl eq_refl eq_refl eq_refl eq_refl eq_refl
           eq_refl eq_refl).
Defined.

(** X10 at an object without buffer, on the thread that populates its
    pool. *)
Lemma drawObject_on_thread_only_caches_sample :
  drawObject mainThread (objectOf texA [mLeft]) workerWorld
  = (mkDrawObject _ (stateOf texA) (Some [addQuad tile srcLeft]) TriangleStrip [mLeft] None,
     workerWorld).
Proof.
  destruct (drawObject_on_thread_only_caches mainThread (objectOf texA [mLeft]) workerWorld
              eq_refl) as (Hs & Ho & _).
  rewrite (surjective_pairing (drawObject _ _ _)), Hs, Ho. reflexivity.
Defined.

(** X1 at the four pools of a registry, and at three of them. *)
Lemma created_pools_make_draw_defined_sample :
  createEach fourPools emptyRegistry = registry
  /\ (exists s', draw mainThread (createEach fourPools (terminate mainThread dirtyWorld))
                 = Some s'
                 /\ exists a, m_pools s' LIGHT = Some a /\ emptyAt a s')
  /\ draw mainThread
       (createEach [(MAP, None); (LIGHT, Some frameBuffer0); (UI, None)]
          (terminate mainThread dirtyWorld)) = None.
Proof.
  split; [reflexivity|]. split.
  - destruct (created_pools_make_draw_defined mainThread mainThread fourPools dirtyWorld)
      as [Hall _].
    destruct Hall as (s' & Hd & He).
    + intros t. destruct t; vm_compute; repeat constructor.
    + exists s'. split; [exact Hd|]. exact (He LIGHT).
  - destruct (created_pools_make_draw_defined mainThread mainThread
                [(MAP, None); (LIGHT, Some frameBuffer0); (UI, None)] dirtyWorld)
      as (_ & Hmiss & _).
    apply (Hmiss FOREGROUND).
    intros Hin. vm_compute in Hin.
    repeat (apply elem_of_cons in Hin; destruct Hin as [Hin | Hin]; [discriminate|]).
    apply elem_of_nil in Hin. exact Hin.
Defined.

(** X12 at a registry with four pools, and at one without pools. *)
Lemma draw_needs_every_slot_and_empties_pools_sample :
  draw mainThread emptyRegistry = None
  /\ exists s', draw mainThread registry = Some s' /\ emptyAt 1%nat s'.
Proof.
  split.
  - apply (proj1 (draw_needs_every_slot_and_empties_pools mainThread emptyRegistry) MAP).
    left. reflexivity.
  - destruct (proj2 (draw_needs_every_slot_and_empties_pools mainThread registry))
      as (s' & Hd & _ & He).
    + intros t. destruct t; eexists; (split; [reflexivity|eexists; reflexivity]).
    + exists s'. split; [exact Hd|]. apply (He LIGHT). reflexivity.
Defined.

(** X13 at a registry with four pools in multithreaded mode. *)
Lemma draw_joins_before_drawing_sample :
  exists s' rest,
    draw mainThread registry = Some s'
    /\ calls s' = [] ++ [Join 0%nat; Join 1%nat; Join 2%nat; Join 3%nat] ++ rest
    /\ Forall (fun c => isJoin c = false) rest.
Proof.
  apply (draw_joins_before_drawing mainThread registry).
  intros t. destruct t; eexists; (split; [reflexivity|eexists; reflexivity]).
Defined.

(** X16 at a worker thread and the pool it populates. *)
Lemma link_scopes_current_pool_sample :
  link None (addFilledRect mainThread tile) workerWorld = None
  /\ exists act s',
       link (Some 0%nat) (addFilledRect mainThread tile) workerWorld = Some act
       /\ act mainThread workerWorld = Some s'
       /\ getCurrentPool mainThread s' = None
       /\ getCurrentPool mainThread (populationState mainThread 0%nat poolOne workerWorld)
          = Some 0%nat.
Proof.
  destruct (link_scopes_current_pool (addFilledRect mainThread tile) workerWorld)
    as [Hnull Hl].
  split; [exact Hnull|].
  destruct (Hl 0%nat (ex_intro _ poolOne eq_refl)) as (act & Hact & Hrun).
  destruct (Hrun mainThread workerWorld poolOne eq_refl) as (Heq & (Hb & _) & _ & Hs).
  assert (Ea : act mainThread workerWorld
               = Some (default workerWorld
                         (linkAction mainThread (Some 0%nat) (addFilledRect mainThread tile)
                            workerWorld))).
  { rewrite Heq. reflexivity. }
  destruct (Hs _ Ea) as (_ & _ & _ & Hc).
  exists act. eexists. split; [exact Hact|]. split; [exact Ea|]. split; [exact Hc|exact Hb].
Defined.

(** X14 at a framed pool with a pending modification. *)
Lemma drawPool_undrawable_discards_sample :
  exists s',
    drawPool mainThread (Some 0%nat) (world [poolUndrawable]) = Some s'
    /\ calls s' = []
    /\ hasModification <$> framedAt 0%nat (Some s') = Some true.
Proof.
  destruct (drawPool_undrawable_discards mainThread (world [poolUndrawable]) 0%nat
              poolUndrawable _ eq_refl eq_refl eq_refl) as (s' & Hd & Hc & _ & Hh).
  exists s'. split; [exact Hd|]. split; [exact Hc|].
  unfold framedAt. simpl. rewrite Hh. reflexivity.
Defined.

(** X15 at a plain pool with one object. *)
Lemma drawPool_plain_replays_sample :
  exists s',
    drawPool mainThread (Some 0%nat) plainWorld = Some s'
    /\ calls s'
       = [ExecuteState (stateOf texA); SetTexture (Some texA);
          DrawCoords [addQuad tile srcLeft] TriangleStrip]
    /\ heap s' !! 0%nat = Some (mkPool _ [] None).
Proof.
  exact (drawPool_plain_replays mainThread plainWorld 0%nat poolOne
           eq_refl eq_refl eq_refl eq_refl).
Defined.

(** X17 at a worker thread populating a plain pool with one more
    rectangle: the geometry of the merged object is cached. *)
Lemma link_caches_or_replays_sample :
  exists s' s1 p1,
    linkAction mainThread (Some 0%nat) (addFilledRect mainThread tile) workerWorld = Some s'
    /\ addFilledRect mainThread tile (populationState mainThread 0%nat poolOne workerWorld)
       = Some s1
    /\ calls s' = calls s1
    /\ heap s' !! 0%nat = Some (setObjects (cached <$> m_objects p1) p1).
Proof.
  eexists.
  destruct (link_caches_or_replays mainThread 0%nat (addFilledRect mainThread tile)
              workerWorld _ poolOne eq_refl eq_refl) as (s1 & p1 & Hf & H1 & Hon & _).
  assert (Ht : isOnThread mainThread s1 = true).
  { vm_compute in Hf. injection Hf as <-. reflexivity. }
  destruct (Hon Ht) as (Hc & _ & Hh).
  exists s1, p1. split; [reflexivity|]. split; [exact Hf|]. split; [exact Hc|exact Hh].
Defined.

End MoreRegistryWitnesses.

Section MoreLightWitnesses.
Import LightView ObserveLight Sample Cases.
#[local] Existing Instance Sample.floats.

(** X18 at a source equal to one that is not the last of the list. *)
Lemma addLightSource_looks_at_last_only_sample :
  m_sources (addLightSource at55 (mkLight 7 5) opacity1 (view true [stale; shadow]))
  = [stale; shadow; mkLightSource at55 5 7 opacity1].
Proof.
  destruct (addLightSource_looks_at_last_only at55 (mkLight 7 5) opacity1
              (view true [stale; shadow]) eq_refl) as (_ & Ha & _).
  apply (Ha [stale] shadow eq_refl). right. discriminate.
Defined.

(** X19 at an 8-bit light added to a view with tile size 32. *)
Lemma light_radius_does_not_wrap_sample :
  Forall (fun l => to_uint16 (intensity l * 32) = intensity l * 32)
    (m_sources (addLightSource at55 (mkLight 255 5) opacity1 (view true [stale]))).
Proof.
  assert (W : Light_wf (mkLight 255 5)) by (unfold Light_wf; simpl; lia).
  assert (F : Forall fits8 (m_sources (view true [stale]))).
  { constructor; [|constructor]. unfold fits8. simpl. lia. }
  destruct (light_radius_does_not_wrap at55 (mkLight 255 5) opacity1 (view true [stale]) W F)
    as [_ Hr].
  apply Hr. simpl. lia.
Defined.

(** X20 at a light followed by a shadow. *)
Lemma draw_adds_one_sprite_per_source_sample :
  exists rest,
    snd (draw tile tile (view true [stale; shadow])) = Use LIGHT tile tile 215 :: rest
    /\ sprites rest = [LightTextureSprite; ShadeTextureSprite].
Proof.
  destruct (draw_adds_one_sprite_per_source tile tile (view true [stale; shadow]) eq_refl)
    as (rest & Hu & Hs & _).
  exists rest. split; [exact Hu|exact Hs].
Defined.

(** X22 at a view holding one source. *)
Lemma draw_consumes_sources_sample :
  draw tile tile (fst (draw tile tile (view true [stale])))
  = (fst (draw tile tile (view true [stale])), [Use LIGHT tile tile 215]).
Proof.
  exact (proj1 (draw_consumes_sources tile tile tile tile at55 (mkLight 7 5) opacity1
                  (view true [stale]) eq_refl)).
Defined.

End MoreLightWitnesses.
